(** * Backtest engine: position netting, admission control and AIMD sizing

    A shallow embedding of [aimd.py] (classes [Position] and [Asks]),
    of [engine.py] (class [Orchestrator]) and of the strategy interface of
    [strategy.py], followed by the properties of the position ledger, of the
    ask sizer and of the per-tick state machine.

    Conventions of the embedding:
    - Python and numpy integers are [Z] (no overflow); Python floats
      (prices, cash, fees, PnL) are rationals [Q], and their sums, products
      and comparisons are exact.  The two places where the code cuts a
      float to an integer or to decimal digits, [int(ask * penalty_mult)]
      and [round(x, n)], round as the floating-point unit does: to the
      nearest binary64 number, ties to even ([Py.b64]).  Infinities, NaN and
      overflow beyond the largest float are not part of the model;
    - a Python exception is [None] in the [option] monad: a method that
      mutates [self] and returns normally yields [Some] of the new object;
    - lists indexed by [l[i]] use stdpp's lookup [l !! i] (out of range is
      [None], Python's [IndexError]) and an explicit bounds check before
      the in-place store [l[i] = v];
    - a [for] loop over [range(n)] is a fold of its body, in the [option]
      monad, over the indices [0 .. n-1];
    - the two pandas books are the lists of their rows;
    - strategies are external collaborators: any state type with the
      seven operations of the interface. *)

From Stdlib Require Import ZArith QArith Qround Qpower Qabs Lia Lqa.
From stdpp Require Import base option list gmap strings.

Open Scope Z_scope.

(** ** Python built-ins used by the sources *)

Module Py.

(** [sum(l)] on a list of integers. *)
Definition sum (l : list Z) : Z := foldr Z.add 0 l.

(** [l[i] = v]: raises [IndexError] out of range. *)
Definition store {A} (i : nat) (v : A) (l : list A) : option (list A) :=
  if decide (i < length l)%nat then Some (<[i:=v]> l) else None.

(** [for x in xs: st = body(x, st)], where the body may raise. *)
Fixpoint for_each {A B} (body : A → B → option B) (xs : list A) (st : B)
  : option B :=
  match xs with
  | [] => Some st
  | x :: xs' => st' ← body x st; for_each body xs' st'
  end.

(** [range(n)]. *)
Definition range (n : nat) : list nat := seq 0 n.

(** [int(x)] on a float: truncation toward zero. *)
Definition int (x : Q) : Z := Z.quot (Qnum x) (Zpos (Qden x)).

(** [x != 0], [x > 0] on floats. *)
Definition nonzero (x : Q) : bool := negb (Qeq_bool x 0).
Definition positive (x : Q) : bool := negb (Qle_bool x 0).

(** The integer nearest to [x], ties to the even one. *)
Definition nearest_even (x : Q) : Z :=
  let lo := Qfloor x in
  match (x - inject_Z lo ?= 1 # 2)%Q with
  | Lt => lo
  | Gt => lo + 1
  | Eq => if Z.even lo then lo else lo + 1
  end.

Definition pow2 (k : Z) : Q := (2 ^ k)%Q.

(** [floor(log2(x))] for [x > 0]. *)
Definition ilog2 (x : Q) : Z :=
  let k := Z.log2 (Qnum x) - Z.log2 (Zpos (Qden x)) in
  if Qle_bool (pow2 k) x then k else k - 1.

(** The binary64 number nearest to [x], ties to even: a multiple of
    [2^e] with a significand of 53 bits, where [e] is 52 below the binary
    exponent of [x] and not below [-1074], the exponent of the subnormal
    numbers.  This is the rounding of every float operation, of
    [float(n)] on an integer and of the reading of a decimal literal. *)
Definition b64 (x : Q) : Q :=
  if Qeq_bool x 0 then 0%Q
  else
    let e := Z.max (ilog2 (Qabs x) - 52) (-1074) in
    (inject_Z (nearest_even (x / pow2 e)) * pow2 e)%Q.

(** A numeric value of the configuration: a Python [int], or a [float],
    given by a rational that stands for the float nearest to it (as the
    decimal literal [0.666] does). *)
Inductive number :=
| Int (n : Z)
| Float (x : Q).

(** [int(n * y)] for an integer [n]: the product of two integers is
    exact; with a float [y] the product is the float product of
    [float(n)] and [y]. *)
Definition int_mul (n : Z) (y : number) : Z :=
  match y with
  | Int k => n * k
  | Float y => int (b64 (b64 (inject_Z n) * b64 y))
  end.

(** [round(x, ndigits)] on the float nearest to [x]: that float is
    rounded to the nearest multiple of [10^-ndigits], ties to even, and
    the result is the float nearest to this decimal. *)
Definition round (x : Q) (ndigits : nat) : Q :=
  let scale := inject_Z (10 ^ Z.of_nat ndigits) in
  b64 (inject_Z (nearest_even (b64 x * scale)) / scale).

End Py.

(** ** [aimd.py]: class [Position] *)

Module Position.

Record t := mk {
  num_strats : nat;
  inventory_limit : Z;
  trade_limit : Z;
  pos : list Z
}.

(** [Position.__init__] *)
Definition init (num_strats : nat) (inventory_limit trade_limit : Z) : t :=
  mk num_strats inventory_limit trade_limit (replicate num_strats 0).

(** One iteration of the loop of [normalize]: the state is the list being
    rewritten in place and [current_limit]. *)
Definition normalize_body (inventory_limit : Z) (i : nat)
    (st : list Z * Z) : option (list Z * Z) :=
  let '(pos, current_limit) := st in
  p ← pos !! i;
  if current_limit + Z.abs p >? inventory_limit then
    pos' ← Py.store i
      ((inventory_limit - current_limit) * (if p >? 0 then 1 else -1)) pos;
    Some (pos', inventory_limit)
  else if current_limit + Z.abs p <=? inventory_limit then
    Some (pos, current_limit + Z.abs p)
  else Some (pos, current_limit).

(** [Position.normalize] *)
Definition normalize (self : t) (pos : list Z) : option (list Z) :=
  fst <$> Py.for_each (normalize_body self.(inventory_limit))
            (Py.range (length pos)) (pos, 0).

(** The loop state of [update_position]: the local lists [pos], [asks],
    [aimd] and the scalar [direction]. *)
Record netting := mk_netting {
  n_pos : list Z;
  n_asks : list Z;
  n_aimd : list Z;
  n_direction : Z
}.

(** One iteration of the loop of [update_position]. *)
Definition update_body (i : nat) (st : netting) : option netting :=
  let '(mk_netting pos asks aimd direction) := st in
  a ← asks !! i;
  p ← pos !! i;
  if a * p <? 0 then
    (* square off *)
    aimd' ← Py.store i 1 aimd;
    pos' ← Py.store i 0 pos;
    asks' ← Py.store i 0 asks;
    Some (mk_netting pos' asks' aimd' direction)
  else if negb (direction =? 0) then
    if (a * direction >? 0) && (p =? 0) then
      pos' ← Py.store i (p + a) pos;
      asks' ← Py.store i 0 asks;
      Some (mk_netting pos' asks' aimd direction)
    else if p * direction <? 0 then
      aimd' ← Py.store i 1 aimd;
      pos' ← Py.store i 0 pos;
      Some (mk_netting pos' asks aimd' direction)
    else Some st
  else
    let direction' :=
      if a >? 0 then 1 else if a <? 0 then -1
      else if p >? 0 then 1 else if p <? 0 then -1 else 0 in
    pos' ← Py.store i (p + a) pos;
    Some (mk_netting pos' asks aimd direction').

(** The signed asks: [[asks_abs[i] * signals[i] for i in range(len(asks_abs))]] *)
Definition signed_asks (signals asks_abs : list Z) : option (list Z) :=
  mapM (λ i, a ← asks_abs !! i; s ← signals !! i; Some (a * s))
       (Py.range (length asks_abs)).

(** The loop of [update_position], up to the call of [normalize]. *)
Definition net (self : t) (signals asks_abs : list Z) : option netting :=
  asks ← signed_asks signals asks_abs;
  Py.for_each update_body (Py.range (length signals))
    (mk_netting self.(pos) asks (replicate (length asks_abs) 0) 0).

(** [Position.update_position]: the new ledger and the returned tuple
    [(trades_to_execute, aimd)]. *)
Definition update_position (self : t) (signals asks_abs : list Z)
  : option (t * (Z * list Z)) :=
  let prev_pos := self.(pos) in
  st ← net self signals asks_abs;
  pos' ← normalize self st.(n_pos);
  let self' := mk self.(num_strats) self.(inventory_limit)
                  self.(trade_limit) pos' in
  let current_exposure := Py.sum self'.(pos) in
  let prev_exposure := Py.sum prev_pos in
  Some (self', (current_exposure - prev_exposure, st.(n_aimd))).

(** [Position.reset_position] *)
Definition reset_position (self : t) : t :=
  mk self.(num_strats) self.(inventory_limit) self.(trade_limit)
     (replicate self.(num_strats) 0).

End Position.

(** ** [aimd.py]: class [Asks] *)

Module Asks.

Record t := mk {
  num_strats : nat;
  asks : list Z;
  reward_add : Z;
  penalty_mult : Py.number
}.

(** [Asks.__init__] *)
Definition init (num_strats : nat) (initial_ask reward_add : Z)
    (penalty_mult : Py.number) : t :=
  mk num_strats (replicate num_strats initial_ask) reward_add penalty_mult.

(** One iteration of the loop of [update] on [self.asks]. *)
Definition update_body (self : t) (last_traded_pnl : list Q)
    (aimd : list Z) (i : nat) (asks : list Z) : option (list Z) :=
  pnl ← last_traded_pnl !! i;
  if Py.nonzero pnl then
    flag ← aimd !! i;
    if flag =? 1 then
      a ← asks !! i;
      if Py.positive pnl then
        (* additive increase on profit *)
        Py.store i (a + self.(reward_add)) asks
      else
        (* multiplicative decrease on loss *)
        Py.store i (Z.max 1 (Py.int_mul a self.(penalty_mult))) asks
    else Some asks
  else Some asks.

(** [Asks.update]: the object after the call; the value returned by the
    source is its [asks]. *)
Definition update (self : t) (last_traded_pnl : list Q) (aimd : list Z)
  : option t :=
  asks' ← Py.for_each (update_body self last_traded_pnl aimd)
            (Py.range (length self.(asks))) self.(asks);
  Some (mk self.(num_strats) asks' self.(reward_add) self.(penalty_mult)).

(** [Asks.get_asks] *)
Definition get_asks (self : t) : list Z := self.(asks).

End Asks.

(** ** [utils.py] and the tick record *)

(** A [datetime.time] value. *)
Record time := mk_time { hour : Z; minute : Z; second : Z }.

(** [tick_data]: the keys of the row that the engine reads. *)
Record Tick := mk_tick { Time : time; Price : Q }.

(** [time_to_seconds] *)
Definition time_to_seconds (t : time) : Z :=
  t.(hour) * 3600 + t.(minute) * 60 + t.(second).

(** The constructor [datetime.time(hour, minute, second)]: it raises
    outside the ranges of a time of day ([ValueError], or [OverflowError]
    for an argument beyond the range of a C [int]). *)
Definition datetime_time (h m s : Z) : option time :=
  if (0 <=? h) && (h <=? 23) && (0 <=? m) && (m <=? 59)
     && (0 <=? s) && (s <=? 59)
  then Some (mk_time h m s) else None.

(** [seconds_to_time]; [//] and [%] round towards minus infinity, as
    [Z.div] and [Z.modulo] do. *)
Definition seconds_to_time (seconds : Z) : option time :=
  let hours := seconds / 3600 in
  let seconds := seconds mod 3600 in
  let minutes := seconds / 60 in
  let seconds := seconds mod 60 in
  datetime_time hours minutes seconds.

(** ** [utils.py]: the configuration cache *)

Module Utils.

(** What [_load_cfg] finds at a path: nothing it can load (no such file,
    so that [open] raises, or content that [EasyDict] rejects), a file
    that is not YAML ([YAMLError]), or a configuration. *)
Inductive file (C : Type) :=
| Missing
| Malformed
| Content (cfg : C).

Arguments Missing {C}.
Arguments Malformed {C}.
Arguments Content {C} cfg.

Section GetCfg.
Context {C : Type}.

(** [_load_cfg] on the file system [fs]: the outer [None] is an
    exception that leaves the function, the inner one the [None] returned
    after a [YAMLError]. *)
Definition _load_cfg (fs : string → file C) (file_path : string)
  : option (option C) :=
  match fs file_path with
  | Missing => None
  | Malformed => Some None
  | Content cfg => Some (Some cfg)
  end.

(** [get_cfg] on the module-level dictionary [CACHE]: the dictionary
    after the call and the value returned, [None] when the call raised. *)
Definition get_cfg (fs : string → file C) (CACHE : gmap string (option C))
    (file_path : string) : gmap string (option C) * option C :=
  let loaded :=
    match CACHE !! file_path with
    | None => v ← _load_cfg fs file_path; Some (<[file_path:=v]> CACHE)
    | Some _ => Some CACHE
    end in
  match loaded with
  | None => (CACHE, None)
  | Some CACHE =>
    match CACHE !! file_path with
    | Some (Some cfg) => (CACHE, Some cfg)
    | _ => (CACHE, None) (* FileNotFoundError *)
    end
  end.

End GetCfg.

End Utils.

(** ** [strategy.py]: the strategy interface and its classes *)

Module Strategy.

(** The seven operations the engine calls on a strategy object of state
    type [S].  Every operation may raise, and the four checks may change
    the object (as [Strategy_C] does). *)
Class Ops (S : Type) := {
  reset : S → option S;
  update_indicators : S → Tick → option S;
  update_position : S → Z → Q → option S;
  check_long_entry : S → option (bool * S);
  check_short_entry : S → option (bool * S);
  check_long_exit : S → option (bool * S);
  check_short_exit : S → option (bool * S)
}.

(** The attributes of the base class; [current_tick] is [None] for the
    empty dictionary of [__init__]. *)
Record t := mk {
  tp : Q;
  sl : Q;
  entry_price : Q;
  current_tick : option Tick
}.

Definition init (tp sl : Q) : t := mk tp sl 0 None.

Definition base_reset (self : t) : t :=
  mk self.(tp) self.(sl) 0 self.(current_tick).

Definition base_update_indicators (self : t) (tick_data : Tick) : t :=
  mk self.(tp) self.(sl) self.(entry_price) (Some tick_data).

Definition base_update_position (self : t) (position : Z)
    (entry_price : Q) : t :=
  if negb (position =? 0)
  then mk self.(tp) self.(sl) entry_price self.(current_tick)
  else mk self.(tp) self.(sl) 0 self.(current_tick).

(** Class [Strategy]: no entry and no exit. *)
Definition base : Ops t := {|
  reset self := Some (base_reset self);
  update_indicators self tick_data :=
    Some (base_update_indicators self tick_data);
  update_position self position entry_price :=
    Some (base_update_position self position entry_price);
  check_long_entry self := Some (false, self);
  check_short_entry self := Some (false, self);
  check_long_exit self := Some (false, self);
  check_short_exit self := Some (false, self)
|}.

(** Class [Strategy_A]: long at every hour mark after the first, exit on
    take-profit or stop-loss.  Reading [current_tick] before the first
    [update_indicators] raises [KeyError]. *)
Definition A_check_long_entry (self : t) : option (bool * t) :=
  tick ← self.(current_tick);
  let time_sec := time_to_seconds tick.(Time) in
  if (time_sec mod 3600 =? 0) && (time_sec >? 3600)
  then Some (true, self) else Some (false, self).

Definition A_check_long_exit (self : t) : option (bool * t) :=
  if Qeq_bool self.(entry_price) 0 then Some (false, self)
  else
    tick ← self.(current_tick);
    let pnl := (tick.(Price) - self.(entry_price))%Q in
    if Qle_bool self.(tp) pnl || Qle_bool pnl (- self.(sl))
    then Some (true, self) else Some (false, self).

Definition Strategy_A : Ops t := {|
  reset self := Some (base_reset self);
  update_indicators self tick_data :=
    Some (base_update_indicators self tick_data);
  update_position self position entry_price :=
    Some (base_update_position self position entry_price);
  check_long_entry := A_check_long_entry;
  check_short_entry self := Some (false, self);
  check_long_exit := A_check_long_exit;
  check_short_exit self := Some (false, self)
|}.

(** Class [Strategy_B]: short at every half-hour mark that is not an hour
    mark, exit on take-profit or stop-loss. *)
Definition B_check_short_entry (self : t) : option (bool * t) :=
  tick ← self.(current_tick);
  let time_sec := time_to_seconds tick.(Time) in
  if (time_sec mod 1800 =? 0) && negb (time_sec mod 3600 =? 0)
     && Qeq_bool self.(entry_price) 0
  then Some (true, self) else Some (false, self).

Definition B_check_short_exit (self : t) : option (bool * t) :=
  if Qeq_bool self.(entry_price) 0 then Some (false, self)
  else
    tick ← self.(current_tick);
    let pnl := (self.(entry_price) - tick.(Price))%Q in
    if Qle_bool self.(tp) pnl || Qle_bool pnl (- self.(sl))
    then Some (true, self) else Some (false, self).

Definition Strategy_B : Ops t := {|
  reset self := Some (base_reset self);
  update_indicators self tick_data :=
    Some (base_update_indicators self tick_data);
  update_position self position entry_price :=
    Some (base_update_position self position entry_price);
  check_long_entry self := Some (false, self);
  check_short_entry := B_check_short_entry;
  check_long_exit self := Some (false, self);
  check_short_exit := B_check_short_exit
|}.

(** Class [Strategy_C]: the attributes of the base class and
    [trade_count]; long and short entries alternate at the quarter-hour
    marks. *)
Record C_t := mk_C {
  C_base : t;
  trade_count : Z
}.

Definition C_init (tp sl : Q) : C_t := mk_C (init tp sl) 0.

Definition C_reset (self : C_t) : C_t := mk_C (base_reset self.(C_base)) 0.

Definition C_check_long_entry (self : C_t) : option (bool * C_t) :=
  tick ← self.(C_base).(current_tick);
  let time_sec := time_to_seconds tick.(Time) in
  if time_sec mod 900 =? 0 then
    if self.(trade_count) mod 2 =? 0
    then Some (true, mk_C self.(C_base) (self.(trade_count) + 1))
    else Some (false, self)
  else Some (false, self).

Definition C_check_short_entry (self : C_t) : option (bool * C_t) :=
  tick ← self.(C_base).(current_tick);
  let time_sec := time_to_seconds tick.(Time) in
  if time_sec mod 900 =? 0 then
    if self.(trade_count) mod 2 =? 1
    then Some (true, mk_C self.(C_base) (self.(trade_count) + 1))
    else Some (false, self)
  else Some (false, self).

(** A method of the base attributes, run on a [Strategy_C] object. *)
Definition C_lift (check : t → option (bool * t)) (self : C_t)
  : option (bool * C_t) :=
  '(b, base) ← check self.(C_base);
  Some (b, mk_C base self.(trade_count)).

Definition Strategy_C : Ops C_t := {|
  reset self := Some (C_reset self);
  update_indicators self tick_data :=
    Some (mk_C (base_update_indicators self.(C_base) tick_data)
            self.(trade_count));
  update_position self position entry_price :=
    Some (mk_C (base_update_position self.(C_base) position entry_price)
            self.(trade_count));
  check_long_entry := C_check_long_entry;
  check_short_entry := C_check_short_entry;
  check_long_exit := C_lift A_check_long_exit;
  check_short_exit := C_lift B_check_short_exit
|}.

End Strategy.

(** ** [engine.py]: class [Orchestrator] *)

Module Orchestrator.

(** The configuration object, an [EasyDict].  A section or an attribute
    that the constructor reads by attribute access ([config.engine],
    [config.engine.aimd], [config.strategies], and [name], [tp] and [sl]
    of an entry of [config.strategies]) is [None] when the configuration
    does not have it (or has [null] where a section is read): the access,
    or the first use of its value, then raises.  The dictionary
    [config.engine] is kept as two finite maps, one for its integer-valued
    keys and one for its real-valued keys, and likewise
    [config.engine.aimd]. *)
Record StrategyConfig := mk_strategy_config {
  name : option string;
  tp : option Q;
  sl : option Q
}.

Record EngineConfig := mk_engine_config {
  engine_int : gmap string Z;
  engine_real : gmap string Q;
  engine_aimd : option (gmap string Z * gmap string Q)
}.

Record Config := mk_config {
  config_engine : option EngineConfig;
  config_strategies : option (list StrategyConfig)
}.

(** [d.get(key, default)] for an integer option. *)
Definition get_int (d : gmap string Z) (key : string) (dflt : Z) : Z :=
  default dflt (d !! key).

(** [d.get(key, default)] for a real option (an integer value is read as
    a real). *)
Definition get_real (di : gmap string Z) (dr : gmap string Q)
    (key : string) (dflt : Q) : Q :=
  match dr !! key with
  | Some q => q
  | None => default dflt (inject_Z <$> di !! key)
  end.

(** [d.get(key, default)] for an option that the code multiplies as it
    is: an integer stays a Python [int], a real is a [float]. *)
Definition get_number (di : gmap string Z) (dr : gmap string Q)
    (key : string) (dflt : Py.number) : Py.number :=
  match dr !! key with
  | Some q => Py.Float q
  | None => default dflt (Py.Int <$> di !! key)
  end.

(** [d.key] for a real option: raises [AttributeError] when absent. *)
Definition attr_real (di : gmap string Z) (dr : gmap string Q)
    (key : string) : option Q :=
  match dr !! key with
  | Some q => Some q
  | None => inject_Z <$> di !! key
  end.

Inductive Side := Buy | Sell.

(** A row of [trade_book]. *)
Record TradeRow := mk_trade {
  tr_Time : time;
  tr_Price : Q;
  tr_Quantity : Z;
  tr_Side : Side;
  tr_Inventory : Z;
  tr_Transaction_Cost : Q;
  tr_Day : option Z
}.

(** A row of [snap_book]: the frame has the columns Time, Day, Equity,
    Cash and Inventory, and the key Price of the dictionary that
    [_portfolio_snapshot] inserts is not among them. *)
Record SnapRow := mk_snap {
  sn_Time : time;
  sn_Day : option Z;
  sn_Equity : Q;
  sn_Cash : Q;
  sn_Inventory : Z
}.

#[local] Set Implicit Arguments.

(** The attributes of an [Orchestrator] whose strategies have state type
    [S]. *)
Record t (S : Type) := mk {
  strategies : list S;
  num_strats : nat;
  config : Config;
  trade_limit : Z;
  position : Position.t;
  cooldown_period : Z;
  cash : Q;
  initial_equity : Q;
  equity : Q;
  current_asks : Asks.t;
  snapshot_period : Z;
  tran_cost : Q;
  tp_list : list Q;
  sl_list : list Q;
  strategy_names : list string;
  entry_prices : list Q;
  entry_times : list (option time);
  signals : list Z;
  last_trade_time : Z;
  day_length : Z;
  eod_squared_off : bool;
  current_pointer : Z;
  trade_backlog : Z;
  current_inventory : Z;
  current_day : option Z;
  day_start_equity : Q;
  day_start_fees : Q;
  day_start_trades : Z;
  day_start_trade_idx : nat;
  total_fee : Q;
  trade_book : list TradeRow;
  snap_book : list SnapRow
}.

#[local] Unset Implicit Arguments.


(** Attribute assignment [self.f = v], one function per attribute that
    the methods assign. *)
Section Setters.
Context {S : Type}.

Definition set_strategies (v : list S) (self : t S) : t S :=
  mk v self.(num_strats) self.(config) self.(trade_limit)
    self.(position) self.(cooldown_period) self.(cash)
    self.(initial_equity) self.(equity) self.(current_asks)
    self.(snapshot_period) self.(tran_cost) self.(tp_list)
    self.(sl_list) self.(strategy_names) self.(entry_prices)
    self.(entry_times) self.(signals) self.(last_trade_time)
    self.(day_length) self.(eod_squared_off) self.(current_pointer)
    self.(trade_backlog) self.(current_inventory) self.(current_day)
    self.(day_start_equity) self.(day_start_fees)
    self.(day_start_trades) self.(day_start_trade_idx) self.(total_fee)
    self.(trade_book) self.(snap_book).

Definition set_position (v : Position.t) (self : t S) : t S :=
  mk self.(strategies) self.(num_strats) self.(config)
    self.(trade_limit) v self.(cooldown_period) self.(cash)
    self.(initial_equity) self.(equity) self.(current_asks)
    self.(snapshot_period) self.(tran_cost) self.(tp_list)
    self.(sl_list) self.(strategy_names) self.(entry_prices)
    self.(entry_times) self.(signals) self.(last_trade_time)
    self.(day_length) self.(eod_squared_off) self.(current_pointer)
    self.(trade_backlog) self.(current_inventory) self.(current_day)
    self.(day_start_equity) self.(day_start_fees)
    self.(day_start_trades) self.(day_start_trade_idx) self.(total_fee)
    self.(trade_book) self.(snap_book).

Definition set_cash (v : Q) (self : t S) : t S :=
  mk self.(strategies) self.(num_strats) self.(config)
    self.(trade_limit) self.(position) self.(cooldown_period) v
    self.(initial_equity) self.(equity) self.(current_asks)
    self.(snapshot_period) self.(tran_cost) self.(tp_list)
    self.(sl_list) self.(strategy_names) self.(entry_prices)
    self.(entry_times) self.(signals) self.(last_trade_time)
    self.(day_length) self.(eod_squared_off) self.(current_pointer)
    self.(trade_backlog) self.(current_inventory) self.(current_day)
    self.(day_start_equity) self.(day_start_fees)
    self.(day_start_trades) self.(day_start_trade_idx) self.(total_fee)
    self.(trade_book) self.(snap_book).

Definition set_equity (v : Q) (self : t S) : t S :=
  mk self.(strategies) self.(num_strats) self.(config)
    self.(trade_limit) self.(position) self.(cooldown_period)
    self.(cash) self.(initial_equity) v self.(current_asks)
    self.(snapshot_period) self.(tran_cost) self.(tp_list)
    self.(sl_list) self.(strategy_names) self.(entry_prices)
    self.(entry_times) self.(signals) self.(last_trade_time)
    self.(day_length) self.(eod_squared_off) self.(current_pointer)
    self.(trade_backlog) self.(current_inventory) self.(current_day)
    self.(day_start_equity) self.(day_start_fees)
    self.(day_start_trades) self.(day_start_trade_idx) self.(total_fee)
    self.(trade_book) self.(snap_book).

Definition set_current_asks (v : Asks.t) (self : t S) : t S :=
  mk self.(strategies) self.(num_strats) self.(config)
    self.(trade_limit) self.(position) self.(cooldown_period)
    self.(cash) self.(initial_equity) self.(equity) v
    self.(snapshot_period) self.(tran_cost) self.(tp_list)
    self.(sl_list) self.(strategy_names) self.(entry_prices)
    self.(entry_times) self.(signals) self.(last_trade_time)
    self.(day_length) self.(eod_squared_off) self.(current_pointer)
    self.(trade_backlog) self.(current_inventory) self.(current_day)
    self.(day_start_equity) self.(day_start_fees)
    self.(day_start_trades) self.(day_start_trade_idx) self.(total_fee)
    self.(trade_book) self.(snap_book).

Definition set_entry_prices (v : list Q) (self : t S) : t S :=
  mk self.(strategies) self.(num_strats) self.(config)
    self.(trade_limit) self.(position) self.(cooldown_period)
    self.(cash) self.(initial_equity) self.(equity) self.(current_asks)
    self.(snapshot_period) self.(tran_cost) self.(tp_list)
    self.(sl_list) self.(strategy_names) v self.(entry_times)
    self.(signals) self.(last_trade_time) self.(day_length)
    self.(eod_squared_off) self.(current_pointer) self.(trade_backlog)
    self.(current_inventory) self.(current_day) self.(day_start_equity)
    self.(day_start_fees) self.(day_start_trades)
    self.(day_start_trade_idx) self.(total_fee) self.(trade_book)
    self.(snap_book).

Definition set_entry_times (v : list (option time)) (self : t S) : t S :=
  mk self.(strategies) self.(num_strats) self.(config)
    self.(trade_limit) self.(position) self.(cooldown_period)
    self.(cash) self.(initial_equity) self.(equity) self.(current_asks)
    self.(snapshot_period) self.(tran_cost) self.(tp_list)
    self.(sl_list) self.(strategy_names) self.(entry_prices) v
    self.(signals) self.(last_trade_time) self.(day_length)
    self.(eod_squared_off) self.(current_pointer) self.(trade_backlog)
    self.(current_inventory) self.(current_day) self.(day_start_equity)
    self.(day_start_fees) self.(day_start_trades)
    self.(day_start_trade_idx) self.(total_fee) self.(trade_book)
    self.(snap_book).

Definition set_last_trade_time (v : Z) (self : t S) : t S :=
  mk self.(strategies) self.(num_strats) self.(config)
    self.(trade_limit) self.(position) self.(cooldown_period)
    self.(cash) self.(initial_equity) self.(equity) self.(current_asks)
    self.(snapshot_period) self.(tran_cost) self.(tp_list)
    self.(sl_list) self.(strategy_names) self.(entry_prices)
    self.(entry_times) self.(signals) v self.(day_length)
    self.(eod_squared_off) self.(current_pointer) self.(trade_backlog)
    self.(current_inventory) self.(current_day) self.(day_start_equity)
    self.(day_start_fees) self.(day_start_trades)
    self.(day_start_trade_idx) self.(total_fee) self.(trade_book)
    self.(snap_book).

Definition set_eod_squared_off (v : bool) (self : t S) : t S :=
  mk self.(strategies) self.(num_strats) self.(config)
    self.(trade_limit) self.(position) self.(cooldown_period)
    self.(cash) self.(initial_equity) self.(equity) self.(current_asks)
    self.(snapshot_period) self.(tran_cost) self.(tp_list)
    self.(sl_list) self.(strategy_names) self.(entry_prices)
    self.(entry_times) self.(signals) self.(last_trade_time)
    self.(day_length) v self.(current_pointer) self.(trade_backlog)
    self.(current_inventory) self.(current_day) self.(day_start_equity)
    self.(day_start_fees) self.(day_start_trades)
    self.(day_start_trade_idx) self.(total_fee) self.(trade_book)
    self.(snap_book).

Definition set_current_pointer (v : Z) (self : t S) : t S :=
  mk self.(strategies) self.(num_strats) self.(config)
    self.(trade_limit) self.(position) self.(cooldown_period)
    self.(cash) self.(initial_equity) self.(equity) self.(current_asks)
    self.(snapshot_period) self.(tran_cost) self.(tp_list)
    self.(sl_list) self.(strategy_names) self.(entry_prices)
    self.(entry_times) self.(signals) self.(last_trade_time)
    self.(day_length) self.(eod_squared_off) v self.(trade_backlog)
    self.(current_inventory) self.(current_day) self.(day_start_equity)
    self.(day_start_fees) self.(day_start_trades)
    self.(day_start_trade_idx) self.(total_fee) self.(trade_book)
    self.(snap_book).

Definition set_trade_backlog (v : Z) (self : t S) : t S :=
  mk self.(strategies) self.(num_strats) self.(config)
    self.(trade_limit) self.(position) self.(cooldown_period)
    self.(cash) self.(initial_equity) self.(equity) self.(current_asks)
    self.(snapshot_period) self.(tran_cost) self.(tp_list)
    self.(sl_list) self.(strategy_names) self.(entry_prices)
    self.(entry_times) self.(signals) self.(last_trade_time)
    self.(day_length) self.(eod_squared_off) self.(current_pointer) v
    self.(current_inventory) self.(current_day) self.(day_start_equity)
    self.(day_start_fees) self.(day_start_trades)
    self.(day_start_trade_idx) self.(total_fee) self.(trade_book)
    self.(snap_book).

Definition set_current_inventory (v : Z) (self : t S) : t S :=
  mk self.(strategies) self.(num_strats) self.(config)
    self.(trade_limit) self.(position) self.(cooldown_period)
    self.(cash) self.(initial_equity) self.(equity) self.(current_asks)
    self.(snapshot_period) self.(tran_cost) self.(tp_list)
    self.(sl_list) self.(strategy_names) self.(entry_prices)
    self.(entry_times) self.(signals) self.(last_trade_time)
    self.(day_length) self.(eod_squared_off) self.(current_pointer)
    self.(trade_backlog) v self.(current_day) self.(day_start_equity)
    self.(day_start_fees) self.(day_start_trades)
    self.(day_start_trade_idx) self.(total_fee) self.(trade_book)
    self.(snap_book).

Definition set_current_day (v : option Z) (self : t S) : t S :=
  mk self.(strategies) self.(num_strats) self.(config)
    self.(trade_limit) self.(position) self.(cooldown_period)
    self.(cash) self.(initial_equity) self.(equity) self.(current_asks)
    self.(snapshot_period) self.(tran_cost) self.(tp_list)
    self.(sl_list) self.(strategy_names) self.(entry_prices)
    self.(entry_times) self.(signals) self.(last_trade_time)
    self.(day_length) self.(eod_squared_off) self.(current_pointer)
    self.(trade_backlog) self.(current_inventory) v
    self.(day_start_equity) self.(day_start_fees)
    self.(day_start_trades) self.(day_start_trade_idx) self.(total_fee)
    self.(trade_book) self.(snap_book).

Definition set_day_start_equity (v : Q) (self : t S) : t S :=
  mk self.(strategies) self.(num_strats) self.(config)
    self.(trade_limit) self.(position) self.(cooldown_period)
    self.(cash) self.(initial_equity) self.(equity) self.(current_asks)
    self.(snapshot_period) self.(tran_cost) self.(tp_list)
    self.(sl_list) self.(strategy_names) self.(entry_prices)
    self.(entry_times) self.(signals) self.(last_trade_time)
    self.(day_length) self.(eod_squared_off) self.(current_pointer)
    self.(trade_backlog) self.(current_inventory) self.(current_day) v
    self.(day_start_fees) self.(day_start_trades)
    self.(day_start_trade_idx) self.(total_fee) self.(trade_book)
    self.(snap_book).

Definition set_day_start_fees (v : Q) (self : t S) : t S :=
  mk self.(strategies) self.(num_strats) self.(config)
    self.(trade_limit) self.(position) self.(cooldown_period)
    self.(cash) self.(initial_equity) self.(equity) self.(current_asks)
    self.(snapshot_period) self.(tran_cost) self.(tp_list)
    self.(sl_list) self.(strategy_names) self.(entry_prices)
    self.(entry_times) self.(signals) self.(last_trade_time)
    self.(day_length) self.(eod_squared_off) self.(current_pointer)
    self.(trade_backlog) self.(current_inventory) self.(current_day)
    self.(day_start_equity) v self.(day_start_trades)
    self.(day_start_trade_idx) self.(total_fee) self.(trade_book)
    self.(snap_book).

Definition set_day_start_trade_idx (v : nat) (self : t S) : t S :=
  mk self.(strategies) self.(num_strats) self.(config)
    self.(trade_limit) self.(position) self.(cooldown_period)
    self.(cash) self.(initial_equity) self.(equity) self.(current_asks)
    self.(snapshot_period) self.(tran_cost) self.(tp_list)
    self.(sl_list) self.(strategy_names) self.(entry_prices)
    self.(entry_times) self.(signals) self.(last_trade_time)
    self.(day_length) self.(eod_squared_off) self.(current_pointer)
    self.(trade_backlog) self.(current_inventory) self.(current_day)
    self.(day_start_equity) self.(day_start_fees)
    self.(day_start_trades) v self.(total_fee) self.(trade_book)
    self.(snap_book).

Definition set_total_fee (v : Q) (self : t S) : t S :=
  mk self.(strategies) self.(num_strats) self.(config)
    self.(trade_limit) self.(position) self.(cooldown_period)
    self.(cash) self.(initial_equity) self.(equity) self.(current_asks)
    self.(snapshot_period) self.(tran_cost) self.(tp_list)
    self.(sl_list) self.(strategy_names) self.(entry_prices)
    self.(entry_times) self.(signals) self.(last_trade_time)
    self.(day_length) self.(eod_squared_off) self.(current_pointer)
    self.(trade_backlog) self.(current_inventory) self.(current_day)
    self.(day_start_equity) self.(day_start_fees)
    self.(day_start_trades) self.(day_start_trade_idx) v
    self.(trade_book) self.(snap_book).

Definition set_trade_book (v : list TradeRow) (self : t S) : t S :=
  mk self.(strategies) self.(num_strats) self.(config)
    self.(trade_limit) self.(position) self.(cooldown_period)
    self.(cash) self.(initial_equity) self.(equity) self.(current_asks)
    self.(snapshot_period) self.(tran_cost) self.(tp_list)
    self.(sl_list) self.(strategy_names) self.(entry_prices)
    self.(entry_times) self.(signals) self.(last_trade_time)
    self.(day_length) self.(eod_squared_off) self.(current_pointer)
    self.(trade_backlog) self.(current_inventory) self.(current_day)
    self.(day_start_equity) self.(day_start_fees)
    self.(day_start_trades) self.(day_start_trade_idx) self.(total_fee)
    v self.(snap_book).

Definition set_snap_book (v : list SnapRow) (self : t S) : t S :=
  mk self.(strategies) self.(num_strats) self.(config)
    self.(trade_limit) self.(position) self.(cooldown_period)
    self.(cash) self.(initial_equity) self.(equity) self.(current_asks)
    self.(snapshot_period) self.(tran_cost) self.(tp_list)
    self.(sl_list) self.(strategy_names) self.(entry_prices)
    self.(entry_times) self.(signals) self.(last_trade_time)
    self.(day_length) self.(eod_squared_off) self.(current_pointer)
    self.(trade_backlog) self.(current_inventory) self.(current_day)
    self.(day_start_equity) self.(day_start_fees)
    self.(day_start_trades) self.(day_start_trade_idx) self.(total_fee)
    self.(trade_book) v.

End Setters.

(** What a call of [process_tick] did: the path taken and the local
    values computed on it.  The source returns [None] on every path; the
    outcome is kept for the statements below. *)
Inductive outcome :=
| Released (execute_qty : Z)
| Blocked
| SquaredOff (push : Z)
| Netted (signals : list Z) (trades_to_execute : Z) (aimd : list Z)
         (pnl_list : list Q).

(** The value of [_calc_holding_duration]: the string of its first
    [return], or the [datetime.time] of its second. *)
Inductive duration :=
| Duration_str (s : string)
| Duration_time (t : time).

(** The dictionary returned by [get_day_results]. *)
Record DayResults := mk_day_results {
  day_trade_book : list TradeRow;
  day_pnl : Q;
  day_fees : Q;
  day_trade_count : nat
}.

(** The dictionary returned by [get_results]. *)
Record Results := mk_results {
  res_trade_book : list TradeRow;
  res_snap_book : list SnapRow;
  total_pnl : Q;
  total_fees : Q;
  final_positions : list Z;
  res_asks : Asks.t;
  trade_count : nat
}.

Section Methods.
Context {S : Type} {ops : Strategy.Ops S}.

(** [Orchestrator.__init__] *)
Definition init (strategies : list S) (config : Config) : option (t S) :=
  let num_strats := length strategies in
  engine ← config.(config_engine);
  let inventory_limit := get_int engine.(engine_int) "inventory_limit" 100 in
  let trade_limit := get_int engine.(engine_int) "trade_limit" 100 in
  let position := Position.init num_strats inventory_limit trade_limit in
  let cooldown_period := get_int engine.(engine_int) "cooldown_period" 15 in
  let cash :=
    get_real engine.(engine_int) engine.(engine_real) "initial_equity"
             (inject_Z 100000) in
  aimd ← engine.(engine_aimd);
  let current_asks :=
    Asks.init num_strats
      (get_int aimd.1 "initial_ask" 10)
      (get_int aimd.1 "reward_add" 33)
      (get_number aimd.1 aimd.2 "penalty_mult" (Py.Float (666 # 1000))) in
  let snapshot_period := get_int engine.(engine_int) "snapshot_period" 300 in
  tran_cost ←
    attr_real engine.(engine_int) engine.(engine_real) "transaction_cost";
  strategy_configs ← config.(config_strategies);
  tp_list ← mapM tp strategy_configs;
  sl_list ← mapM sl strategy_configs;
  strategy_names ← mapM name strategy_configs;
  Some {|
    strategies := strategies;
    num_strats := num_strats;
    config := config;
    trade_limit := trade_limit;
    position := position;
    cooldown_period := cooldown_period;
    cash := cash;
    initial_equity := cash;
    equity := cash;
    current_asks := current_asks;
    snapshot_period := snapshot_period;
    tran_cost := tran_cost;
    tp_list := tp_list;
    sl_list := sl_list;
    strategy_names := strategy_names;
    entry_prices := replicate num_strats 0%Q;
    entry_times := replicate num_strats None;
    signals := replicate num_strats 0;
    last_trade_time := - cooldown_period;
    day_length := 6 * 3600;
    eod_squared_off := false;
    current_pointer := 0;
    trade_backlog := 0;
    current_inventory := 0;
    current_day := None;
    day_start_equity := 0%Q;
    day_start_fees := 0%Q;
    day_start_trades := 0;
    day_start_trade_idx := 0%nat;
    total_fee := 0%Q;
    trade_book := [];
    snap_book := []
  |}.

(** [Orchestrator._log_order] *)
Definition _log_order (self : t S) (time : time) (price : Q)
    (quantity : Z) (side : Side) : t S :=
  let transaction_cost :=
    (self.(tran_cost) * price * inject_Z (Z.abs quantity))%Q in
  set_trade_book
    (self.(trade_book) ++
     [ {| tr_Time := time;
          tr_Price := Py.round price 3;
          tr_Quantity := quantity;
          tr_Side := side;
          tr_Inventory := Py.sum self.(position).(Position.pos);
          tr_Transaction_Cost := Py.round transaction_cost 4;
          tr_Day := self.(current_day) |} ]) self.

(** [Orchestrator._portfolio_snapshot]: the row is the part of the
    dictionary [snapshot] that the frame keeps. *)
Definition _portfolio_snapshot (self : t S) (tick_data : Tick) : t S :=
  let self :=
    set_equity
      (self.(cash) + inject_Z self.(current_inventory) * tick_data.(Price))%Q
      self in
  set_snap_book
    (self.(snap_book) ++
     [ {| sn_Time := tick_data.(Time);
          sn_Day := self.(current_day);
          sn_Equity := Py.round self.(equity) 2;
          sn_Cash := Py.round self.(cash) 2;
          sn_Inventory := Py.sum self.(position).(Position.pos) |} ]) self.

(** The quantity released by [execute_trade]. *)
Definition execute_qty (self : t S) : Z :=
  Z.min (Z.abs self.(trade_backlog)) self.(trade_limit)
  * Z.sgn self.(trade_backlog).

(** [Orchestrator.execute_trade] *)
Definition execute_trade (self : t S) (tick_data : Tick) : t S :=
  let execute_qty := execute_qty self in
  let fee :=
    (self.(tran_cost) * tick_data.(Price)
     * inject_Z (Z.abs execute_qty))%Q in
  let self := set_trade_backlog (self.(trade_backlog) - execute_qty) self in
  let self :=
    set_current_inventory (self.(current_inventory) + execute_qty) self in
  let self :=
    set_cash
      (self.(cash) - (inject_Z execute_qty * tick_data.(Price) + fee))%Q
      self in
  let self := set_total_fee (self.(total_fee) + fee)%Q self in
  let self :=
    _log_order self tick_data.(Time) tick_data.(Price) (Z.abs execute_qty)
      (if execute_qty >? 0 then Buy else Sell) in
  set_last_trade_time self.(current_pointer) self.

(** One iteration of the loop of [get_signals]; the checks may change
    the strategy object. *)
Definition get_signals_body (pos : list Z) (i : nat)
    (st : list Z * list S) : option (list Z * list S) :=
  let '(signals, strategies) := st in
  strategy ← strategies !! i;
  p ← pos !! i;
  if p =? 0 then
    '(long, strategy) ← Strategy.check_long_entry strategy;
    if long : bool then
      signals ← Py.store i 1 signals;
      Some (signals, <[i:=strategy]> strategies)
    else
      '(short, strategy) ← Strategy.check_short_entry strategy;
      if short : bool then
        signals ← Py.store i (-1) signals;
        Some (signals, <[i:=strategy]> strategies)
      else Some (signals, <[i:=strategy]> strategies)
  else
    '(long_exit, strategy) ←
      (if p >? 0 then Strategy.check_long_exit strategy
       else Some (false, strategy));
    if long_exit : bool then
      signals ← Py.store i (-1) signals;
      Some (signals, <[i:=strategy]> strategies)
    else
      '(short_exit, strategy) ←
        (if p <? 0 then Strategy.check_short_exit strategy
         else Some (false, strategy));
      if short_exit : bool then
        signals ← Py.store i 1 signals;
        Some (signals, <[i:=strategy]> strategies)
      else
        signals ← Py.store i 0 signals;
        Some (signals, <[i:=strategy]> strategies).

(** [Orchestrator.get_signals]: the signals, and the strategies after
    the checks. *)
Definition get_signals (self : t S) (tick_data : Tick)
  : option (list Z * list S) :=
  Py.for_each (get_signals_body self.(position).(Position.pos))
    (Py.range (length self.(strategies)))
    (replicate self.(num_strats) 0, self.(strategies)).

(** [Orchestrator._calc_pnl]: the PnL and the new [total_fee]. *)
Definition _calc_pnl (self : t S) (entry_price exit_price : Q)
    (position : Z) : Q * t S :=
  let price_pnl :=
    ((exit_price - entry_price) * inject_Z (Z.sgn position))%Q in
  let transaction_cost :=
    (self.(tran_cost) * (entry_price + exit_price))%Q in
  let pnl :=
    ((price_pnl - transaction_cost) * inject_Z (Z.abs position))%Q in
  (pnl,
   set_total_fee
     (self.(total_fee) + transaction_cost * inject_Z (Z.abs position))%Q
     self).

(** One iteration of the loop of [_compute_strategy_pnl]. *)
Definition _compute_strategy_pnl_body (current_price : Q)
    (prev_pos final_pos : list Z) (i : nat) (st : list Q * t S)
  : option (list Q * t S) :=
  let '(pnl_list, self) := st in
  pp ← prev_pos !! i;
  if negb (pp =? 0) then
    fp ← final_pos !! i;
    if fp * pp <=? 0 then
      entry_price ← self.(entry_prices) !! i;
      let '(pnl, self) := _calc_pnl self entry_price current_price pp in
      pnl_list ← Py.store i pnl pnl_list;
      Some (pnl_list, self)
    else Some st
  else Some st.

(** [Orchestrator._compute_strategy_pnl] *)
Definition _compute_strategy_pnl (self : t S) (current_price : Q)
    (prev_pos final_pos : list Z) : option (list Q * t S) :=
  Py.for_each
    (_compute_strategy_pnl_body current_price prev_pos final_pos)
    (Py.range self.(num_strats))
    (replicate self.(num_strats) 0%Q, self).

(** One iteration of the loop of [process_tick] that records entries
    and exits. *)
Definition record_body (tick_data : Tick) (prev_pos curr_pos : list Z)
    (i : nat) (self : t S) : option (t S) :=
  strategy ← self.(strategies) !! i;
  pp ← prev_pos !! i;
  cp ← curr_pos !! i;
  if (pp =? 0) && negb (cp =? 0) then
    strategy ← Strategy.update_position strategy cp tick_data.(Price);
    let self := set_strategies (<[i:=strategy]> self.(strategies)) self in
    entry_prices ← Py.store i tick_data.(Price) self.(entry_prices);
    let self := set_entry_prices entry_prices self in
    entry_times ← Py.store i (Some tick_data.(Time)) self.(entry_times);
    Some (set_entry_times entry_times self)
  else if (cp =? 0) && negb (pp =? 0) then
    strategy ← Strategy.update_position strategy 0 0%Q;
    let self := set_strategies (<[i:=strategy]> self.(strategies)) self in
    entry_prices ← Py.store i 0%Q self.(entry_prices);
    let self := set_entry_prices entry_prices self in
    entry_times ← Py.store i None self.(entry_times);
    Some (set_entry_times entry_times self)
  else Some self.

(** The first lines of [process_tick]: the new-day initialisation. *)
Definition new_day (self : t S) (tick_data : Tick) (day_num : Z) : t S :=
  let self := set_current_day (Some day_num) self in
  let self :=
    set_equity
      (self.(cash) + inject_Z self.(current_inventory) * tick_data.(Price))%Q
      self in
  let self := set_last_trade_time (- self.(cooldown_period)) self in
  let self := set_day_start_equity self.(equity) self in
  let self := set_day_start_fees self.(total_fee) self in
  let self := set_day_start_trade_idx (length self.(trade_book)) self in
  set_eod_squared_off false self.

(** The end-of-day branch of [process_tick]. *)
Definition square_off (self : t S) : option (t S * outcome) :=
  let prev_pos := self.(position).(Position.pos) in
  let self := set_position (Position.reset_position self.(position)) self in
  let self :=
    set_trade_backlog (self.(trade_backlog) + - Py.sum prev_pos) self in
  let self := set_eod_squared_off true self in
  strategies ← mapM Strategy.reset self.(strategies);
  Some (set_strategies strategies self, SquaredOff (- Py.sum prev_pos)).

(** The last part of [process_tick]: signals, netting, entry and exit
    records, PnL and the AIMD update. *)
Definition trade (self : t S) (tick_data : Tick)
  : option (t S * outcome) :=
  '(signals, strats) ← get_signals self tick_data;
  let self := set_strategies strats self in
  let prev_pos := self.(position).(Position.pos) in
  '(ledger, (trades_to_execute, aimd)) ←
    Position.update_position self.(position) signals
      self.(current_asks).(Asks.asks);
  let self := set_position ledger self in
  let self :=
    set_trade_backlog (self.(trade_backlog) + trades_to_execute) self in
  let curr_pos := self.(position).(Position.pos) in
  let current_price := tick_data.(Price) in
  self ← Py.for_each (record_body tick_data prev_pos curr_pos)
           (Py.range (length self.(strategies))) self;
  '(pnl_list, self) ←
    _compute_strategy_pnl self tick_data.(Price) prev_pos curr_pos;
  asks ← Asks.update self.(current_asks) pnl_list aimd;
  Some (set_current_asks asks self,
        Netted signals trades_to_execute aimd pnl_list).

(** The first part of [process_tick]: new-day initialisation, the time
    pointer, the indicator refresh and the periodic snapshot. *)
Definition begin_tick (self : t S) (tick_data : Tick) (day_num : Z)
  : option (t S) :=
  let self :=
    if decide (self.(current_day) ≠ Some day_num)
    then new_day self tick_data day_num else self in
  let self :=
    set_current_pointer (time_to_seconds tick_data.(Time)) self in
  self ←
    (if negb self.(eod_squared_off) then
       strategies ←
         mapM (λ strategy, Strategy.update_indicators strategy tick_data)
              self.(strategies);
       Some (set_strategies strategies self)
     else Some self);
  if self.(snapshot_period) =? 0 then None (* ZeroDivisionError *)
  else if self.(current_pointer) mod self.(snapshot_period) =? 0
  then Some (_portfolio_snapshot self tick_data)
  else Some self.

(** [Orchestrator.process_tick] *)
Definition process_tick (self : t S) (tick_data : Tick) (day_num : Z)
  : option (t S * outcome) :=
  self ← begin_tick self tick_data day_num;
  if negb (self.(trade_backlog) =? 0)
     && (self.(current_pointer) - self.(last_trade_time)
         >? self.(cooldown_period))
  then Some (execute_trade self tick_data, Released (execute_qty self))
  else if self.(eod_squared_off) then Some (self, Blocked)
  else if self.(current_pointer) >=? self.(day_length) then square_off self
  else trade self tick_data.

(** The loop of [main]: the ticks of a run, each with its day number,
    processed in order; the outcomes are collected. *)
Fixpoint run (self : t S) (ticks : list (Z * Tick))
  : option (t S * list outcome) :=
  match ticks with
  | [] => Some (self, [])
  | (day_num, tick_data) :: rest =>
    '(self, o) ← process_tick self tick_data day_num;
    '(self, os) ← run self rest;
    Some (self, o :: os)
  end.

(** [Orchestrator._calc_holding_duration]; [entry_time] may be [None]. *)
Definition _calc_holding_duration (self : t S) (exit_time : time)
    (entry_time : option time) : option duration :=
  match entry_time with
  | None => Some (Duration_str "00:00:00")
  | Some entry_time =>
    let duration_seconds :=
      Z.abs (time_to_seconds exit_time - time_to_seconds entry_time) in
    Duration_time <$> seconds_to_time duration_seconds
  end.

(** [Orchestrator.get_day_results]; the slice [trade_book[idx:]] is
    [drop idx]. *)
Definition get_day_results (self : t S) : DayResults :=
  let day_trades := drop self.(day_start_trade_idx) self.(trade_book) in
  {| day_trade_book := day_trades;
     day_pnl := (self.(equity) - self.(day_start_equity))%Q;
     day_fees := (self.(total_fee) - self.(day_start_fees))%Q;
     day_trade_count := length day_trades |}.

(** [Orchestrator.get_results] *)
Definition get_results (self : t S) : Results :=
  {| res_trade_book := self.(trade_book);
     res_snap_book := self.(snap_book);
     total_pnl := (self.(equity) - self.(initial_equity))%Q;
     total_fees := self.(total_fee);
     final_positions := self.(position).(Position.pos);
     res_asks := self.(current_asks);
     trade_count := length self.(trade_book) |}.

End Methods.

End Orchestrator.

(** * Definitions used by the statements and proofs *)

Import Position.

(** [normalize] as a left-to-right pass: the same branches as the loop
    body, on the list itself. *)
Fixpoint normalize_from (inventory_limit current_limit : Z) (pos : list Z)
  : list Z :=
  match pos with
  | [] => []
  | p :: rest =>
    if current_limit + Z.abs p >? inventory_limit then
      (inventory_limit - current_limit) * (if p >? 0 then 1 else -1)
      :: normalize_from inventory_limit inventory_limit rest
    else p :: normalize_from inventory_limit (current_limit + Z.abs p) rest
  end.

(** A book is one-sided when it holds no long and short slot at once. *)
Definition one_sided (l : list Z) : Prop :=
  Forall (λ p, 0 ≤ p) l ∨ Forall (λ p, p ≤ 0) l.

(** What one iteration decides from the slot's own values: the slot's new
    position, whether its closed flag is raised, and the new direction. *)
Definition slot_rule (direction a p : Z) : Z * bool * Z :=
  if a * p <? 0 then (0, true, direction)
  else if negb (direction =? 0) then
    if (a * direction >? 0) && (p =? 0) then (p + a, false, direction)
    else if p * direction <? 0 then (0, true, direction)
    else (p, false, direction)
  else
    (p + a, false,
     if a >? 0 then 1 else if a <? 0 then -1
     else if p >? 0 then 1 else if p <? 0 then -1 else 0).

(** The invariant of the loop after [k] iterations from [st0]. *)
Record net_inv (st0 : netting) (k : nat) (st : netting) : Prop := {
  inv_len_pos : length st.(n_pos) = length st0.(n_pos);
  inv_len_asks : length st.(n_asks) = length st0.(n_asks);
  inv_len_aimd : length st.(n_aimd) = length st0.(n_aimd);
  inv_bound : (k ≤ length st0.(n_asks))%nat ∧ (k ≤ length st0.(n_pos))%nat;
  inv_rest_pos : ∀ j, (k ≤ j)%nat → st.(n_pos) !! j = st0.(n_pos) !! j;
  inv_rest_asks : ∀ j, (k ≤ j)%nat → st.(n_asks) !! j = st0.(n_asks) !! j;
  inv_dir : -1 ≤ st.(n_direction) ≤ 1;
  inv_side : ∀ j p, (j < k)%nat → st.(n_pos) !! j = Some p →
             0 ≤ p * st.(n_direction) ∧ (st.(n_direction) = 0 → p = 0);
  inv_sign : ∀ j p q, st.(n_pos) !! j = Some p → st0.(n_pos) !! j = Some q →
             0 ≤ p * q;
  inv_flag : ∀ j f, st.(n_aimd) !! j = Some f →
             f = 0 ∨ (f = 1 ∧ (j < k)%nat ∧ st.(n_pos) !! j = Some 0)
}.

(** The state in which the loop of [update_position] starts. *)
Definition net_start (self : Position.t) (asks : list Z) (n : nat) : netting :=
  mk_netting self.(pos) asks (replicate n 0) 0.

(** [normalize] in the words of the specification: a first-come
    allocator.  The list is walked in index order with the remaining
    headroom; an entry that fits is left unchanged and uses up its absolute
    value; the first entry that does not fit is clamped to the remaining
    headroom with its sign ([+] for a zero entry); from then on the
    headroom is zero: nonzero entries are clamped to 0 and zero entries
    stay 0. *)
Definition clamp_rest (positions : list Z) : list Z :=
  (λ v, if decide (v = 0) then v else 0) <$> positions.

Fixpoint first_come (headroom : Z) (positions : list Z) : list Z :=
  match positions with
  | [] => []
  | v :: rest =>
    if decide (Z.abs v ≤ headroom)
    then v :: first_come (headroom - Z.abs v) rest
    else (if decide (v < 0) then -1 else 1) * headroom :: clamp_rest rest
  end.

(** What [Asks.update] decides for one slot from its ask, its PnL and its
    closed flag. *)
Definition aimd_rule (self : Asks.t) (a : Z) (pnl : Q) (flag : Z) : Z :=
  if Py.nonzero pnl && (flag =? 1) then
    if Py.positive pnl then a + self.(Asks.reward_add)
    else Z.max 1 (Py.int_mul a self.(Asks.penalty_mult))
  else a.

(** The attributes of the orchestrator on which admission control and
    the end-of-day rule depend. *)
Record core := mk_core {
  c_backlog : Z;
  c_position : Position.t;
  c_asks : Asks.t;
  c_book : list Orchestrator.TradeRow;
  c_cooldown : Z;
  c_trade_limit : Z;
  c_day_length : Z;
  c_num_strats : nat;
  c_tran_cost : Q;
  c_inventory : Z;
  c_last : Z;
  c_eod : bool;
  c_day : option Z;
  c_pointer : Z;
  c_snapshot_period : Z
}.

Definition core_of {S} (self : Orchestrator.t S) : core := {|
  c_backlog := self.(Orchestrator.trade_backlog);
  c_position := self.(Orchestrator.position);
  c_asks := self.(Orchestrator.current_asks);
  c_book := self.(Orchestrator.trade_book);
  c_cooldown := self.(Orchestrator.cooldown_period);
  c_trade_limit := self.(Orchestrator.trade_limit);
  c_day_length := self.(Orchestrator.day_length);
  c_num_strats := self.(Orchestrator.num_strats);
  c_tran_cost := self.(Orchestrator.tran_cost);
  c_inventory := self.(Orchestrator.current_inventory);
  c_last := self.(Orchestrator.last_trade_time);
  c_eod := self.(Orchestrator.eod_squared_off);
  c_day := self.(Orchestrator.current_day);
  c_pointer := self.(Orchestrator.current_pointer);
  c_snapshot_period := self.(Orchestrator.snapshot_period)
|}.

(** The test of [process_tick] that lets a backlog release fire. *)
Definition release_due {S} (self : Orchestrator.t S) : bool :=
  negb (self.(Orchestrator.trade_backlog) =? 0)
  && (self.(Orchestrator.current_pointer)
      - self.(Orchestrator.last_trade_time)
      >? self.(Orchestrator.cooldown_period)).

(** The backlog movements of an outcome: what the tick added to the
    backlog (a net trade delta or an end-of-day push) and what it
    released. *)
Definition net_delta (o : Orchestrator.outcome) : Z :=
  match o with
  | Orchestrator.Netted _ trades_to_execute _ _ => trades_to_execute
  | Orchestrator.SquaredOff push => push
  | _ => 0
  end.

Definition released (o : Orchestrator.outcome) : Z :=
  match o with
  | Orchestrator.Released execute_qty => execute_qty
  | _ => 0
  end.

(** The row that [execute_trade] appends to [trade_book]. *)
Definition release_row {S} (self : Orchestrator.t S) (tick_data : Tick)
  : Orchestrator.TradeRow :=
  let q := Orchestrator.execute_qty self in
  {| Orchestrator.tr_Time := tick_data.(Time);
     Orchestrator.tr_Price := Py.round tick_data.(Price) 3;
     Orchestrator.tr_Quantity := Z.abs q;
     Orchestrator.tr_Side :=
       if q >? 0 then Orchestrator.Buy else Orchestrator.Sell;
     Orchestrator.tr_Inventory :=
       Py.sum self.(Orchestrator.position).(Position.pos);
     Orchestrator.tr_Transaction_Cost :=
       Py.round (self.(Orchestrator.tran_cost) * tick_data.(Price)
                 * inject_Z (Z.abs (Z.abs q)))%Q 4;
     Orchestrator.tr_Day := self.(Orchestrator.current_day) |}.

(** The per-tick state machine on the core attributes.  [begun] is the
    core after the first part of [process_tick]; the three functions after
    it are the effects of a release, of the end-of-day square-off and of a
    netting pass. *)
Definition begun (c : core) (day_num : Z) (tick_data : Tick) : core :=
  mk_core c.(c_backlog) c.(c_position) c.(c_asks) c.(c_book)
    c.(c_cooldown) c.(c_trade_limit) c.(c_day_length) c.(c_num_strats)
    c.(c_tran_cost) c.(c_inventory)
    (if decide (c.(c_day) ≠ Some day_num)
     then - c.(c_cooldown) else c.(c_last))
    (if decide (c.(c_day) ≠ Some day_num) then false else c.(c_eod))
    (Some day_num) (time_to_seconds tick_data.(Time))
    c.(c_snapshot_period).

Definition core_due (c : core) : bool :=
  negb (c.(c_backlog) =? 0) && (c.(c_pointer) - c.(c_last) >? c.(c_cooldown)).

Definition core_qty (c : core) : Z :=
  Z.min (Z.abs c.(c_backlog)) c.(c_trade_limit) * Z.sgn c.(c_backlog).

Definition core_release (c : core) (row : Orchestrator.TradeRow) : core :=
  mk_core (c.(c_backlog) - core_qty c) c.(c_position) c.(c_asks)
    (c.(c_book) ++ [row])
    c.(c_cooldown) c.(c_trade_limit) c.(c_day_length) c.(c_num_strats)
    c.(c_tran_cost) (c.(c_inventory) + core_qty c)
    c.(c_pointer) c.(c_eod) c.(c_day) c.(c_pointer) c.(c_snapshot_period).

Definition core_square_off (c : core) : core :=
  mk_core (c.(c_backlog) + - Py.sum c.(c_position).(Position.pos))
    (Position.reset_position c.(c_position)) c.(c_asks) c.(c_book)
    c.(c_cooldown) c.(c_trade_limit) c.(c_day_length) c.(c_num_strats)
    c.(c_tran_cost) c.(c_inventory)
    c.(c_last) true c.(c_day) c.(c_pointer) c.(c_snapshot_period).

Definition core_net (c : core) (ledger : Position.t) (d : Z)
    (asks' : Asks.t) : core :=
  mk_core (c.(c_backlog) + d) ledger asks' c.(c_book)
    c.(c_cooldown) c.(c_trade_limit) c.(c_day_length) c.(c_num_strats)
    c.(c_tran_cost) c.(c_inventory)
    c.(c_last) c.(c_eod) c.(c_day) c.(c_pointer) c.(c_snapshot_period).

Inductive core_step (c : core) (day_num : Z) (tick_data : Tick)
  : Orchestrator.outcome → core → Prop :=
| step_release b row :
    b = begun c day_num tick_data →
    core_due b = true →
    row.(Orchestrator.tr_Time) = tick_data.(Time) →
    core_step c day_num tick_data
      (Orchestrator.Released (core_qty b)) (core_release b row)
| step_blocked b :
    b = begun c day_num tick_data →
    core_due b = false → b.(c_eod) = true →
    core_step c day_num tick_data Orchestrator.Blocked b
| step_square_off b :
    b = begun c day_num tick_data →
    core_due b = false → b.(c_eod) = false →
    b.(c_day_length) ≤ b.(c_pointer) →
    core_step c day_num tick_data
      (Orchestrator.SquaredOff (- Py.sum b.(c_position).(Position.pos)))
      (core_square_off b)
| step_net b signals ledger d aimd pnl_list asks' :
    b = begun c day_num tick_data →
    core_due b = false → b.(c_eod) = false →
    b.(c_pointer) < b.(c_day_length) →
    Position.update_position b.(c_position) signals
      b.(c_asks).(Asks.asks) = Some (ledger, (d, aimd)) →
    Asks.update b.(c_asks) pnl_list aimd = Some asks' →
    core_step c day_num tick_data
      (Orchestrator.Netted signals d aimd pnl_list)
      (core_net b ledger d asks').

(** Runs of the state machine: one step per tick of the list. *)
Inductive core_run : core → list (Z * Tick) → list Orchestrator.outcome
    → core → Prop :=
| run_nil c : core_run c [] [] c
| run_cons c day_num tick_data o c1 ticks os c2 :
    core_step c day_num tick_data o c1 →
    core_run c1 ticks os c2 →
    core_run c ((day_num, tick_data) :: ticks) (o :: os) c2.

(** The entry of [config.strategies] for a [Strategy_A] with take-profit
    1 and stop-loss 1. *)
Definition strategy_A_config : Orchestrator.StrategyConfig :=
  Orchestrator.mk_strategy_config (Some "Strategy_A") (Some 1%Q) (Some 1%Q).

(** A run used to exercise the statements: one [Strategy_A] with the
    default options except [trade_limit = 5]; it enters long at 02:00:00
    on day 1, and the backlog of 10 is released in two slices, at 23:59:59
    on day 1 and at 00:00:01 on day 2. *)
Definition demo_config : Orchestrator.Config :=
  Orchestrator.mk_config
    (Some (Orchestrator.mk_engine_config
             {[ "trade_limit" := 5 ]}
             {[ "transaction_cost" := (1 # 1000)%Q ]} (Some (∅, ∅))))
    (Some [strategy_A_config]).

Definition demo_engine : option (Orchestrator.t Strategy.t) :=
  Orchestrator.init [Strategy.init 1 1] demo_config.

Definition demo_ticks : list (Z * Tick) :=
    [ (1, mk_tick (mk_time 2 0 0) 100); (1, mk_tick (mk_time 23 59 59) 100);
    (2, mk_tick (mk_time 0 0 1) 100) ].

Definition demo_run
  : option (Orchestrator.t Strategy.t * list Orchestrator.outcome) :=
  engine ← demo_engine;
  Orchestrator.run (ops := Strategy.Strategy_A) engine demo_ticks.

(** The timestamps (seconds since midnight) of trade-book rows. *)
Definition release_times (rows : list Orchestrator.TradeRow) : list Z :=
  (λ row, time_to_seconds row.(Orchestrator.tr_Time)) <$> rows.

(** Any two timestamps of the list, in order, are at least [cooldown + 1]
    apart. *)
Definition separated (cooldown : Z) (ts : list Z) : Prop :=
  ∀ i j t1 t2, (i < j)%nat → ts !! i = Some t1 → ts !! j = Some t2 →
    cooldown + 1 ≤ t2 - t1.

(** The ticks of one day: all carry the day number [day_num], and their
    times are nondecreasing, starting at or after [lo]. *)
Fixpoint day_ticks (day_num lo : Z) (ticks : list (Z * Tick)) : Prop :=
  match ticks with
  | [] => True
  | (d, tick_data) :: rest =>
    d = day_num ∧ lo ≤ time_to_seconds tick_data.(Time) ∧
    day_ticks day_num (time_to_seconds tick_data.(Time)) rest
  end.

(** Release times that respect the cooldown one after the other, starting
    from the last release [last], and that are nondecreasing from [lo]. *)
Fixpoint chain (cooldown last lo : Z) (ts : list Z) : Prop :=
  match ts with
  | [] => True
  | t :: rest => cooldown + 1 ≤ t - last ∧ lo ≤ t ∧ chain cooldown t t rest
  end.

(** The number of releases among the outcomes of a run. *)
Definition is_release (o : Orchestrator.outcome) : bool :=
  match o with Orchestrator.Released _ => true | _ => false end.

Definition releases (os : list Orchestrator.outcome) : nat :=
  length (List.filter is_release os).

(** The ticks of one day with two releases, at 02:00:01 and 02:00:17. *)
Definition demo_day_ticks : list (Z * Tick) :=
  [ (1, mk_tick (mk_time 2 0 0) 100); (1, mk_tick (mk_time 2 0 1) 100);
    (1, mk_tick (mk_time 2 0 10) 100); (1, mk_tick (mk_time 2 0 17) 100) ].

(** A configuration with non-positive limits and cooldown. *)
Definition nonpositive_config : Orchestrator.Config :=
  Orchestrator.mk_config
    (Some (Orchestrator.mk_engine_config
             {[ "inventory_limit" := -5; "trade_limit" := 0;
                "cooldown_period" := -1 ]}
             {[ "transaction_cost" := (1 # 1000)%Q ]} (Some (∅, ∅))))
    (Some [strategy_A_config]).


(** The PnL computed by [_calc_pnl]. *)
Definition calc_pnl_value (tran_cost entry_price exit_price : Q)
    (position : Z) : Q :=
  (((exit_price - entry_price) * inject_Z (Z.sgn position)
    - tran_cost * (entry_price + exit_price))
   * inject_Z (Z.abs position))%Q.

(** An engine with two strategies and [inventory_limit = 10] in which
    only the second slot holds a position, of 10. *)
Definition starvation_config : Orchestrator.Config :=
  Orchestrator.mk_config
    (Some (Orchestrator.mk_engine_config
             {[ "inventory_limit" := 10 ]}
             {[ "transaction_cost" := (1 # 1000)%Q ]} (Some (∅, ∅))))
    (Some [strategy_A_config; strategy_A_config]).

Definition starvation_engine : option (Orchestrator.t Strategy.t) :=
  engine ← Orchestrator.init [Strategy.init 1 1; Strategy.init 1 1]
             starvation_config;
  Some (Orchestrator.set_position (Position.mk 2 10 100 [0; 10]) engine).

(** Strategies whose seven operations always return. *)
Record ops_total {S} (ops : Strategy.Ops S) : Prop := {
  total_reset : ∀ s, is_Some (Strategy.reset s);
  total_update_indicators :
    ∀ s tick_data, is_Some (Strategy.update_indicators s tick_data);
  total_update_position :
    ∀ s position entry_price,
      is_Some (Strategy.update_position s position entry_price);
  total_check_long_entry : ∀ s, is_Some (Strategy.check_long_entry s);
  total_check_short_entry : ∀ s, is_Some (Strategy.check_short_entry s);
  total_check_long_exit : ∀ s, is_Some (Strategy.check_long_exit s);
  total_check_short_exit : ∀ s, is_Some (Strategy.check_short_exit s)
}.

(** Strategies whose operations return once their indicators have been
    refreshed: [ready] holds after every [update_indicators], the other
    operations keep it, and on a ready object every operation returns.
    (The checks of [Strategy_A], [Strategy_B] and [Strategy_C] read
    [current_tick], which is empty until [update_indicators] has run.) *)
Record ops_ready {S} (ops : Strategy.Ops S) (ready : S → Prop) : Prop := {
  ready_update_indicators :
    ∀ s tick_data,
      ∃ s', Strategy.update_indicators s tick_data = Some s' ∧ ready s';
  ready_reset : ∀ s, ready s → ∃ s', Strategy.reset s = Some s' ∧ ready s';
  ready_update_position :
    ∀ s position entry_price, ready s →
      ∃ s', Strategy.update_position s position entry_price = Some s' ∧
            ready s';
  ready_check_long_entry :
    ∀ s, ready s →
      ∃ b s', Strategy.check_long_entry s = Some (b, s') ∧ ready s';
  ready_check_short_entry :
    ∀ s, ready s →
      ∃ b s', Strategy.check_short_entry s = Some (b, s') ∧ ready s';
  ready_check_long_exit :
    ∀ s, ready s →
      ∃ b s', Strategy.check_long_exit s = Some (b, s') ∧ ready s';
  ready_check_short_exit :
    ∀ s, ready s →
      ∃ b s', Strategy.check_short_exit s = Some (b, s') ∧ ready s'
}.

(** A strategy object of the base attributes has seen a tick. *)
Definition has_tick (s : Strategy.t) : Prop :=
  is_Some s.(Strategy.current_tick).

(** A configuration has every section and attribute that the constructor
    reads without a default. *)
Definition config_complete (config : Orchestrator.Config) : Prop :=
  ∃ engine aimd strategy_configs,
    config.(Orchestrator.config_engine) = Some engine ∧
    engine.(Orchestrator.engine_aimd) = Some aimd ∧
    is_Some (Orchestrator.attr_real engine.(Orchestrator.engine_int)
               engine.(Orchestrator.engine_real) "transaction_cost") ∧
    config.(Orchestrator.config_strategies) = Some strategy_configs ∧
    Forall (λ c, is_Some c.(Orchestrator.name) ∧ is_Some c.(Orchestrator.tp)
                 ∧ is_Some c.(Orchestrator.sl)) strategy_configs.

(** The configuration [config], whose engine section is [engine], with
    the three options that the specification wants validated set to the
    given values. *)
Definition with_limits (config : Orchestrator.Config)
    (engine : Orchestrator.EngineConfig)
    (inventory_limit trade_limit cooldown_period : Z)
  : Orchestrator.Config :=
  Orchestrator.mk_config
    (Some (Orchestrator.mk_engine_config
             (<["inventory_limit" := inventory_limit]>
                (<["trade_limit" := trade_limit]>
                   (<["cooldown_period" := cooldown_period]>
                      engine.(Orchestrator.engine_int))))
             engine.(Orchestrator.engine_real)
             engine.(Orchestrator.engine_aimd)))
    config.(Orchestrator.config_strategies).

(** An engine as the constructor builds it: one strategy object, one
    position, one ask, one entry price and one entry time per slot, and a
    snapshot period that is not zero. *)
Record well_formed {S} (self : Orchestrator.t S) : Prop := {
  wf_strategies :
    length self.(Orchestrator.strategies) = self.(Orchestrator.num_strats);
  wf_ledger :
    self.(Orchestrator.position).(Position.num_strats)
    = self.(Orchestrator.num_strats);
  wf_pos :
    length self.(Orchestrator.position).(Position.pos)
    = self.(Orchestrator.num_strats);
  wf_asks :
    length self.(Orchestrator.current_asks).(Asks.asks)
    = self.(Orchestrator.num_strats);
  wf_entry_prices :
    length self.(Orchestrator.entry_prices) = self.(Orchestrator.num_strats);
  wf_entry_times :
    length self.(Orchestrator.entry_times) = self.(Orchestrator.num_strats);
  wf_snapshot_period : self.(Orchestrator.snapshot_period) ≠ 0
}.

(** ** Definitions for the further properties *)

(** A [datetime.time] value holds a time of day. *)
Definition valid_time (t : time) : Prop :=
  0 ≤ t.(hour) ≤ 23 ∧ 0 ≤ t.(minute) ≤ 59 ∧ 0 ≤ t.(second) ≤ 59.

(** A file system with one malformed file, and the same after the file
    has been repaired. *)
Definition broken_fs (file_path : string) : Utils.file Z :=
  if decide (file_path = "config.yaml") then Utils.Malformed
  else Utils.Missing.

Definition repaired_fs (file_path : string) : Utils.file Z :=
  if decide (file_path = "config.yaml") then Utils.Content 7
  else Utils.Missing.

(** A penalty multiplier that does not enlarge: an integer 0 or 1, or a
    float between 0 and 1. *)
Definition shrinking (y : Py.number) : Prop :=
  match y with
  | Py.Int k => 0 ≤ k ≤ 1
  | Py.Float y => (0 <= y)%Q ∧ (y <= 1)%Q
  end.

(** The loop of [update_position] as a left-to-right pass over the signed
    asks and the positions: for every slot its new position and whether
    its closed flag is raised, by [slot_rule], the direction being handed
    on from slot to slot. *)
Fixpoint net_from (direction : Z) (asks pos : list Z) : list (Z * bool) :=
  match asks, pos with
  | a :: asks, p :: pos =>
    let r := slot_rule direction a p in
    (r.1.1, r.1.2) :: net_from r.2 asks pos
  | _, _ => []
  end.

Definition flag_of (b : bool) : Z := if b then 1 else 0.

(** The row that [_portfolio_snapshot] appends to [snap_book] in a tick
    of day [day_num], from the attributes the engine had before the
    tick. *)
Definition snapshot_row {S} (self : Orchestrator.t S) (tick_data : Tick)
    (day_num : Z) : Orchestrator.SnapRow :=
  {| Orchestrator.sn_Time := tick_data.(Time);
     Orchestrator.sn_Day := Some day_num;
     Orchestrator.sn_Equity :=
       Py.round (self.(Orchestrator.cash)
                 + inject_Z self.(Orchestrator.current_inventory)
                   * tick_data.(Price))%Q 2;
     Orchestrator.sn_Cash := Py.round self.(Orchestrator.cash) 2;
     Orchestrator.sn_Inventory :=
       Py.sum self.(Orchestrator.position).(Position.pos) |}.

(** What a row of [snap_book] shows of the tick and of the ledger; its
    Equity and Cash, floats rounded to two digits, are left out. *)
Definition row_of_snapshot {S} (row : Orchestrator.SnapRow)
    (self : Orchestrator.t S) (tick_data : Tick) (day_num : Z) : Prop :=
  row.(Orchestrator.sn_Time) = tick_data.(Time) ∧
  row.(Orchestrator.sn_Day) = Some day_num ∧
  row.(Orchestrator.sn_Inventory)
  = Py.sum self.(Orchestrator.position).(Position.pos).

(** Attributes that only the first part of [process_tick] and
    [execute_trade] assign. *)
Definition books_of {S} (self : Orchestrator.t S)
  : nat * list Orchestrator.SnapRow * Q * Q * Q * Q :=
  (self.(Orchestrator.day_start_trade_idx), self.(Orchestrator.snap_book),
   self.(Orchestrator.cash), self.(Orchestrator.equity),
   self.(Orchestrator.day_start_equity), self.(Orchestrator.day_start_fees)).

(** The row that a release of [q] units appends to [trade_book] in a
    tick of day [day_num], from the attributes the engine had before the
    tick. *)
Definition fill_row {S} (self : Orchestrator.t S) (tick_data : Tick)
    (day_num q : Z) : Orchestrator.TradeRow :=
  {| Orchestrator.tr_Time := tick_data.(Time);
     Orchestrator.tr_Price := Py.round tick_data.(Price) 3;
     Orchestrator.tr_Quantity := Z.abs q;
     Orchestrator.tr_Side :=
       if q >? 0 then Orchestrator.Buy else Orchestrator.Sell;
     Orchestrator.tr_Inventory :=
       Py.sum self.(Orchestrator.position).(Position.pos);
     Orchestrator.tr_Transaction_Cost :=
       Py.round (self.(Orchestrator.tran_cost) * tick_data.(Price)
                 * inject_Z (Z.abs (Z.abs q)))%Q 4;
     Orchestrator.tr_Day := Some day_num |}.

(** The releases of a run, in order: the day number and the time of the
    tick, and the quantity released. *)
Fixpoint fills (ticks : list (Z * Tick)) (outs : list Orchestrator.outcome)
  : list (Z * time * Z) :=
  match ticks, outs with
  | (day_num, tick_data) :: ticks, o :: outs =>
    match o with
    | Orchestrator.Released q =>
      (day_num, tick_data.(Time), q) :: fills ticks outs
    | _ => fills ticks outs
    end
  | _, _ => []
  end.

(** What a row of [trade_book] shows of a release. *)
Definition row_of_fill (row : Orchestrator.TradeRow) (f : Z * time * Z)
  : Prop :=
  row.(Orchestrator.tr_Day) = Some f.1.1 ∧
  row.(Orchestrator.tr_Time) = f.1.2 ∧
  row.(Orchestrator.tr_Quantity) = Z.abs f.2 ∧
  row.(Orchestrator.tr_Side)
  = (if f.2 >? 0 then Orchestrator.Buy else Orchestrator.Sell).

(** A configuration with [trade_limit = 0]. *)
Definition zero_limit_config : Orchestrator.Config :=
  Orchestrator.mk_config
    (Some (Orchestrator.mk_engine_config
             {[ "trade_limit" := 0 ]}
             {[ "transaction_cost" := (1 # 1000)%Q ]} (Some (∅, ∅))))
    (Some [strategy_A_config]).

(** An engine with one [Strategy_A] (take-profit 1, stop-loss 1) that is
    long 10 units entered at the price 50. *)
Definition stop_loss_engine : option (Orchestrator.t Strategy.t) :=
  engine ← Orchestrator.init [Strategy.mk 1 1 50 None] demo_config;
  Some (Orchestrator.set_entry_prices [50%Q]
          (Orchestrator.set_position (Position.mk 1 100 100 [10]) engine)).

(** An engine with one [Strategy_B] (take-profit 1, stop-loss 1) that is
    short 10 units entered at the price 50. *)
Definition short_engine : option (Orchestrator.t Strategy.t) :=
  engine ← Orchestrator.init [Strategy.mk 1 1 50 None] demo_config;
  Some (Orchestrator.set_entry_prices [50%Q]
          (Orchestrator.set_position (Position.mk 1 100 100 [-10]) engine)).

(** What [get_signals] decides for one slot from its position and its
    strategy object: the signal, and the object after the checks. *)
Definition slot_signal {S} {ops : Strategy.Ops S} (p : Z) (strategy : S)
  : option (Z * S) :=
  if p =? 0 then
    '(long, strategy) ← Strategy.check_long_entry strategy;
    if long : bool then Some (1, strategy)
    else
      '(short, strategy) ← Strategy.check_short_entry strategy;
      if short : bool then Some (-1, strategy) else Some (0, strategy)
  else
    '(long_exit, strategy) ←
      (if p >? 0 then Strategy.check_long_exit strategy
       else Some (false, strategy));
    if long_exit : bool then Some (-1, strategy)
    else
      '(short_exit, strategy) ←
        (if p <? 0 then Strategy.check_short_exit strategy
         else Some (false, strategy));
      if short_exit : bool then Some (1, strategy) else Some (0, strategy).

(** A configuration with [snapshot_period = 0]. *)
Definition zero_period_config : Orchestrator.Config :=
  Orchestrator.mk_config
    (Some (Orchestrator.mk_engine_config
             {[ "snapshot_period" := 0 ]}
             {[ "transaction_cost" := (1 # 1000)%Q ]} (Some (∅, ∅))))
    (Some [strategy_A_config]).

(** What the entry-and-exit loop of [process_tick] leaves in a slot's
    entry record when the slot's position goes from [p] to [p']: the new
    value on an entry, the cleared value on an exit, and the old content
    otherwise. *)
Definition entry_move {A} (p p' : Z) (entered cleared : A) (old : option A)
  : option A :=
  if (p =? 0) && negb (p' =? 0) then Some entered
  else if (p' =? 0) && negb (p =? 0) then Some cleared
  else old.

(** * Properties *)

(** The two examples of the specification. *)
Example normalize_spec_example :
  Position.normalize (Position.init 2 100 100) [80; 90] = Some [80; 20].
Proof. reflexivity. Qed.

Example update_position_spec_example :
  Position.update_position (Position.init 2 100 100) [1; 1] [80; 90]
  = Some (Position.mk 2 100 100 [80; 20], (100, [0; 0])).
Proof. reflexivity. Qed.

(** ** Loops *)

Lemma for_each_app {A B} (body : A → B → option B) xs ys st :
  Py.for_each body (xs ++ ys) st
  = st' ← Py.for_each body xs st; Py.for_each body ys st'.
Proof.
  revert st. induction xs as [|x xs IH]; intros st; simpl; [done|].
  destruct (body x st) as [st'|]; simpl; [apply IH | done].
Qed.

Lemma range_S n : Py.range (S n) = Py.range n ++ [n].
Proof. unfold Py.range. by rewrite seq_S. Qed.

Lemma store_Some {A} i (v : A) l l' :
  Py.store i v l = Some l' ↔ (i < length l)%nat ∧ l' = <[i:=v]> l.
Proof.
  unfold Py.store. case_decide; split; try done.
  - intros [= <-]. done.
  - intros [_ ->]. done.
  - intros [? _]. lia.
Qed.

Lemma store_middle {A} (pre : list A) x v l :
  Py.store (length pre) v (pre ++ x :: l) = Some (pre ++ v :: l).
Proof.
  apply store_Some. split.
  - rewrite length_app. simpl. lia.
  - by rewrite insert_app_r_alt, Nat.sub_diag.
Qed.

(** Case analysis on the integer comparisons of the sources. *)
Ltac zcase :=
  rewrite ?Z.gtb_ltb;
  match goal with
  | |- context [?x <? ?y] => destruct (Z.ltb_spec x y)
  | |- context [?x <=? ?y] => destruct (Z.leb_spec x y)
  | |- context [?x =? ?y] => destruct (Z.eqb_spec x y)
  end; try lia.

(** ** The ledger: [normalize] *)

Lemma normalize_loop_from L pre l cur :
  fst <$> Py.for_each (Position.normalize_body L)
            (seq (length pre) (length l)) (pre ++ l, cur)
  = Some (pre ++ normalize_from L cur l).
Proof.
  revert pre cur. induction l as [|p l IH]; intros pre cur; simpl.
  - by rewrite !app_nil_r.
  - rewrite list_lookup_middle by done. simpl.
    rewrite !Z.gtb_ltb. destruct (Z.ltb_spec L (cur + Z.abs p)).
    + rewrite store_middle. simpl.
      specialize (IH (pre ++ [(L - cur) * (if 0 <? p then 1 else -1)]) L).
      rewrite length_app, Nat.add_1_r, <- !app_assoc in IH. apply IH.
    + zcase.
      specialize (IH (pre ++ [p]) (cur + Z.abs p)).
      rewrite length_app, Nat.add_1_r, <- !app_assoc in IH. apply IH.
Qed.

Lemma normalize_eq self pos :
  Position.normalize self pos
  = Some (normalize_from self.(Position.inventory_limit) 0 pos).
Proof. apply (normalize_loop_from _ [] pos 0). Qed.

Lemma normalize_from_full L l :
  normalize_from L L l = (λ w, if decide (w = 0) then w else 0) <$> l.
Proof.
  induction l as [|p l IH]; simpl; [done|].
  case_decide as Hp.
  - subst p. simpl. zcase. by rewrite Z.add_0_r, IH.
  - zcase. by rewrite Z.sub_diag, Z.mul_0_l, IH.
Qed.

Lemma normalize_from_cap L cur l :
  0 ≤ cur ≤ L → Py.sum (Z.abs <$> normalize_from L cur l) ≤ L - cur.
Proof.
  revert cur. induction l as [|p l IH]; intros cur Hcur; [simpl; lia|].
  cbn [normalize_from]. zcase; rewrite fmap_cons; cbn [Py.sum foldr].
  - specialize (IH L ltac:(lia)). unfold Py.sum in IH. zcase.
  - specialize (IH (cur + Z.abs p) ltac:(lia)). unfold Py.sum in IH. lia.
Qed.

Lemma normalize_from_length L cur l :
  length (normalize_from L cur l) = length l.
Proof.
  revert cur. induction l as [|p l IH]; intros cur; simpl; [done|].
  destruct (cur + Z.abs p >? L); simpl; by rewrite IH.
Qed.

(** With a non-negative limit every entry keeps its sign or becomes zero. *)
Lemma normalize_from_sign L cur l :
  0 ≤ cur ≤ L →
  Forall2 (λ q p, 0 ≤ q * p ∧ Z.abs q ≤ Z.abs p) (normalize_from L cur l) l.
Proof.
  revert cur. induction l as [|p l IH]; intros cur Hcur; simpl; [constructor|].
  zcase; constructor.
  - zcase; nia.
  - apply IH. lia.
  - lia.
  - apply IH. lia.
Qed.

Lemma one_sided_pairwise l i j p q :
  one_sided l → l !! i = Some p → l !! j = Some q → 0 ≤ p * q.
Proof.
  intros [H|H] Hi Hj;
    pose proof (proj1 (Forall_lookup _ _) H _ _ Hi);
    pose proof (proj1 (Forall_lookup _ _) H _ _ Hj); simpl in *; nia.
Qed.

Lemma zeros_one_sided (l : list Z) :
  one_sided ((λ w, if decide (w = 0) then w else 0) <$> l).
Proof.
  left. apply Forall_fmap, Forall_forall. intros w _. simpl.
  case_decide; lia.
Qed.

Lemma normalize_from_one_sided L l :
  one_sided l → one_sided (normalize_from L 0 l).
Proof.
  intros Hl. destruct (decide (0 ≤ L)) as [HL|HL].
  - assert (Hs := normalize_from_sign L 0 l ltac:(lia)).
    destruct Hl as [Hl|Hl]; [left|right];
      (eapply Forall2_Forall_l; [exact Hs|]);
      (eapply Forall_impl; [exact Hl|]); simpl; intros p Hp q [Hq1 Hq2]; nia.
  - destruct l as [|p l]; simpl; [by left|].
    zcase. rewrite normalize_from_full.
    destruct (zeros_one_sided l) as [Hz|Hz].
    + assert (Hz' : Forall (λ p, p ≤ 0)
                ((λ w, if decide (w = 0) then w else 0) <$> l)).
      { apply Forall_fmap, Forall_forall. intros w _. simpl. case_decide; lia. }
      zcase; [right | left]; constructor; try done; lia.
    + zcase; [right | left]; constructor; try done; try lia.
      apply Forall_fmap, Forall_forall. intros w _. simpl. case_decide; lia.
Qed.

(** ** The ledger: the netting loop of [update_position] *)

Lemma update_body_slot i st st' :
  update_body i st = Some st' →
  ∃ a p, st.(n_asks) !! i = Some a ∧ st.(n_pos) !! i = Some p ∧
    st'.(n_pos) = <[i:=(slot_rule st.(n_direction) a p).1.1]> st.(n_pos) ∧
    st'.(n_aimd) = (if (slot_rule st.(n_direction) a p).1.2
                    then <[i:=1]> st.(n_aimd) else st.(n_aimd)) ∧
    ((slot_rule st.(n_direction) a p).1.2 = true → (i < length st.(n_aimd))%nat) ∧
    st'.(n_direction) = (slot_rule st.(n_direction) a p).2 ∧
    ∃ a', st'.(n_asks) = <[i:=a']> st.(n_asks).
Proof.
  destruct st as [pos asks aimd d]. unfold update_body, slot_rule.
  intros H. destruct (asks !! i) as [a|] eqn:Ha; [|done].
  destruct (pos !! i) as [p|] eqn:Hp; [|done].
  exists a, p. split; [done|]. split; [done|]. simpl in *.
  assert (Hid : pos = <[i:=p]> pos) by (by rewrite list_insert_id).
  assert (Hida : asks = <[i:=a]> asks) by (by rewrite list_insert_id).
  repeat match type of H with
  | context [if ?b then _ else _] => destruct b eqn:?
  end; simpl in *;
  repeat match type of H with
  | context [Py.store ?i ?v ?l] =>
    let E := fresh "E" in
    destruct (Py.store i v l) eqn:E; simpl in H; [apply store_Some in E as [? ->]|done]
  end; injection H as <-; simpl; repeat split; try done; eauto.
Qed.

Lemma slot_rule_facts d a p :
  -1 ≤ d ≤ 1 →
  let r := slot_rule d a p in
  -1 ≤ r.2 ≤ 1 ∧ 0 ≤ r.1.1 * p ∧ 0 ≤ r.1.1 * r.2 ∧ (r.2 = 0 → r.1.1 = 0) ∧
  (d ≠ 0 → r.2 = d) ∧ (r.1.2 = true → r.1.1 = 0).
Proof.
  intros Hd. unfold slot_rule. rewrite !Z.gtb_ltb.
  destruct (Z.ltb_spec (a * p) 0); simpl; [repeat split; (lia || nia)|].
  destruct (Z.eqb_spec d 0); simpl.
  - subst d.
    destruct (Z.ltb_spec 0 a), (Z.ltb_spec a 0), (Z.ltb_spec 0 p),
      (Z.ltb_spec p 0); simpl; repeat split; (lia || nia).
  - destruct (Z.ltb_spec 0 (a * d)), (Z.eqb_spec p 0),
      (Z.ltb_spec (p * d) 0); simpl; repeat split; (lia || nia).
Qed.

Lemma update_body_is_Some i st :
  (i < length st.(n_pos))%nat → (i < length st.(n_asks))%nat →
  (i < length st.(n_aimd))%nat → is_Some (update_body i st).
Proof.
  destruct st as [pos asks aimd d]. simpl. intros Hp Ha Hf.
  destruct (lookup_lt_is_Some_2 _ _ Hp) as [p Ep].
  destruct (lookup_lt_is_Some_2 _ _ Ha) as [a Ea].
  unfold update_body, Py.store. rewrite Ea, Ep. simpl.
  repeat case_decide; try lia.
  repeat match goal with
  | |- context [if ?b then _ else _] => destruct b
  end; simpl; eauto.
Qed.

Lemma net_inv_init st0 :
  st0.(n_direction) = 0 → Forall (eq 0) st0.(n_aimd) → net_inv st0 0 st0.
Proof.
  intros Hd Hf. split; try done; try lia.
  - intros j p q Hp Hq. rewrite Hp in Hq. injection Hq as <-. nia.
  - intros j f Hj. left. symmetry.
    by apply (proj1 (Forall_lookup _ _) Hf j f).
Qed.

Lemma net_inv_step st0 k st st' :
  net_inv st0 k st → update_body k st = Some st' → net_inv st0 (S k) st'.
Proof.
  intros [Hlp Hla Hlf Hbd Hrp Hra Hd Hside Hsign Hflag] Hstep.
  apply update_body_slot in Hstep
    as (a & p & Ea & Ep & Hpos & Haimd & Hfired & Hdir & a' & Hasks).
  pose proof (slot_rule_facts _ a p Hd) as (F1 & F2 & F3 & F4 & F5 & F6).
  set (r := slot_rule (n_direction st) a p) in *.
  assert (Hk : (k < length (n_pos st))%nat) by (by eapply lookup_lt_Some).
  split.
  - by rewrite Hpos, length_insert.
  - by rewrite Hasks, length_insert.
  - rewrite Haimd. destruct (r.1.2); by rewrite ?length_insert.
  - apply lookup_lt_Some in Ea. lia.
  - intros j Hj. rewrite Hpos, list_lookup_insert_ne by lia. apply Hrp. lia.
  - intros j Hj. rewrite Hasks, list_lookup_insert_ne by lia. apply Hra. lia.
  - by rewrite Hdir.
  - intros j q Hj. rewrite Hpos, Hdir.
    destruct (decide (j = k)) as [->|Hne].
    + rewrite list_lookup_insert_eq by done. intros [= <-]. done.
    + rewrite list_lookup_insert_ne by done. intros Hq.
      destruct (Hside j q ltac:(lia) Hq) as [S1 S2].
      destruct (decide (n_direction st = 0)) as [E|E].
      * rewrite (S2 E). split; [lia|done].
      * rewrite (F5 E). done.
  - intros j q q0. rewrite Hpos.
    destruct (decide (j = k)) as [->|Hne].
    + rewrite list_lookup_insert_eq by done. intros [= <-].
      rewrite <- (Hrp k), Ep by lia. intros [= <-]. done.
    + rewrite list_lookup_insert_ne by done. apply Hsign.
  - intros j f. rewrite Haimd, Hpos.
    destruct (r.1.2) eqn:Efired.
    + destruct (decide (j = k)) as [->|Hne].
      * rewrite !list_lookup_insert_eq by auto. intros [= <-].
        right. rewrite F6 by done. split; [done|]. split; [lia|done].
      * rewrite !list_lookup_insert_ne by done. intros Hf.
        destruct (Hflag j f Hf) as [?|(-> & Hj & Hz)]; [by left|right].
        split; [done|]. split; [lia|done].
    + intros Hf. destruct (Hflag j f Hf) as [?|(-> & Hj & Hz)]; [by left|right].
      split; [done|]. split; [lia|]. by rewrite list_lookup_insert_ne by lia.
Qed.

Lemma net_loop_inv st0 k st :
  st0.(n_direction) = 0 → Forall (eq 0) st0.(n_aimd) →
  Py.for_each update_body (Py.range k) st0 = Some st → net_inv st0 k st.
Proof.
  intros Hd Hf. revert st. induction k as [|k IH]; intros st.
  - intros [= <-]. by apply net_inv_init.
  - rewrite range_S, for_each_app.
    destruct (Py.for_each update_body (Py.range k) st0) as [st1|]; [|done].
    simpl. destruct (update_body k st1) as [st2|] eqn:E; [|done].
    simpl. intros [= <-]. eapply net_inv_step; eauto.
Qed.

Lemma net_loop_total st0 k :
  st0.(n_direction) = 0 → Forall (eq 0) st0.(n_aimd) →
  (k ≤ length st0.(n_pos))%nat → (k ≤ length st0.(n_asks))%nat →
  (k ≤ length st0.(n_aimd))%nat →
  is_Some (Py.for_each update_body (Py.range k) st0).
Proof.
  intros Hd Hf. induction k as [|k IH]; intros Hp Ha Hm; [by eexists|].
  rewrite range_S, for_each_app.
  destruct IH as [st1 E1]; try lia. rewrite E1. simpl.
  pose proof (net_loop_inv _ _ _ Hd Hf E1) as [Hlp Hla Hlf _ _ _ _ _ _ _].
  destruct (update_body_is_Some k st1) as [st2 E2]; try lia.
  rewrite E2. by eexists.
Qed.

(** ** The ledger: [update_position] *)

Lemma signed_asks_length signals asks_abs asks :
  signed_asks signals asks_abs = Some asks → length asks = length asks_abs.
Proof.
  intros H. apply mapM_Some_1, Forall2_length in H.
  unfold Py.range in H. by rewrite length_seq in H.
Qed.

Lemma signed_asks_total signals asks_abs :
  (length asks_abs ≤ length signals)%nat →
  is_Some (signed_asks signals asks_abs).
Proof.
  intros Hlen. apply mapM_is_Some_2, Forall_forall. intros i Hi.
  apply elem_of_seq in Hi. simpl.
  destruct (lookup_lt_is_Some_2 asks_abs i) as [a ->]; [lia|].
  destruct (lookup_lt_is_Some_2 signals i) as [s ->]; [lia|].
  by eexists.
Qed.

Lemma net_inv_of self signals asks_abs st :
  net self signals asks_abs = Some st →
  ∃ asks, net_inv (net_start self asks (length asks_abs)) (length signals) st.
Proof.
  unfold net. intros H.
  destruct (signed_asks signals asks_abs) as [asks|]; [|done].
  exists asks. apply net_loop_inv in H; [done|done|].
  apply Forall_replicate_eq.
Qed.

Lemma net_total self signals asks_abs :
  length signals = length self.(pos) →
  length asks_abs = length self.(pos) →
  is_Some (net self signals asks_abs).
Proof.
  intros Hs Ha. unfold net.
  destruct (signed_asks_total signals asks_abs) as [asks E]; [lia|].
  rewrite E. simpl. apply signed_asks_length in E.
  apply net_loop_total; simpl; rewrite ?length_replicate; try lia; try done.
  apply Forall_replicate_eq.
Qed.

Lemma update_position_Some self signals asks_abs self' r :
  update_position self signals asks_abs = Some (self', r) →
  ∃ st, net self signals asks_abs = Some st ∧
    self'.(pos) = normalize_from self.(inventory_limit) 0 st.(n_pos) ∧
    self'.(inventory_limit) = self.(inventory_limit) ∧
    self'.(num_strats) = self.(num_strats) ∧
    r = (Py.sum self'.(pos) - Py.sum self.(pos), st.(n_aimd)).
Proof.
  unfold update_position. intros H.
  destruct (net self signals asks_abs) as [st|]; [|done]. simpl in H.
  rewrite normalize_eq in H. simpl in H. injection H as <- <-.
  by exists st.
Qed.

Lemma update_position_total self signals asks_abs :
  length signals = length self.(pos) →
  length asks_abs = length self.(pos) →
  is_Some (update_position self signals asks_abs).
Proof.
  intros Hs Ha. unfold update_position.
  destruct (net_total self signals asks_abs Hs Ha) as [st ->]. simpl.
  rewrite normalize_eq. simpl. by eexists.
Qed.

(** ** Claims on the position ledger *)

(** C1, cap invariant: with [inventory_limit >= 0], whatever the starting
    positions, the signals and the asks, the positions left by
    [update_position] satisfy [sum |position_i| <= inventory_limit]; and
    the call returns when there is one signal and one ask per slot. *)
Theorem cap_invariant (self : Position.t) (signals asks_abs : list Z) :
  0 ≤ self.(inventory_limit) →
  (∀ self' r, update_position self signals asks_abs = Some (self', r) →
     Py.sum (Z.abs <$> self'.(pos)) ≤ self'.(inventory_limit)) ∧
  (length signals = length self.(pos) →
   length asks_abs = length self.(pos) →
   is_Some (update_position self signals asks_abs)).
Proof.
  intros HL. split; [|apply update_position_total].
  intros self' r H.
  apply update_position_Some in H as (st & _ & -> & -> & _).
  pose proof (normalize_from_cap self.(inventory_limit) 0 st.(n_pos)). lia.
Qed.

Lemma cap_invariant_witness :
  Py.sum (Z.abs <$> [80; 20]) ≤ 100.
Proof.
  destruct (cap_invariant (Position.init 2 100 100) [1; 1] [80; 90]) as [H _].
  - simpl. lia.
  - apply (H (Position.mk 2 100 100 [80; 20]) (100, [0; 0])). reflexivity.
Defined.

(** C2 as stated fails when the signals do not cover the ledger: the
    loop visits [len(signals)] slots only, so with the positions
    [[0, 0, -5]], two buy signals and two asks of 10 the third slot keeps
    its short position beside the two new long ones. *)
Lemma direction_invariant_counterexample :
  ¬ (∀ (self : Position.t) (signals asks_abs : list Z) self' r,
       update_position self signals asks_abs = Some (self', r) →
       ∀ i j p q, self'.(pos) !! i = Some p → self'.(pos) !! j = Some q →
         0 ≤ p * q).
Proof.
  intros H.
  specialize (H (Position.mk 3 100 100 [0; 0; -5]) [1; 1] [10; 10]
                (Position.mk 3 100 100 [10; 10; -5]) (20, [0; 0])
                eq_refl 0%nat 2%nat 10 (-5) eq_refl eq_refl).
  lia.
Qed.

(** C2, amended: when there is one signal and one ask per slot of the
    ledger, [update_position] returns, and no two slots of the resulting
    positions hold nonzero positions of opposite sign. *)
Theorem direction_invariant (self : Position.t) (signals asks_abs : list Z) :
  length signals = length self.(pos) →
  length asks_abs = length self.(pos) →
  ∃ self' r, update_position self signals asks_abs = Some (self', r) ∧
    ∀ i j p q, self'.(pos) !! i = Some p → self'.(pos) !! j = Some q →
      0 ≤ p * q.
Proof.
  intros Hs Ha.
  destruct (update_position_total self signals asks_abs Hs Ha) as [[self' r] E].
  exists self', r. split; [done|].
  apply update_position_Some in E as (st & Hnet & -> & _).
  apply net_inv_of in Hnet as [asks Hinv].
  intros i j p q. apply one_sided_pairwise, normalize_from_one_sided.
  assert (Hall : ∀ k x, st.(n_pos) !! k = Some x →
            0 ≤ x * st.(n_direction) ∧ (st.(n_direction) = 0 → x = 0)).
  { intros k x Hk. eapply (inv_side _ _ _ Hinv); [|done].
    apply lookup_lt_Some in Hk. rewrite (inv_len_pos _ _ _ Hinv) in Hk.
    simpl in Hk. lia. }
  pose proof (inv_dir _ _ _ Hinv) as Hd.
  destruct (decide (0 ≤ st.(n_direction))) as [Hpos|Hneg]; [left|right];
    apply Forall_lookup; intros k x Hk;
    destruct (Hall k x Hk) as [H1 H2]; simpl; nia.
Qed.

Lemma direction_invariant_witness :
  ∃ self' r,
    update_position (Position.mk 3 100 100 [5; -5; 0]) [0; 0; 1] [10; 10; 10]
    = Some (self', r) ∧
    ∀ i j p q, self'.(pos) !! i = Some p → self'.(pos) !! j = Some q →
      0 ≤ p * q.
Proof.
  apply (direction_invariant (Position.mk 3 100 100 [5; -5; 0])
           [0; 0; 1] [10; 10; 10]); reflexivity.
Defined.

Lemma normalize_from_first_come L cur l :
  0 ≤ cur ≤ L → normalize_from L cur l = first_come (L - cur) l.
Proof.
  revert cur. induction l as [|p l IH]; intros cur Hcur; simpl; [done|].
  rewrite !Z.gtb_ltb.
  destruct (Z.ltb_spec L (cur + Z.abs p)); case_decide; try lia.
  - rewrite normalize_from_full. unfold clamp_rest. f_equal.
    destruct (Z.ltb_spec 0 p); case_decide; lia.
  - rewrite IH by lia. do 2 f_equal. lia.
Qed.

(** C3, first-come allocation: for every position list and every
    [inventory_limit >= 0], [normalize] returns the list computed by the
    first-come allocator of the specification started with headroom
    [inventory_limit]. *)
Theorem normalize_first_come (self : Position.t) (positions : list Z) :
  0 ≤ self.(inventory_limit) →
  normalize self positions
  = Some (first_come self.(inventory_limit) positions).
Proof.
  intros HL. rewrite normalize_eq, normalize_from_first_come by lia.
  by rewrite Z.sub_0_r.
Qed.

Lemma normalize_first_come_witness :
  normalize (Position.init 4 100 100) [80; -90; 0; 7]
  = Some (first_come 100 [80; -90; 0; 7])
  ∧ first_come 100 [80; -90; 0; 7] = [80; -20; 0; 0].
Proof.
  split; [|reflexivity].
  apply (normalize_first_come (Position.init 4 100 100) [80; -90; 0; 7]).
  simpl. lia.
Defined.

(** C9 as stated fails for a negative [inventory_limit]: [normalize] then
    rewrites the first slot to [inventory_limit] times its sign, which
    reverses a long position. *)
Lemma sign_preservation_counterexample :
  ¬ (∀ (self : Position.t) (signals asks_abs : list Z) self' r,
       update_position self signals asks_abs = Some (self', r) →
       ∀ i p q, self.(pos) !! i = Some p → self'.(pos) !! i = Some q →
         0 ≤ q * p).
Proof.
  intros H.
  specialize (H (Position.mk 1 (-1) 100 [5]) [0] [10]
                (Position.mk 1 (-1) 100 [-1]) (-6, [0]) eq_refl
                0%nat 5 (-1) eq_refl eq_refl).
  lia.
Qed.

(** C9, amended: with [inventory_limit >= 0], [update_position] never
    reverses a slot: every final position times its initial position is
    non-negative; and the call returns when there is one signal and one ask
    per slot. *)
Theorem sign_preservation (self : Position.t) (signals asks_abs : list Z) :
  0 ≤ self.(inventory_limit) →
  (∀ self' r, update_position self signals asks_abs = Some (self', r) →
     length self'.(pos) = length self.(pos) ∧
     ∀ i p q, self.(pos) !! i = Some p → self'.(pos) !! i = Some q →
       0 ≤ q * p) ∧
  (length signals = length self.(pos) →
   length asks_abs = length self.(pos) →
   is_Some (update_position self signals asks_abs)).
Proof.
  intros HL. split; [|apply update_position_total].
  intros self' r H.
  apply update_position_Some in H as (st & Hnet & -> & _).
  apply net_inv_of in Hnet as [asks Hinv].
  split.
  - rewrite normalize_from_length. apply (inv_len_pos _ _ _ Hinv).
  - intros i p q Hp Hq.
    pose proof (normalize_from_sign self.(inventory_limit) 0 st.(n_pos)
                  ltac:(lia)) as Hs.
    destruct (Forall2_lookup_l _ _ _ _ _ Hs Hq) as (m & Hm & Hqm & Habs).
    pose proof (inv_sign _ _ _ Hinv i m p Hm Hp) as Hmp. simpl in Hmp.
    destruct (Z.lt_trichotomy m 0) as [?|[->|?]]; [| |].
    + assert (q ≤ 0) by nia. assert (p ≤ 0) by nia. nia.
    + assert (q = 0) by lia. subst q. lia.
    + assert (0 ≤ q) by nia. assert (0 ≤ p) by nia. nia.
Qed.

Lemma sign_preservation_witness :
  length [5; 0; 10] = length [5; -5; 0] ∧ 0 ≤ 0 * -5.
Proof.
  destruct (sign_preservation (Position.mk 3 100 100 [5; -5; 0])
              [0; 0; 1] [10; 10; 10]) as [H _].
  - simpl. lia.
  - destruct (H (Position.mk 3 100 100 [5; 0; 10]) (15, [0; 1; 0]) eq_refl)
      as [Hlen Hsign].
    split; [exact Hlen|]. exact (Hsign 1%nat (-5) 0 eq_refl eq_refl).
Defined.

(** ** The ask sizer: [Asks.update] *)

Lemma asks_update_body_eq self pnl aimd i asks a p f :
  asks !! i = Some a → pnl !! i = Some p → aimd !! i = Some f →
  Asks.update_body self pnl aimd i asks
  = Some (<[i:=aimd_rule self a p f]> asks).
Proof.
  intros Ha Hp Hf. unfold Asks.update_body, aimd_rule. rewrite Hp. simpl.
  assert (Hi : (i < length asks)%nat) by (by eapply lookup_lt_Some).
  destruct (Py.nonzero p); simpl; [|by rewrite list_insert_id].
  rewrite Hf. simpl. destruct (f =? 1); [|by rewrite list_insert_id].
  rewrite Ha. simpl. unfold Py.store.
  destruct (Py.positive p); by case_decide.
Qed.

Lemma asks_update_loop self pnl aimd asks0 k :
  length pnl = length asks0 → length aimd = length asks0 →
  (k ≤ length asks0)%nat →
  ∃ asks',
    Py.for_each (Asks.update_body self pnl aimd) (Py.range k) asks0
    = Some asks' ∧
    length asks' = length asks0 ∧
    ∀ j a p f, asks0 !! j = Some a → pnl !! j = Some p → aimd !! j = Some f →
      asks' !! j = Some (if decide (j < k)%nat then aimd_rule self a p f else a).
Proof.
  intros Hp Hf. induction k as [|k IH]; intros Hk.
  - exists asks0. split; [done|]. split; [done|].
    intros j a p f Ha _ _. by case_decide; [lia|].
  - destruct IH as (asks1 & E1 & Hlen & Hslots); [lia|].
    destruct (lookup_lt_is_Some_2 asks0 k) as [a Ea]; [lia|].
    destruct (lookup_lt_is_Some_2 pnl k) as [p Ep]; [lia|].
    destruct (lookup_lt_is_Some_2 aimd k) as [f Ef]; [lia|].
    pose proof (Hslots k a p f Ea Ep Ef) as Ek.
    case_decide; [lia|].
    exists (<[k:=aimd_rule self a p f]> asks1).
    rewrite range_S, for_each_app, E1. simpl.
    rewrite (asks_update_body_eq _ _ _ _ _ a p f) by done.
    split; [done|]. split; [by rewrite length_insert|].
    intros j a' p' f' Ha' Hp' Hf'.
    destruct (decide (j = k)) as [->|Hne].
    + rewrite list_lookup_insert_eq by lia.
      case_decide; [|lia]. congruence.
    + rewrite list_lookup_insert_ne by done.
      rewrite (Hslots j a' p' f') by done.
      repeat case_decide; try lia; done.
Qed.

Lemma nonzero_spec (x : Q) : Py.nonzero x = true ↔ ¬ (x == 0)%Q.
Proof.
  unfold Py.nonzero. rewrite negb_true_iff, <- not_true_iff_false.
  by rewrite Qeq_bool_iff.
Qed.

Lemma positive_spec (x : Q) : Py.positive x = true ↔ (0 < x)%Q.
Proof.
  unfold Py.positive. rewrite negb_true_iff, <- not_true_iff_false.
  rewrite Qle_bool_iff. split; [apply Qnot_le_lt | apply Qlt_not_le].
Qed.

Lemma aimd_rule_cases self a p f :
  (f = 1 → (0 < p)%Q → aimd_rule self a p f = a + self.(Asks.reward_add)) ∧
  (f = 1 → (p < 0)%Q →
   aimd_rule self a p f = Z.max 1 (Py.int_mul a self.(Asks.penalty_mult))) ∧
  ((p == 0)%Q ∨ f ≠ 1 → aimd_rule self a p f = a).
Proof.
  unfold aimd_rule. repeat split.
  - intros -> Hp. rewrite (proj2 (positive_spec p) Hp).
    rewrite (proj2 (nonzero_spec p)); [done|].
    intros E. rewrite E in Hp. by apply Qlt_irrefl in Hp.
  - intros -> Hp. rewrite (proj2 (nonzero_spec p)).
    + simpl. destruct (Py.positive p) eqn:E; [|done].
      apply positive_spec in E. exfalso.
      by apply (Qlt_irrefl 0), (Qlt_trans 0 p 0).
    + intros E. rewrite E in Hp. by apply Qlt_irrefl in Hp.
  - intros [Hp|Hf].
    + destruct (Py.nonzero p) eqn:E; [|done].
      by apply nonzero_spec in E.
    + destruct (Z.eqb_spec f 1); [done|]. by rewrite andb_false_r.
Qed.

(** The product of [int(ask * penalty_mult)] is the product of floats:
    with the ask 30 and the float nearest to one third as
    [penalty_mult], the exact product is just below 10 and its floor is 9,
    but the float product is 10; with the ask 100 and the penalty 0.29 the
    float product is just below 29; and above [2^53] the conversion of the
    ask to a float already rounds. *)
Example int_mul_rounds :
  Py.int_mul 30 (Py.Float (1 # 3)) = 10 ∧
  Qfloor (30 * Py.b64 (1 # 3)) = 9 ∧
  Py.int_mul 100 (Py.Float (29 # 100)) = 28 ∧
  Py.int_mul (2 ^ 53 + 3) (Py.Float 1) = 2 ^ 53 + 4 ∧
  Py.int_mul (2 ^ 53 + 3) (Py.Int 1) = 2 ^ 53 + 3.
Proof. vm_compute. repeat split. Qed.

(** C4 as stated fails in its "if" direction: a slot whose ask already is
    at the floor 1 receives a losing close (flag set, PnL nonzero) and
    keeps the value 1. *)
Lemma aimd_update_counterexample :
  ¬ (∀ (self self' : Asks.t) (pnl : list Q) (aimd : list Z) i a a' p f,
       Asks.update self pnl aimd = Some self' →
       self.(Asks.asks) !! i = Some a → self'.(Asks.asks) !! i = Some a' →
       pnl !! i = Some p → aimd !! i = Some f →
       (a' ≠ a ↔ f = 1 ∧ ¬ (p == 0)%Q)).
Proof.
  intros H.
  destruct (H (Asks.mk 1 [1] 33 (Py.Float (666 # 1000)))
              (Asks.mk 1 [1] 33 (Py.Float (666 # 1000)))
              [(-1)%Q] [1] 0%nat 1 1 (-1)%Q 1
              eq_refl eq_refl eq_refl eq_refl eq_refl) as [_ Hback].
  apply Hback; [|done]. split; [done|]. intros E. discriminate E.
Qed.

(** C4, amended: when there is one PnL and one flag per slot, [Asks.update]
    returns, and for every slot: with the flag set and a positive PnL the
    new ask is the old ask plus [reward_add]; with the flag set and a
    negative PnL it is [max(1, int(old ask * penalty_mult))], the product
    being Python's (exact for an integer [penalty_mult]; for a float the
    float product of [float(old ask)] and [penalty_mult], which is not
    always the floor of the exact product); with a zero PnL or without the
    flag it is the old ask.  A slot whose value differs afterwards
    therefore had its flag set and a nonzero PnL. *)
Theorem aimd_update_rule (self : Asks.t) (pnl : list Q) (aimd : list Z) :
  length pnl = length self.(Asks.asks) →
  length aimd = length self.(Asks.asks) →
  ∃ self', Asks.update self pnl aimd = Some self' ∧
    length self'.(Asks.asks) = length self.(Asks.asks) ∧
    self'.(Asks.reward_add) = self.(Asks.reward_add) ∧
    self'.(Asks.penalty_mult) = self.(Asks.penalty_mult) ∧
    ∀ i a p f,
      self.(Asks.asks) !! i = Some a → pnl !! i = Some p →
      aimd !! i = Some f →
      ∃ a', self'.(Asks.asks) !! i = Some a' ∧
        (f = 1 → (0 < p)%Q → a' = a + self.(Asks.reward_add)) ∧
        (f = 1 → (p < 0)%Q →
         a' = Z.max 1 (Py.int_mul a self.(Asks.penalty_mult))) ∧
        ((p == 0)%Q ∨ f ≠ 1 → a' = a) ∧
        (a' ≠ a → f = 1 ∧ ¬ (p == 0)%Q).
Proof.
  intros Hp Hf.
  destruct (asks_update_loop self pnl aimd self.(Asks.asks)
              (length self.(Asks.asks)) Hp Hf ltac:(lia))
    as (asks' & E & Hlen & Hslots).
  unfold Asks.update. rewrite E. simpl. eexists. split; [done|]. simpl.
  split; [done|]. split; [done|]. split; [done|].
  intros i a p f Ha Hpi Hfi. exists (aimd_rule self a p f).
  rewrite (Hslots i a p f Ha Hpi Hfi).
  case_decide as Hi; [|apply lookup_lt_Some in Ha; lia].
  split; [done|].
  destruct (aimd_rule_cases self a p f) as (C1 & C2 & C3).
  split; [done|]. split; [done|]. split; [done|].
  intros Hne. destruct (decide (f = 1)) as [->|Hf1].
  - split; [done|]. intros Hz. apply Hne, C3. by left.
  - exfalso. apply Hne, C3. by right.
Qed.

Lemma aimd_update_rule_witness :
  ∃ self', Asks.update (Asks.mk 4 [10; 10; 10; 30] 33 (Py.Float (1 # 3)))
             [1%Q; (-1)%Q; 0%Q; (-1)%Q] [1; 1; 1; 1] = Some self' ∧
           self'.(Asks.asks) = [43; 3; 10; 10].
Proof.
  destruct (aimd_update_rule
              (Asks.mk 4 [10; 10; 10; 30] 33 (Py.Float (1 # 3)))
              [1%Q; (-1)%Q; 0%Q; (-1)%Q] [1; 1; 1; 1] eq_refl eq_refl)
    as (self' & E & _).
  exists self'. split; [exact E|].
  vm_compute in E. by injection E as <-.
Defined.

(** ** The orchestrator: frame lemmas *)

Lemma for_each_inv {A B} (P : B → Prop) (body : A → B → option B) xs st st' :
  (∀ x s s', P s → body x s = Some s' → P s') →
  P st → Py.for_each body xs st = Some st' → P st'.
Proof.
  intros Hbody. revert st. induction xs as [|x xs IH]; intros st HP; simpl.
  - by intros [= <-].
  - destruct (body x st) as [s1|] eqn:E; [|done]. simpl.
    apply IH. by eapply Hbody.
Qed.

Section OrchestratorFacts.
Context {S : Type} {ops : Strategy.Ops S}.
Import Orchestrator.

Implicit Types (self s : Orchestrator.t S) (tick_data : Tick).

Lemma rollover_core self tick_data day_num :
  core_of
    (set_current_pointer (time_to_seconds tick_data.(Time))
       (if decide (self.(current_day) ≠ Some day_num)
        then new_day self tick_data day_num else self))
  = {|
    c_backlog := self.(trade_backlog);
    c_position := self.(position);
    c_asks := self.(current_asks);
    c_book := self.(trade_book);
    c_cooldown := self.(cooldown_period);
    c_trade_limit := self.(trade_limit);
    c_day_length := self.(day_length);
    c_num_strats := self.(num_strats);
    c_tran_cost := self.(tran_cost);
    c_inventory := self.(current_inventory);
    c_last := if decide (self.(current_day) ≠ Some day_num)
              then - self.(cooldown_period) else self.(last_trade_time);
    c_eod := if decide (self.(current_day) ≠ Some day_num)
             then false else self.(eod_squared_off);
    c_day := Some day_num;
    c_pointer := time_to_seconds tick_data.(Time);
    c_snapshot_period := self.(snapshot_period)
  |}.
Proof.
  case_decide as Hday; [reflexivity|].
  unfold core_of. simpl. by rewrite Hday.
Qed.

Lemma set_strategies_core v s : core_of (set_strategies v s) = core_of s.
Proof. reflexivity. Qed.

Lemma portfolio_snapshot_core s tick_data :
  core_of (_portfolio_snapshot s tick_data) = core_of s.
Proof. reflexivity. Qed.

Lemma begin_tick_core self tick_data day_num s :
  begin_tick self tick_data day_num = Some s →
  core_of s = {|
    c_backlog := self.(trade_backlog);
    c_position := self.(position);
    c_asks := self.(current_asks);
    c_book := self.(trade_book);
    c_cooldown := self.(cooldown_period);
    c_trade_limit := self.(trade_limit);
    c_day_length := self.(day_length);
    c_num_strats := self.(num_strats);
    c_tran_cost := self.(tran_cost);
    c_inventory := self.(current_inventory);
    c_last := if decide (self.(current_day) ≠ Some day_num)
              then - self.(cooldown_period) else self.(last_trade_time);
    c_eod := if decide (self.(current_day) ≠ Some day_num)
             then false else self.(eod_squared_off);
    c_day := Some day_num;
    c_pointer := time_to_seconds tick_data.(Time);
    c_snapshot_period := self.(snapshot_period)
  |}.
Proof.
  unfold begin_tick. intros H.
  rewrite <- (rollover_core self tick_data day_num).
  remember (set_current_pointer _ _) as s0 eqn:Es0. clear Es0.
  destruct (negb (eod_squared_off s0)).
  - destruct (mapM _ _) as [strats|]; simpl in H; [|discriminate H].
    destruct (snapshot_period s0 =? 0); [discriminate H|].
    destruct (_ =? 0); by injection H as <-.
  - simpl in H.
    destruct (snapshot_period s0 =? 0); [discriminate H|].
    destruct (_ =? 0); by injection H as <-.
Qed.

Lemma process_tick_inv self tick_data day_num self' out :
  process_tick self tick_data day_num = Some (self', out) →
  ∃ s, begin_tick self tick_data day_num = Some s ∧
    ((release_due s = true ∧ out = Released (execute_qty s) ∧
      self' = execute_trade s tick_data) ∨
     (release_due s = false ∧ s.(eod_squared_off) = true ∧
      out = Blocked ∧ self' = s) ∨
     (release_due s = false ∧ s.(eod_squared_off) = false ∧
      s.(day_length) ≤ s.(current_pointer) ∧
      square_off s = Some (self', out)) ∨
     (release_due s = false ∧ s.(eod_squared_off) = false ∧
      s.(current_pointer) < s.(day_length) ∧
      trade s tick_data = Some (self', out))).
Proof.
  unfold process_tick. intros H.
  destruct (begin_tick self tick_data day_num) as [s|]; [|done].
  simpl in H. exists s. split; [done|]. fold (release_due s) in H.
  destruct (release_due s).
  { injection H as <- <-. by left. }
  right. destruct (eod_squared_off s).
  { injection H as <- <-. by left. }
  right. destruct (Z.geb_spec (current_pointer s) (day_length s)).
  - left. by repeat split.
  - right. by repeat split.
Qed.

Lemma execute_trade_core s tick_data :
  core_of (execute_trade s tick_data) = {|
    c_backlog := s.(trade_backlog) - execute_qty s;
    c_position := s.(position);
    c_asks := s.(current_asks);
    c_book := s.(trade_book) ++ [release_row s tick_data];
    c_cooldown := s.(cooldown_period);
    c_trade_limit := s.(trade_limit);
    c_day_length := s.(day_length);
    c_num_strats := s.(num_strats);
    c_tran_cost := s.(tran_cost);
    c_inventory := s.(current_inventory) + execute_qty s;
    c_last := s.(current_pointer);
    c_eod := s.(eod_squared_off);
    c_day := s.(current_day);
    c_pointer := s.(current_pointer);
    c_snapshot_period := s.(snapshot_period)
  |}.
Proof. reflexivity. Qed.

Lemma square_off_inv s s' out :
  square_off s = Some (s', out) →
  out = SquaredOff (- Py.sum s.(position).(Position.pos)) ∧
  core_of s' = {|
    c_backlog := s.(trade_backlog) + - Py.sum s.(position).(Position.pos);
    c_position := Position.reset_position s.(position);
    c_asks := s.(current_asks);
    c_book := s.(trade_book);
    c_cooldown := s.(cooldown_period);
    c_trade_limit := s.(trade_limit);
    c_day_length := s.(day_length);
    c_num_strats := s.(num_strats);
    c_tran_cost := s.(tran_cost);
    c_inventory := s.(current_inventory);
    c_last := s.(last_trade_time);
    c_eod := true;
    c_day := s.(current_day);
    c_pointer := s.(current_pointer);
    c_snapshot_period := s.(snapshot_period)
  |}.
Proof.
  unfold square_off. intros H.
  destruct (mapM _ _) as [strats|]; simpl in H; [|discriminate H].
  by injection H as <- <-.
Qed.

Lemma record_body_core tick_data prev_pos curr_pos i s s' :
  record_body tick_data prev_pos curr_pos i s = Some s' →
  core_of s' = core_of s.
Proof.
  unfold record_body. intros H.
  destruct (strategies s !! i) as [strategy|]; simpl in H; [|discriminate H].
  destruct (prev_pos !! i) as [pp|]; simpl in H; [|discriminate H].
  destruct (curr_pos !! i) as [cp|]; simpl in H; [|discriminate H].
  destruct ((pp =? 0) && negb (cp =? 0)).
  - destruct (Strategy.update_position _ _ _) as [st|]; simpl in H;
      [|discriminate H].
    destruct (Py.store i _ (entry_prices s)); simpl in H; [|discriminate H].
    destruct (Py.store i _ (entry_times s)); simpl in H; [|discriminate H].
    by injection H as <-.
  - destruct ((cp =? 0) && negb (pp =? 0)); [|by injection H as <-].
    destruct (Strategy.update_position _ _ _) as [st|]; simpl in H;
      [|discriminate H].
    destruct (Py.store i _ (entry_prices s)); simpl in H; [|discriminate H].
    destruct (Py.store i _ (entry_times s)); simpl in H; [|discriminate H].
    by injection H as <-.
Qed.

Lemma pnl_body_core current_price prev_pos final_pos i l s l' s' :
  _compute_strategy_pnl_body current_price prev_pos final_pos i (l, s)
  = Some (l', s') →
  core_of s' = core_of s ∧ s'.(entry_prices) = s.(entry_prices) ∧
  s'.(entry_times) = s.(entry_times).
Proof.
  unfold _compute_strategy_pnl_body. intros H.
  destruct (prev_pos !! i) as [pp|]; simpl in H; [|discriminate H].
  destruct (negb (pp =? 0)); [|by injection H as <- <-].
  destruct (final_pos !! i) as [fp|]; simpl in H; [|discriminate H].
  destruct (fp * pp <=? 0); [|by injection H as <- <-].
  destruct (entry_prices s !! i) as [ep|]; simpl in H; [|discriminate H].
  destruct (Py.store i _ l); simpl in H; [|discriminate H].
  by injection H as <- <-.
Qed.

Lemma record_loop_core tick_data prev_pos curr_pos xs s s' :
  Py.for_each (record_body tick_data prev_pos curr_pos) xs s = Some s' →
  core_of s' = core_of s.
Proof.
  apply (for_each_inv (λ x, core_of x = core_of s)); [|done].
  intros i s1 s2 E H. apply record_body_core in H. congruence.
Qed.

Lemma pnl_loop_core s current_price prev_pos final_pos pnl_list s' :
  _compute_strategy_pnl s current_price prev_pos final_pos
  = Some (pnl_list, s') →
  core_of s' = core_of s ∧ s'.(entry_prices) = s.(entry_prices) ∧
  s'.(entry_times) = s.(entry_times).
Proof.
  unfold _compute_strategy_pnl. intros H.
  apply (for_each_inv
           (λ x, core_of x.2 = core_of s ∧
                 x.2.(entry_prices) = s.(entry_prices) ∧
                 x.2.(entry_times) = s.(entry_times))) in H; [done| |done].
  intros i [l1 s1] [l2 s2] (E1 & E2 & E3) Hb. simpl in *.
  apply pnl_body_core in Hb as (? & ? & ?). repeat split; congruence.
Qed.

(** The steps of the last part of [process_tick], one by one. *)
Lemma trade_inv s tick_data s' out :
  trade s tick_data = Some (s', out) →
  ∃ signals strats ledger d aimd s2 pnl_list s3 asks',
    get_signals s tick_data = Some (signals, strats) ∧
    Position.update_position s.(position) signals
      s.(current_asks).(Asks.asks) = Some (ledger, (d, aimd)) ∧
    Py.for_each
      (record_body tick_data s.(position).(Position.pos)
         ledger.(Position.pos))
      (Py.range (length strats))
      (set_trade_backlog (s.(trade_backlog) + d)
         (set_position ledger (set_strategies strats s))) = Some s2 ∧
    _compute_strategy_pnl s2 tick_data.(Price)
      s.(position).(Position.pos) ledger.(Position.pos)
    = Some (pnl_list, s3) ∧
    Asks.update s3.(current_asks) pnl_list aimd = Some asks' ∧
    out = Netted signals d aimd pnl_list ∧
    s' = set_current_asks asks' s3.
Proof.
  unfold trade. intros H.
  destruct (get_signals s tick_data) as [[signals strats]|];
    simpl in H; [|discriminate H].
  destruct (Position.update_position _ _ _) as [[ledger [d aimd]]|] eqn:E1;
    simpl in H; [|discriminate H].
  destruct (Py.for_each (record_body _ _ _) _ _) as [s2|] eqn:E2;
    simpl in H; [|discriminate H].
  destruct (_compute_strategy_pnl _ _ _ _) as [[pnl_list s3]|] eqn:E3;
    simpl in H; [|discriminate H].
  destruct (Asks.update _ _ _) as [asks'|] eqn:E4;
    simpl in H; [|discriminate H].
  injection H as <- <-.
  exists signals, strats, ledger, d, aimd, s2, pnl_list, s3, asks'.
  repeat split; assumption.
Qed.

Lemma trade_core s tick_data s' out :
  trade s tick_data = Some (s', out) →
  ∃ signals ledger d aimd pnl_list asks',
    out = Netted signals d aimd pnl_list ∧
    Position.update_position s.(position) signals
      s.(current_asks).(Asks.asks) = Some (ledger, (d, aimd)) ∧
    Asks.update s.(current_asks) pnl_list aimd = Some asks' ∧
    core_of s' = {|
      c_backlog := s.(trade_backlog) + d;
      c_position := ledger;
      c_asks := asks';
      c_book := s.(trade_book);
      c_cooldown := s.(cooldown_period);
      c_trade_limit := s.(trade_limit);
      c_day_length := s.(day_length);
      c_num_strats := s.(num_strats);
      c_tran_cost := s.(tran_cost);
      c_inventory := s.(current_inventory);
      c_last := s.(last_trade_time);
      c_eod := s.(eod_squared_off);
      c_day := s.(current_day);
      c_pointer := s.(current_pointer);
      c_snapshot_period := s.(snapshot_period)
    |}.
Proof.
  intros H. apply trade_inv in H
    as (signals & strats & ledger & d & aimd & s2 & pnl_list & s3 & asks'
        & _ & Hup & Hrec & Hpnl & Hasks & -> & ->).
  apply record_loop_core in Hrec. apply pnl_loop_core in Hpnl as [Hpnl _].
  rewrite Hrec in Hpnl. clear Hrec.
  assert (Ea : current_asks s3 = current_asks s)
    by apply (f_equal c_asks Hpnl).
  rewrite Ea in Hasks.
  exists signals, ledger, d, aimd, pnl_list, asks'.
  split; [done|]. split; [done|]. split; [done|].
  change (core_of (set_current_asks asks' s3))
    with (mk_core (c_backlog (core_of s3)) (c_position (core_of s3)) asks'
            (c_book (core_of s3)) (c_cooldown (core_of s3))
            (c_trade_limit (core_of s3)) (c_day_length (core_of s3))
            (c_num_strats (core_of s3)) (c_tran_cost (core_of s3))
            (c_inventory (core_of s3)) (c_last (core_of s3))
            (c_eod (core_of s3)) (c_day (core_of s3))
            (c_pointer (core_of s3)) (c_snapshot_period (core_of s3))).
  by rewrite Hpnl.
Qed.

(** [process_tick] refines the state machine on the core attributes. *)
Lemma process_tick_core_step self tick_data day_num self' out :
  process_tick self tick_data day_num = Some (self', out) →
  core_step (core_of self) day_num tick_data out (core_of self').
Proof.
  intros H. apply process_tick_inv in H as (s & Hs & Hcases).
  apply begin_tick_core in Hs.
  change (core_of s = begun (core_of self) day_num tick_data) in Hs.
  assert (Hdue : release_due s = core_due (core_of s)) by reflexivity.
  destruct Hcases as [(Hd & -> & ->)|[(Hd & He & -> & ->)|
                      [(Hd & He & Hlen & Hsq)|(Hd & He & Hlen & Htr)]]].
  - rewrite execute_trade_core.
    apply (step_release _ _ _ (core_of s) (release_row s tick_data));
      [done|congruence|done].
  - apply step_blocked; [done|congruence|done].
  - apply square_off_inv in Hsq as [-> ->].
    apply (step_square_off _ _ _ (core_of s)); [done|congruence|done|done].
  - apply trade_core in Htr
      as (signals & ledger & d & aimd & pnl_list & asks' & -> & Hup & Ha & ->).
    by apply (step_net _ _ _ (core_of s) signals ledger d aimd pnl_list asks');
      [|congruence|..].
Qed.

Lemma run_core_run self ticks self' outs :
  run self ticks = Some (self', outs) →
  core_run (core_of self) ticks outs (core_of self').
Proof.
  revert self outs. induction ticks as [|[day_num tick_data] ticks IH];
    intros self outs; simpl.
  - intros [= <- <-]. constructor.
  - destruct (process_tick self tick_data day_num) as [[s1 o]|] eqn:E1;
      simpl; [|done].
    destruct (run s1 ticks) as [[s2 os]|] eqn:E2; simpl; [|done].
    intros [= <- <-]. econstructor.
    + by apply process_tick_core_step.
    + by apply IH.
Qed.

End OrchestratorFacts.

(** ** The state machine on the core attributes *)

Lemma sum_replicate_0 n : Py.sum (replicate n 0) = 0.
Proof. unfold Py.sum. induction n as [|n IH]; simpl; lia. Qed.

Lemma core_step_backlog c day_num tick_data o c' :
  core_step c day_num tick_data o c' →
  c'.(c_backlog) = c.(c_backlog) + net_delta o - released o ∧
  Py.sum c'.(c_position).(pos)
  = Py.sum c.(c_position).(pos) + net_delta o.
Proof.
  destruct 1 as [b row -> _ _|b -> _ _|b -> _ _ _
                |b signals ledger d aimd pnl_list asks' -> _ _ _ Hup _]; simpl.
  - lia.
  - lia.
  - rewrite sum_replicate_0. lia.
  - apply update_position_Some in Hup as (st & _ & _ & _ & _ & [= -> _]).
    simpl. lia.
Qed.

Lemma core_run_backlog c ticks os c' :
  core_run c ticks os c' →
  c'.(c_backlog)
  = c.(c_backlog) + Py.sum (net_delta <$> os) - Py.sum (released <$> os) ∧
  Py.sum c'.(c_position).(pos)
  = Py.sum c.(c_position).(pos) + Py.sum (net_delta <$> os).
Proof.
  induction 1 as [c|c day_num tick_data o c1 ticks os c2 Hstep _ [IH1 IH2]].
  - simpl. lia.
  - apply core_step_backlog in Hstep as [H1 H2].
    rewrite !fmap_cons. cbn [Py.sum foldr]. unfold Py.sum in *. lia.
Qed.

(** A release fires exactly when the backlog is nonzero and the cooldown
    has elapsed since the last release (or since the new-day baseline). *)
Lemma core_step_release c day_num tick_data o c' :
  core_step c day_num tick_data o c' →
  let b := begun c day_num tick_data in
  ((∃ q, o = Orchestrator.Released q) ↔
   c.(c_backlog) ≠ 0 ∧ c.(c_cooldown) < b.(c_pointer) - b.(c_last)) ∧
  (∀ q, o = Orchestrator.Released q →
     q = Z.min (Z.abs c.(c_backlog)) c.(c_trade_limit) * Z.sgn c.(c_backlog) ∧
     c'.(c_backlog) = c.(c_backlog) - q ∧
     c'.(c_last) = time_to_seconds tick_data.(Time)).
Proof.
  assert (Hdue : ∀ b, core_due b = true ↔
            b.(c_backlog) ≠ 0 ∧ b.(c_cooldown) < b.(c_pointer) - b.(c_last)).
  { intros b. unfold core_due.
    rewrite andb_true_iff, negb_true_iff, Z.eqb_neq, Z.gtb_ltb, Z.ltb_lt.
    done. }
  destruct 1 as [b row -> Hd _|b -> Hd _|b -> Hd _ _
                |b signals ledger d aimd pnl_list asks' -> Hd _ _ _ _];
    simpl; (split; [split|]); try (by intros [q [=]]); try (by intros q [=]).
  - intros _. by apply Hdue in Hd.
  - intros _. by eexists.
  - intros q [= <-]. done.
  - intros H. apply (proj2 (Hdue (begun c day_num tick_data))) in H.
    congruence.
  - intros H. apply (proj2 (Hdue (begun c day_num tick_data))) in H.
    congruence.
  - intros H. apply (proj2 (Hdue (begun c day_num tick_data))) in H.
    congruence.
Qed.

(** ** Cooldown *)

Lemma chain_weaken cooldown last lo lo' ts :
  lo' ≤ lo → chain cooldown last lo ts → chain cooldown last lo' ts.
Proof.
  destruct ts as [|t ts]; simpl; [done|].
  intros ? (? & ? & ?). split; [lia|]. split; [lia|done].
Qed.

Lemma chain_all cooldown last lo ts :
  chain cooldown last lo ts →
  Forall (λ t, cooldown + 1 ≤ t - last ∧ lo ≤ t) ts.
Proof.
  revert last lo. induction ts as [|t ts IH]; intros last lo; simpl.
  - constructor.
  - intros (H1 & H2 & H3). constructor; [done|].
    eapply Forall_impl; [apply (IH _ _ H3)|]. simpl. lia.
Qed.

Lemma chain_separated cooldown last lo ts :
  chain cooldown last lo ts → separated cooldown ts.
Proof.
  revert last lo. induction ts as [|t ts IH]; intros last lo Hc.
  - intros i j t1 t2 _ Hi. done.
  - destruct Hc as (H1 & H2 & H3). intros i j t1 t2 Hij Hi Hj.
    destruct j as [|j]; [lia|]. simpl in Hj.
    destruct i as [|i]; simpl in Hi.
    + injection Hi as <-.
      pose proof (proj1 (Forall_lookup _ _) (chain_all _ _ _ _ H3) _ _ Hj).
      simpl in *. lia.
    + apply (IH _ _ H3 i j); [lia|done|done].
Qed.

(** What one step does to the trade book and to the last release tick. *)
Lemma core_step_book c day_num tick_data o c' :
  core_step c day_num tick_data o c' →
  let last := if decide (c.(c_day) ≠ Some day_num)
              then - c.(c_cooldown) else c.(c_last) in
  c'.(c_cooldown) = c.(c_cooldown) ∧ c'.(c_day) = Some day_num ∧
  ((is_release o = false ∧ c'.(c_book) = c.(c_book) ∧ c'.(c_last) = last) ∨
   (∃ row, is_release o = true ∧ c'.(c_book) = c.(c_book) ++ [row] ∧
      row.(Orchestrator.tr_Time) = tick_data.(Time) ∧
      c'.(c_last) = time_to_seconds tick_data.(Time) ∧
      c.(c_cooldown) + 1 ≤ time_to_seconds tick_data.(Time) - last)).
Proof.
  destruct 1 as [b row -> Hd Hrow|b -> _ _|b -> _ _ _
                |b signals ledger d aimd pnl_list asks' -> _ _ _ _ _];
    simpl; (split; [done|]); (split; [done|]); try (by left).
  right. exists row. repeat split; try done.
  unfold core_due in Hd. simpl in Hd.
  apply andb_true_iff in Hd as [_ Hd]. rewrite Z.gtb_ltb, Z.ltb_lt in Hd. lia.
Qed.

Lemma core_run_chain day_num c ticks os c' lo :
  core_run c ticks os c' → day_ticks day_num lo ticks →
  c'.(c_cooldown) = c.(c_cooldown) ∧
  ∃ rows, c'.(c_book) = c.(c_book) ++ rows ∧
    length rows = releases os ∧
    chain c.(c_cooldown)
      (if decide (c.(c_day) ≠ Some day_num)
       then - c.(c_cooldown) else c.(c_last)) lo (release_times rows).
Proof.
  intros Hrun. revert lo.
  induction Hrun as [c|c d tick_data o c1 ticks os c2 Hstep _ IH]; intros lo.
  - intros _. split; [done|]. exists []. by rewrite app_nil_r.
  - simpl. intros (-> & Hlo & Hrest).
    apply core_step_book in Hstep as (Hcd & Hday & Hbook).
    destruct (IH _ Hrest) as (Hcd2 & rows & Hb2 & Hlen & Hchain).
    rewrite Hday in Hchain. rewrite decide_False in Hchain by (by intros ?).
    rewrite Hcd in Hchain. split; [congruence|]. unfold releases. simpl.
    destruct Hbook as [(Ho & Hb1 & Hl1)|(row & Ho & Hb1 & Htime & Hl1 & Hsep)];
      rewrite Ho.
    + exists rows. split; [congruence|]. split; [done|].
      rewrite Hl1 in Hchain. by eapply chain_weaken.
    + exists (row :: rows). split; [|split].
      * rewrite Hb2, Hb1, <- app_assoc. done.
      * simpl. by rewrite Hlen.
      * simpl. rewrite Htime. rewrite Hl1 in Hchain. done.
Qed.

(** ** Starvation closes *)

Lemma net_flag self signals asks_abs st i m :
  net self signals asks_abs = Some st → (i < length signals)%nat →
  st.(n_pos) !! i = Some m → m ≠ 0 → st.(n_aimd) !! i = Some 0.
Proof.
  unfold net. intros H Hi Hm Hne.
  destruct (signed_asks signals asks_abs) as [asks|] eqn:Ea; [|done].
  simpl in H. apply signed_asks_length in Ea.
  apply net_loop_inv in H; [|done|apply Forall_replicate_eq].
  destruct H as [_ _ Hlf [Hb _] _ _ _ _ _ Hflag]. simpl in *.
  rewrite length_replicate in Hlf.
  destruct (lookup_lt_is_Some_2 st.(n_aimd) i) as [f Hf]; [lia|].
  destruct (Hflag i f Hf) as [->|(_ & _ & Hz)]; [done|congruence].
Qed.

Lemma asks_update_body_keep self pnl aimd i j asks asks' :
  Asks.update_body self pnl aimd j asks = Some asks' →
  aimd !! i = Some 0 → asks' !! i = asks !! i.
Proof.
  unfold Asks.update_body. intros H Hi.
  destruct (pnl !! j) as [p|]; simpl in H; [|done].
  destruct (Py.nonzero p); [|by injection H as <-].
  destruct (aimd !! j) as [f|] eqn:Ef; simpl in H; [|done].
  destruct (Z.eqb_spec f 1) as [->|_]; [|by injection H as <-].
  destruct (asks !! j) as [a|]; simpl in H; [|done].
  assert (i ≠ j) by congruence.
  destruct (Py.positive p); apply store_Some in H as [_ ->];
    by rewrite list_lookup_insert_ne.
Qed.

Lemma asks_update_keep self pnl aimd self' i :
  Asks.update self pnl aimd = Some self' → aimd !! i = Some 0 →
  self'.(Asks.asks) !! i = self.(Asks.asks) !! i.
Proof.
  unfold Asks.update. intros H Hi.
  destruct (Py.for_each _ _ _) as [asks'|] eqn:E; [|done].
  simpl in H. injection H as <-. simpl.
  apply (for_each_inv (λ l, l !! i = self.(Asks.asks) !! i)) in E; [done| |done].
  intros j l l' Hl Hb. rewrite <- Hl. by eapply asks_update_body_keep.
Qed.

Section StarvationFacts.
Context {S : Type} {ops : Strategy.Ops S}.
Import Orchestrator.

Implicit Types (self s : Orchestrator.t S) (tick_data : Tick).

Lemma begin_tick_strategies self tick_data day_num s :
  begin_tick self tick_data day_num = Some s →
  length s.(strategies) = length self.(strategies).
Proof.
  unfold begin_tick. intros H.
  assert (E0 : length (strategies
              (set_current_pointer (time_to_seconds tick_data.(Time))
                 (if decide (self.(current_day) ≠ Some day_num)
                  then new_day self tick_data day_num else self)))
            = length self.(strategies)) by (by case_decide).
  rewrite <- E0. remember (set_current_pointer _ _) as s0 eqn:Es0.
  clear Es0 E0.
  destruct (negb (eod_squared_off s0)).
  - destruct (mapM _ _) as [strats|] eqn:Em; simpl in H; [|discriminate H].
    apply length_mapM in Em.
    destruct (snapshot_period s0 =? 0); [discriminate H|].
    destruct (_ =? 0); by injection H as <-.
  - simpl in H.
    destruct (snapshot_period s0 =? 0); [discriminate H|].
    destruct (_ =? 0); by injection H as <-.
Qed.

Lemma get_signals_body_length posn i signals strats signals' strats' :
  get_signals_body posn i (signals, strats) = Some (signals', strats') →
  length signals' = length signals ∧ length strats' = length strats.
Proof.
  unfold get_signals_body. intros H.
  destruct (strats !! i) as [strategy|]; simpl in H; [|done].
  destruct (posn !! i) as [p|]; simpl in H; [|done].
  repeat match type of H with
  | context [Py.store ?j ?v ?l] =>
    let E := fresh "E" in
    destruct (Py.store j v l) eqn:E; simpl in H;
      [apply store_Some in E as [? ->]|try discriminate H]
  | context [if ?b then _ else _] => destruct b; simpl in H
  | context [Strategy.check_long_entry ?x] =>
    destruct (Strategy.check_long_entry x) as [[? ?]|]; simpl in H
  | context [Strategy.check_short_entry ?x] =>
    destruct (Strategy.check_short_entry x) as [[? ?]|]; simpl in H
  | context [Strategy.check_long_exit ?x] =>
    destruct (Strategy.check_long_exit x) as [[? ?]|]; simpl in H
  | context [Strategy.check_short_exit ?x] =>
    destruct (Strategy.check_short_exit x) as [[? ?]|]; simpl in H
  end; try discriminate H; injection H as <- <-;
    by rewrite ?length_insert.
Qed.

Lemma get_signals_length s tick_data signals strats :
  get_signals s tick_data = Some (signals, strats) →
  length signals = s.(num_strats) ∧
  length strats = length s.(strategies).
Proof.
  unfold get_signals. intros H.
  apply (for_each_inv
           (λ st, length st.1 = s.(num_strats) ∧
                  length st.2 = length s.(strategies))) in H; [done| |].
  - intros i [l1 t1] [l2 t2] [E1 E2] Hb. simpl in *.
    apply get_signals_body_length in Hb as [-> ->]. done.
  - simpl. by rewrite length_replicate.
Qed.

Lemma record_body_entries tick_data prev_pos curr_pos j s s' :
  record_body tick_data prev_pos curr_pos j s = Some s' →
  (∀ i, i ≠ j →
     s'.(entry_prices) !! i = s.(entry_prices) !! i ∧
     s'.(entry_times) !! i = s.(entry_times) !! i) ∧
  (∀ q, prev_pos !! j = Some q → q ≠ 0 → curr_pos !! j = Some 0 →
     s'.(entry_prices) !! j = Some 0%Q ∧ s'.(entry_times) !! j = Some None).
Proof.
  unfold record_body. intros H.
  destruct (strategies s !! j) as [strategy|]; simpl in H; [|discriminate H].
  destruct (prev_pos !! j) as [pp|]; simpl in H; [|discriminate H].
  destruct (curr_pos !! j) as [cp|]; simpl in H; [|discriminate H].
  destruct (Z.eqb_spec pp 0) as [Epp|Hpp];
    destruct (Z.eqb_spec cp 0) as [Ecp|Hcp]; simpl in H.
  - injection H as <-. split; [done|]. intros q [= <-]. done.
  - destruct (Strategy.update_position _ _ _) as [st|]; simpl in H;
      [|discriminate H].
    destruct (Py.store j _ (entry_prices s)) as [ep|] eqn:E1; simpl in H;
      [|discriminate H].
    destruct (Py.store j _ (entry_times s)) as [et|] eqn:E2; simpl in H;
      [|discriminate H].
    apply store_Some in E1 as [_ ->]. apply store_Some in E2 as [_ ->].
    injection H as <-. simpl. split.
    + intros i Hi. by rewrite !list_lookup_insert_ne.
    + intros q [= <-]. done.
  - destruct (Strategy.update_position _ _ _) as [st|]; simpl in H;
      [|discriminate H].
    destruct (Py.store j _ (entry_prices s)) as [ep|] eqn:E1; simpl in H;
      [|discriminate H].
    destruct (Py.store j _ (entry_times s)) as [et|] eqn:E2; simpl in H;
      [|discriminate H].
    apply store_Some in E1 as [L1 ->]. apply store_Some in E2 as [L2 ->].
    injection H as <-. simpl. split.
    + intros i Hi. by rewrite !list_lookup_insert_ne.
    + intros _ _ _ _. by rewrite !list_lookup_insert_eq.
  - injection H as <-. split; [done|]. intros q _ _ Hc.
    injection Hc as Hc. contradiction.
Qed.

Lemma record_loop_entries tick_data prev_pos curr_pos n s s' i q :
  Py.for_each (record_body tick_data prev_pos curr_pos) (Py.range n) s
  = Some s' →
  (i < n)%nat → prev_pos !! i = Some q → q ≠ 0 → curr_pos !! i = Some 0 →
  s'.(entry_prices) !! i = Some 0%Q ∧ s'.(entry_times) !! i = Some None.
Proof.
  intros H Hi Hp Hq Hc. revert s' H Hi.
  induction n as [|n IH]; intros s' H Hi; [lia|].
  rewrite range_S, for_each_app in H.
  destruct (Py.for_each _ (Py.range n) s) as [s1|]; simpl in H; [|done].
  destruct (record_body _ _ _ n s1) as [s2|] eqn:Eb; simpl in H; [|done].
  injection H as <-. apply record_body_entries in Eb as [Hother Hself].
  destruct (decide (i = n)) as [->|Hne].
  - by apply (Hself q).
  - destruct (Hother i Hne) as [-> ->]. apply (IH s1); [done|lia].
Qed.

Lemma calc_pnl_value_eq s entry_price exit_price position :
  (_calc_pnl s entry_price exit_price position).1
  = calc_pnl_value s.(tran_cost) entry_price exit_price position.
Proof. reflexivity. Qed.

Lemma pnl_body_list current_price prev_pos final_pos j l s l' s' :
  _compute_strategy_pnl_body current_price prev_pos final_pos j (l, s)
  = Some (l', s') →
  (∀ i, i ≠ j → l' !! i = l !! i) ∧
  (∀ q fp ep, prev_pos !! j = Some q → q ≠ 0 →
     final_pos !! j = Some fp → fp * q ≤ 0 →
     s.(entry_prices) !! j = Some ep →
     l' !! j = Some (calc_pnl_value s.(tran_cost) ep current_price q)).
Proof.
  unfold _compute_strategy_pnl_body. intros H.
  destruct (prev_pos !! j) as [pp|]; simpl in H; [|discriminate H].
  destruct (Z.eqb_spec pp 0) as [Epp|Hpp]; simpl in H.
  { injection H as <- <-. split; [done|]. intros q fp ep Hq.
    injection Hq as Hq. congruence. }
  destruct (final_pos !! j) as [fp|]; simpl in H; [|discriminate H].
  destruct (Z.leb_spec (fp * pp) 0) as [Hle|Hgt].
  - destruct (entry_prices s !! j) as [ep|]; simpl in H; [|discriminate H].
    destruct (Py.store j _ l) as [l1|] eqn:E; simpl in H; [|discriminate H].
    apply store_Some in E as [Hj ->]. injection H as <- <-. split.
    + intros i Hi. by rewrite list_lookup_insert_ne.
    + intros q fp' ep' [= <-] _ _ _ [= <-].
      by rewrite list_lookup_insert_eq.
  - injection H as <- <-. split; [done|].
    intros q fp' ep [= <-] _ [= <-] Hle. lia.
Qed.

Lemma pnl_loop_list current_price prev_pos final_pos n l0 s0 l' s' i q fp ep :
  Py.for_each (_compute_strategy_pnl_body current_price prev_pos final_pos)
    (Py.range n) (l0, s0) = Some (l', s') →
  (i < n)%nat → prev_pos !! i = Some q → q ≠ 0 →
  final_pos !! i = Some fp → fp * q ≤ 0 →
  s0.(entry_prices) !! i = Some ep →
  l' !! i = Some (calc_pnl_value s0.(tran_cost) ep current_price q).
Proof.
  intros H Hi Hp Hq Hf Hfq He. revert l' s' H Hi.
  induction n as [|n IH]; intros l' s' H Hi; [lia|].
  rewrite range_S, for_each_app in H.
  apply bind_Some in H as ([l1 s1] & E1 & H).
  cbn [Py.for_each] in H. apply bind_Some in H as ([l2 s2] & Eb & H).
  injection H as <- <-.
  assert (Hs1 : core_of s1 = core_of s0 ∧
                s1.(entry_prices) = s0.(entry_prices)).
  { apply (for_each_inv
             (λ x, core_of x.2 = core_of s0 ∧
                   x.2.(entry_prices) = s0.(entry_prices))) in E1;
      [done| |done].
    intros k [a b] [c d] [G1 G2] Hb. simpl in *.
    apply pnl_body_core in Hb as (? & ? & _). split; congruence. }
  destruct Hs1 as [Hc1 He1].
  apply pnl_body_list in Eb as [Hother Hself].
  destruct (decide (i = n)) as [->|Hne].
  - rewrite (Hself q fp ep) by (done || congruence).
    by rewrite (f_equal c_tran_cost Hc1 : tran_cost s1 = tran_cost s0).
  - rewrite (Hother i Hne). apply (IH l1 s1); [done|lia].
Qed.

End StarvationFacts.

(** ** [process_tick] returns *)

Lemma for_each_total {A B} (P : B → Prop) (R : A → Prop)
    (body : A → B → option B) xs st :
  Forall R xs →
  (∀ x s, R x → P s → ∃ s', body x s = Some s' ∧ P s') →
  P st → ∃ st', Py.for_each body xs st = Some st' ∧ P st'.
Proof.
  intros HR Hbody. revert st.
  induction HR as [|x xs Hx _ IH]; intros st HP; simpl; [by exists st|].
  destruct (Hbody x st Hx HP) as (s1 & -> & HP1). simpl. by apply IH.
Qed.

Lemma range_bound n : Forall (λ i, (i < n)%nat) (Py.range n).
Proof. apply Forall_forall. intros i Hi. apply elem_of_seq in Hi. lia. Qed.

Lemma store_total {A} i (v : A) l :
  (i < length l)%nat → Py.store i v l = Some (<[i:=v]> l).
Proof. intros Hi. unfold Py.store. by case_decide. Qed.

Lemma update_position_length self signals asks_abs self' r :
  update_position self signals asks_abs = Some (self', r) →
  length self'.(pos) = length self.(pos) ∧
  self'.(Position.num_strats) = self.(Position.num_strats) ∧
  length r.2 = length asks_abs.
Proof.
  intros H. apply update_position_Some in H as (st & Hnet & -> & _ & Hn & ->).
  rewrite normalize_from_length. unfold net in Hnet.
  destruct (signed_asks signals asks_abs) as [asks|]; [|done]. simpl in Hnet.
  apply net_loop_inv in Hnet; [|done|apply Forall_replicate_eq].
  destruct Hnet as [Hlp _ Hlf _ _ _ _ _ _ _]. simpl in *.
  by rewrite Hlp, Hlf, length_replicate.
Qed.

Section Totality.
Context {S : Type} {ops : Strategy.Ops S} (ready : S → Prop)
  (Hops : ops_ready ops ready).
Import Orchestrator.

Implicit Types (self : Orchestrator.t S) (tick_data : Tick).

Lemma get_signals_body_total posn i signals strats :
  (i < length strats)%nat → (i < length posn)%nat →
  (i < length signals)%nat → Forall ready strats →
  ∃ signals' strats',
    get_signals_body posn i (signals, strats) = Some (signals', strats') ∧
    Forall ready strats'.
Proof.
  intros Hs Hp Hg Hr. unfold get_signals_body.
  destruct (lookup_lt_is_Some_2 strats i Hs) as [strategy Es].
  pose proof (Forall_lookup_1 _ _ _ _ Hr Es) as Hready.
  rewrite Es.
  destruct (lookup_lt_is_Some_2 posn i Hp) as [p ->]. simpl.
  assert (Hins : ∀ s, ready s → Forall ready (<[i:=s]> strats)).
  { intros s Hs'. by apply Forall_insert. }
  destruct (p =? 0).
  - destruct (ready_check_long_entry _ _ Hops strategy Hready)
      as (b1 & s1 & -> & R1). simpl.
    destruct b1; [rewrite store_total by done; simpl; eauto|].
    destruct (ready_check_short_entry _ _ Hops s1 R1)
      as (b2 & s2 & -> & R2). simpl.
    destruct b2; rewrite ?store_total by done; simpl; eauto.
  - assert (H1 : ∃ b1 s1,
              (if p >? 0 then Strategy.check_long_exit strategy
               else Some (false, strategy)) = Some (b1, s1) ∧ ready s1).
    { destruct (p >? 0); [|by eauto].
      destruct (ready_check_long_exit _ _ Hops strategy Hready)
        as (b & s & -> & R). eauto. }
    destruct H1 as (b1 & s1 & -> & R1). simpl.
    destruct b1; [rewrite store_total by done; simpl; eauto|].
    assert (H2 : ∃ b2 s2,
              (if p <? 0 then Strategy.check_short_exit s1
               else Some (false, s1)) = Some (b2, s2) ∧ ready s2).
    { destruct (p <? 0); [|by eauto].
      destruct (ready_check_short_exit _ _ Hops s1 R1)
        as (b & s & -> & R). eauto. }
    destruct H2 as (b2 & s2 & -> & R2). simpl.
    destruct b2; rewrite store_total by done; simpl; eauto.
Qed.

Lemma get_signals_total (s : Orchestrator.t S) tick_data :
  well_formed s → Forall ready s.(strategies) →
  ∃ signals strats, get_signals s tick_data = Some (signals, strats) ∧
    length signals = s.(num_strats) ∧ length strats = s.(num_strats) ∧
    Forall ready strats.
Proof.
  intros [Hst _ Hpos _ _ _ _] Hr. unfold get_signals.
  destruct (for_each_total
              (λ st, length st.1 = s.(num_strats) ∧
                     length st.2 = s.(num_strats) ∧ Forall ready st.2)
              (λ i, (i < s.(num_strats))%nat)
              (get_signals_body s.(position).(Position.pos))
              (Py.range (length s.(strategies)))
              (replicate s.(num_strats) 0, s.(strategies)))
    as ([signals strats] & E & H1 & H2 & H3).
  - rewrite Hst. apply range_bound.
  - intros i [l1 t1] Hi (G1 & G2 & G3). simpl in *.
    destruct (get_signals_body_total s.(position).(Position.pos) i l1 t1)
      as (l2 & t2 & E & R); try lia; [done|].
    exists (l2, t2). split; [done|]. simpl.
    apply get_signals_body_length in E as [-> ->]. done.
  - simpl. by rewrite length_replicate.
  - by exists signals, strats.
Qed.

Lemma record_body_total tick_data prev_pos curr_pos i (s : Orchestrator.t S) n :
  length s.(strategies) = n → length s.(entry_prices) = n →
  length s.(entry_times) = n → (i < n)%nat →
  (i < length prev_pos)%nat → (i < length curr_pos)%nat →
  Forall ready s.(strategies) →
  ∃ s', record_body tick_data prev_pos curr_pos i s = Some s' ∧
    length s'.(strategies) = n ∧ length s'.(entry_prices) = n ∧
    length s'.(entry_times) = n ∧ Forall ready s'.(strategies).
Proof.
  intros Hs He Ht Hi Hp Hc Hr. unfold record_body.
  destruct (lookup_lt_is_Some_2 s.(strategies) i) as [strategy Es]; [lia|].
  pose proof (Forall_lookup_1 _ _ _ _ Hr Es) as Hready. rewrite Es.
  destruct (lookup_lt_is_Some_2 prev_pos i Hp) as [pp ->].
  destruct (lookup_lt_is_Some_2 curr_pos i Hc) as [cp ->]. simpl.
  destruct ((pp =? 0) && negb (cp =? 0)).
  - destruct (ready_update_position _ _ Hops strategy cp tick_data.(Price)
                Hready) as (st & -> & R). simpl.
    rewrite !store_total by (simpl; lia). simpl.
    eexists. split; [done|]. simpl. rewrite !length_insert.
    repeat split; try done. by apply Forall_insert.
  - destruct ((cp =? 0) && negb (pp =? 0)); [|by exists s].
    destruct (ready_update_position _ _ Hops strategy 0 0%Q Hready)
      as (st & -> & R). simpl.
    rewrite !store_total by (simpl; lia). simpl.
    eexists. split; [done|]. simpl. rewrite !length_insert.
    repeat split; try done. by apply Forall_insert.
Qed.

Lemma pnl_body_total current_price prev_pos final_pos i l
    (s : Orchestrator.t S) n :
  length l = n → length s.(entry_prices) = n → (i < n)%nat →
  (i < length prev_pos)%nat → (i < length final_pos)%nat →
  ∃ l' s', _compute_strategy_pnl_body current_price prev_pos final_pos i (l, s)
           = Some (l', s') ∧ length l' = n.
Proof.
  intros Hl He Hi Hp Hf. unfold _compute_strategy_pnl_body.
  destruct (lookup_lt_is_Some_2 prev_pos i Hp) as [pp ->].
  destruct (lookup_lt_is_Some_2 final_pos i Hf) as [fp ->].
  destruct (lookup_lt_is_Some_2 s.(entry_prices) i) as [ep ->]; [lia|].
  simpl. destruct (negb (pp =? 0)); [|by exists l, s].
  destruct (fp * pp <=? 0); [|by exists l, s].
  simpl. rewrite store_total by lia. simpl.
  eexists _, _. split; [done|]. by rewrite length_insert.
Qed.

Lemma record_loop_total tick_data prev_pos curr_pos (s : Orchestrator.t S) n :
  length s.(strategies) = n → length s.(entry_prices) = n →
  length s.(entry_times) = n →
  (n ≤ length prev_pos)%nat → (n ≤ length curr_pos)%nat →
  Forall ready s.(strategies) →
  ∃ s', Py.for_each (record_body tick_data prev_pos curr_pos) (Py.range n) s
        = Some s' ∧
    length s'.(strategies) = n ∧ length s'.(entry_prices) = n ∧
    length s'.(entry_times) = n ∧ Forall ready s'.(strategies).
Proof.
  intros Hs He Ht Hp Hc Hr.
  apply (for_each_total
           (λ x : Orchestrator.t S,
              length x.(strategies) = n ∧ length x.(entry_prices) = n ∧
              length x.(entry_times) = n ∧ Forall ready x.(strategies))
           (λ i, (i < n)%nat)); [apply range_bound| |done].
  intros i x Hi (G1 & G2 & G3 & G4).
  apply record_body_total; try done; lia.
Qed.

Lemma pnl_loop_total current_price prev_pos final_pos (s : Orchestrator.t S) :
  length s.(entry_prices) = s.(num_strats) →
  (s.(num_strats) ≤ length prev_pos)%nat →
  (s.(num_strats) ≤ length final_pos)%nat →
  ∃ pnl_list s',
    _compute_strategy_pnl s current_price prev_pos final_pos
    = Some (pnl_list, s') ∧
    length pnl_list = s.(num_strats) ∧ s'.(strategies) = s.(strategies).
Proof.
  intros He Hp Hf. unfold _compute_strategy_pnl.
  destruct (for_each_total
              (λ x : list Q * Orchestrator.t S,
                 length x.1 = s.(num_strats) ∧
                 length x.2.(entry_prices) = s.(num_strats) ∧
                 x.2.(strategies) = s.(strategies))
              (λ i, (i < s.(num_strats))%nat)
              (_compute_strategy_pnl_body current_price prev_pos final_pos)
              (Py.range s.(num_strats))
              (replicate s.(num_strats) 0%Q, s))
    as ([l' s'] & E & G1 & _ & G3).
  - apply range_bound.
  - intros i [l1 s1] Hi (G1 & G2 & G3). simpl in *.
    destruct (pnl_body_total current_price prev_pos final_pos i l1 s1
                s.(num_strats)) as (l2 & s2 & E & Hl2); try done; try lia.
    exists (l2, s2). split; [done|]. simpl. split; [done|].
    pose proof (pnl_body_core _ _ _ _ _ _ _ _ E) as (_ & -> & _).
    split; [done|]. rewrite <- G3. clear -E.
    unfold _compute_strategy_pnl_body in E.
    destruct (prev_pos !! i) as [pp|]; simpl in E; [|discriminate E].
    destruct (negb (pp =? 0)); [|by injection E as _ <-].
    destruct (final_pos !! i) as [fp|]; simpl in E; [|discriminate E].
    destruct (fp * pp <=? 0); [|by injection E as _ <-].
    destruct (entry_prices s1 !! i) as [ep|]; simpl in E; [|discriminate E].
    destruct (Py.store i _ l1); simpl in E; [|discriminate E].
    by injection E as _ <-.
  - simpl. by rewrite length_replicate.
  - by exists l', s'.
Qed.

Lemma trade_intro (s : Orchestrator.t S) tick_data signals strats ledger d
    aimd s2 pnl_list s3 asks' :
  get_signals s tick_data = Some (signals, strats) →
  Position.update_position s.(position) signals
    s.(current_asks).(Asks.asks) = Some (ledger, (d, aimd)) →
  Py.for_each
    (record_body tick_data s.(position).(Position.pos) ledger.(Position.pos))
    (Py.range (length strats))
    (set_trade_backlog (s.(trade_backlog) + d)
       (set_position ledger (set_strategies strats s))) = Some s2 →
  _compute_strategy_pnl s2 tick_data.(Price)
    s.(position).(Position.pos) ledger.(Position.pos)
  = Some (pnl_list, s3) →
  Asks.update s3.(current_asks) pnl_list aimd = Some asks' →
  trade s tick_data
  = Some (set_current_asks asks' s3, Netted signals d aimd pnl_list).
Proof.
  intros H1 H2 H3 H4 H5. unfold trade. rewrite H1. simpl.
  rewrite H2. simpl. rewrite H3. simpl. rewrite H4. simpl.
  by rewrite H5.
Qed.

Lemma trade_total (s : Orchestrator.t S) tick_data :
  well_formed s → Forall ready s.(strategies) →
  ∃ s' out, trade s tick_data = Some (s', out) ∧ well_formed s'.
Proof.
  intros Hwf Hr. pose proof Hwf as [Hst Hled Hpos Hasks Hep Het Hsnap].
  destruct (get_signals_total s tick_data Hwf Hr)
    as (signals & strats & E1 & Hsig & Hstr & Hrs).
  destruct (update_position_total s.(position) signals
              s.(current_asks).(Asks.asks)) as [[ledger [d aimd]] E2];
    [lia|lia|].
  pose proof (update_position_length _ _ _ _ _ E2) as (Hlp & Hln & Hla).
  simpl in Hla.
  destruct (record_loop_total tick_data s.(position).(Position.pos)
              ledger.(Position.pos)
              (set_trade_backlog (s.(trade_backlog) + d)
                 (set_position ledger (set_strategies strats s)))
              s.(num_strats)) as (s2 & E3 & G1 & G2 & G3 & _);
    [done|done|done|lia|lia|done|].
  pose proof (record_loop_core _ _ _ _ _ _ E3) as Hc2.
  pose proof (f_equal c_num_strats Hc2) as Hn2.
  pose proof (f_equal c_asks Hc2) as Ha2.
  pose proof (f_equal c_position Hc2) as Hp2.
  pose proof (f_equal c_snapshot_period Hc2) as Hs2. simpl in Hn2, Ha2, Hp2, Hs2.
  destruct (pnl_loop_total tick_data.(Price) s.(position).(Position.pos)
              ledger.(Position.pos) s2) as (pnl_list & s3 & E4 & Hpl & Hst3);
    [congruence|lia|lia|].
  pose proof (pnl_loop_core _ _ _ _ _ _ E4) as (Hc3 & He3 & Ht3).
  pose proof (f_equal c_num_strats Hc3) as Hn3.
  pose proof (f_equal c_asks Hc3) as Ha3.
  pose proof (f_equal c_position Hc3) as Hp3.
  pose proof (f_equal c_snapshot_period Hc3) as Hs3. simpl in Hn3, Ha3, Hp3, Hs3.
  destruct (asks_update_loop s3.(current_asks) pnl_list aimd
              s3.(current_asks).(Asks.asks)
              (length s3.(current_asks).(Asks.asks)))
    as (asks' & E5 & Hal & _); [rewrite Ha3, Ha2; lia|rewrite Ha3, Ha2; lia|lia|].
  assert (E6 : Asks.update s3.(current_asks) pnl_list aimd
               = Some (Asks.mk s3.(current_asks).(Asks.num_strats) asks'
                         s3.(current_asks).(Asks.reward_add)
                         s3.(current_asks).(Asks.penalty_mult))).
  { unfold Asks.update. by rewrite E5. }
  rewrite <- Hstr in E3.
  eexists _, _. split.
  { eapply trade_intro; eauto. }
  split; simpl.
  - congruence.
  - rewrite Hp3, Hp2. lia.
  - rewrite Hp3, Hp2. lia.
  - rewrite Hal, Ha3, Ha2. lia.
  - congruence.
  - congruence.
  - congruence.
Qed.

Lemma begin_tick_total self tick_data day_num :
  well_formed self →
  ∃ s, begin_tick self tick_data day_num = Some s ∧ well_formed s ∧
    (s.(eod_squared_off) = false → Forall ready s.(strategies)).
Proof.
  intros Hwf. unfold begin_tick.
  assert (Hwf0 : well_formed
            (set_current_pointer (time_to_seconds tick_data.(Time))
               (if decide (self.(current_day) ≠ Some day_num)
                then new_day self tick_data day_num else self))).
  { destruct Hwf. by case_decide; split. }
  remember (set_current_pointer _ _) as s0 eqn:Es0. clear Es0 Hwf.
  assert (H1 : ∃ s1,
            (if negb s0.(eod_squared_off) then
               strategies ←
                 mapM (λ strategy,
                         Strategy.update_indicators strategy tick_data)
                      s0.(strategies);
               Some (set_strategies strategies s0)
             else Some s0) = Some s1 ∧ well_formed s1 ∧
            (s1.(eod_squared_off) = false → Forall ready s1.(strategies))).
  { destruct (eod_squared_off s0) eqn:Ee; simpl.
    { exists s0. split; [done|]. split; [done|]. rewrite Ee. done. }
    destruct (mapM_is_Some_2
                (λ strategy, Strategy.update_indicators strategy tick_data)
                s0.(strategies)) as [strats Em].
    { apply Forall_forall. intros x _.
      destruct (ready_update_indicators _ _ Hops x tick_data) as (x' & Ex & _).
      by exists x'. }
    rewrite Em. simpl. eexists. split; [done|]. split.
    - apply length_mapM in Em. destruct Hwf0. split; simpl; congruence.
    - intros _. simpl. apply mapM_Some_1 in Em.
      apply Forall_lookup. intros j y Hy.
      destruct (Forall2_lookup_r _ _ _ _ _ Em Hy) as (x & _ & Hx).
      destruct (ready_update_indicators _ _ Hops x tick_data)
        as (x' & Ex & R). congruence. }
  destruct H1 as (s1 & -> & Hwf1 & R1). simpl.
  destruct (Z.eqb_spec (snapshot_period s1) 0) as [E|_].
  { by destruct Hwf1. }
  destruct (_ =? 0); eexists; (split; [done|]); [|done].
  split; [|exact R1]. destruct Hwf1. by split.
Qed.

(** [process_tick] returns on every tick, and keeps the engine well
    formed. *)
Lemma process_tick_total self tick_data day_num :
  well_formed self →
  ∃ self' out, process_tick self tick_data day_num = Some (self', out) ∧
    well_formed self'.
Proof.
  intros Hwf. unfold process_tick.
  destruct (begin_tick_total self tick_data day_num Hwf) as (s & -> & Hs & R).
  simpl.
  destruct (negb (trade_backlog s =? 0) && _).
  { eexists _, _. split; [done|]. destruct Hs. by split. }
  destruct (eod_squared_off s) eqn:Ee.
  { by eexists _, _. }
  specialize (R eq_refl).
  destruct (current_pointer s >=? day_length s); [|by apply trade_total].
  unfold square_off.
  destruct (mapM_is_Some_2 Strategy.reset s.(strategies)) as [strats Em].
  { eapply Forall_impl; [exact R|]. intros x Hx. simpl.
    destruct (ready_reset _ _ Hops x Hx) as (x' & Ex & _). by exists x'. }
  simpl. rewrite Em. simpl. eexists _, _. split; [done|].
  apply length_mapM in Em. destruct Hs. split; simpl; try congruence.
  by rewrite length_replicate.
Qed.

Lemma run_total self ticks :
  well_formed self →
  ∃ self' outs, run self ticks = Some (self', outs) ∧ well_formed self'.
Proof.
  revert self. induction ticks as [|[day_num tick_data] ticks IH];
    intros self Hwf; simpl.
  - by exists self, [].
  - destruct (process_tick_total self tick_data day_num Hwf)
      as (s1 & o & -> & Hwf1). simpl.
    destruct (IH s1 Hwf1) as (s2 & os & -> & Hwf2). simpl.
    by eexists _, _.
Qed.

End Totality.

(** Inversion of a constructor call that returned: every section and
    attribute it reads was there. *)
Ltac init_inv H :=
  unfold Orchestrator.init in H;
  repeat match type of H with
  | (?x ≫= _) = Some _ => destruct x eqn:?; simpl in H; [|discriminate H]
  end;
  injection H as <-.

Lemma init_Some {S} (strategies : list S) config self :
  Orchestrator.init strategies config = Some self →
  ∃ engine aimd tran_cost strategy_configs tps sls names,
    config.(Orchestrator.config_engine) = Some engine ∧
    engine.(Orchestrator.engine_aimd) = Some aimd ∧
    Orchestrator.attr_real engine.(Orchestrator.engine_int)
      engine.(Orchestrator.engine_real) "transaction_cost" = Some tran_cost ∧
    config.(Orchestrator.config_strategies) = Some strategy_configs ∧
    mapM Orchestrator.tp strategy_configs = Some tps ∧
    mapM Orchestrator.sl strategy_configs = Some sls ∧
    mapM Orchestrator.name strategy_configs = Some names ∧
    self.(Orchestrator.position)
    = Position.init (length strategies)
        (Orchestrator.get_int engine.(Orchestrator.engine_int)
           "inventory_limit" 100)
        (Orchestrator.get_int engine.(Orchestrator.engine_int)
           "trade_limit" 100) ∧
    self.(Orchestrator.trade_limit)
    = Orchestrator.get_int engine.(Orchestrator.engine_int)
        "trade_limit" 100 ∧
    self.(Orchestrator.cooldown_period)
    = Orchestrator.get_int engine.(Orchestrator.engine_int)
        "cooldown_period" 15 ∧
    self.(Orchestrator.snapshot_period)
    = Orchestrator.get_int engine.(Orchestrator.engine_int)
        "snapshot_period" 300 ∧
    self.(Orchestrator.day_length) = 6 * 3600 ∧
    self.(Orchestrator.strategies) = strategies ∧
    self.(Orchestrator.num_strats) = length strategies ∧
    self.(Orchestrator.current_asks).(Asks.asks)
    = replicate (length strategies)
        (Orchestrator.get_int aimd.1 "initial_ask" 10) ∧
    self.(Orchestrator.entry_prices) = replicate (length strategies) 0%Q ∧
    self.(Orchestrator.entry_times) = replicate (length strategies) None.
Proof.
  unfold Orchestrator.init. intros H.
  destruct (Orchestrator.config_engine config) as [engine|];
    simpl in H; [|done].
  destruct (Orchestrator.engine_aimd engine) as [aimd|] eqn:E1;
    simpl in H; [|done].
  destruct (Orchestrator.attr_real _ _ _) as [tc|] eqn:E2;
    simpl in H; [|done].
  destruct (Orchestrator.config_strategies config) as [scs|];
    simpl in H; [|done].
  destruct (mapM Orchestrator.tp scs) as [tps|] eqn:E3; simpl in H; [|done].
  destruct (mapM Orchestrator.sl scs) as [sls|] eqn:E4; simpl in H; [|done].
  destruct (mapM Orchestrator.name scs) as [names|] eqn:E5;
    simpl in H; [|done].
  injection H as <-. by eexists engine, aimd, tc, scs, tps, sls, names.
Qed.

Lemma init_well_formed {S} (strategies : list S) config self :
  Orchestrator.init strategies config = Some self →
  self.(Orchestrator.snapshot_period) ≠ 0 →
  well_formed self.
Proof.
  intros H Hsnap.
  destruct (init_Some _ _ _ H)
    as (engine & aimd & tc & scs & tps & sls & names & _ & _ & _ & _ & _ & _
        & _ & Hpos & _ & _ & _ & _ & Hst & Hn & Hasks & Hep & Het).
  split; rewrite ?Hst, ?Hn, ?Hpos, ?Hasks, ?Hep, ?Het; simpl;
    by rewrite ?length_replicate.
Qed.

(** Strategies whose operations always return are ready in every
    state. *)
Lemma ops_total_ready {S} (ops : Strategy.Ops S) :
  ops_total ops → ops_ready ops (λ _, True).
Proof.
  intros H. split.
  - intros s tick_data.
    destruct (total_update_indicators _ H s tick_data) as [s' ->]. eauto.
  - intros s _. destruct (total_reset _ H s) as [s' ->]. eauto.
  - intros s p e _. destruct (total_update_position _ H s p e) as [s' ->].
    eauto.
  - intros s _. destruct (total_check_long_entry _ H s) as [[b s'] ->].
    eauto.
  - intros s _. destruct (total_check_short_entry _ H s) as [[b s'] ->].
    eauto.
  - intros s _. destruct (total_check_long_exit _ H s) as [[b s'] ->].
    eauto.
  - intros s _. destruct (total_check_short_exit _ H s) as [[b s'] ->].
    eauto.
Qed.

Lemma base_total : ops_total Strategy.base.
Proof. split; intros; by eexists. Qed.

(** The three example strategies are ready once they have seen a tick. *)
Lemma Strategy_A_ready : ops_ready Strategy.Strategy_A has_tick.
Proof.
  split; unfold has_tick; simpl.
  - intros s tick_data. eexists. split; [done|]. by eexists.
  - intros s Hs. eexists. split; [done|]. done.
  - intros s p e Hs. eexists. split; [done|].
    unfold Strategy.base_update_position. by destruct (negb _).
  - intros s [tick Hs]. unfold Strategy.A_check_long_entry. rewrite Hs.
    simpl. destruct (_ && _); eexists _, _; (split; [done|]);
      rewrite Hs; by eexists.
  - intros s Hs. by eexists _, _.
  - intros s [tick Hs]. unfold Strategy.A_check_long_exit. rewrite Hs.
    destruct (Qeq_bool _ _); [eexists _, _; split; [done|]; by eexists|].
    simpl. destruct (_ || _); eexists _, _; (split; [done|]);
      rewrite Hs; by eexists.
  - intros s Hs. by eexists _, _.
Qed.

Lemma Strategy_B_ready : ops_ready Strategy.Strategy_B has_tick.
Proof.
  split; unfold has_tick; simpl.
  - intros s tick_data. eexists. split; [done|]. by eexists.
  - intros s Hs. eexists. split; [done|]. done.
  - intros s p e Hs. eexists. split; [done|].
    unfold Strategy.base_update_position. by destruct (negb _).
  - intros s Hs. by eexists _, _.
  - intros s [tick Hs]. unfold Strategy.B_check_short_entry. rewrite Hs.
    simpl. destruct (_ && _); eexists _, _; (split; [done|]);
      rewrite Hs; by eexists.
  - intros s Hs. by eexists _, _.
  - intros s [tick Hs]. unfold Strategy.B_check_short_exit. rewrite Hs.
    destruct (Qeq_bool _ _); [eexists _, _; split; [done|]; by eexists|].
    simpl. destruct (_ || _); eexists _, _; (split; [done|]);
      rewrite Hs; by eexists.
Qed.

Lemma Strategy_C_ready :
  ops_ready Strategy.Strategy_C (λ s, has_tick s.(Strategy.C_base)).
Proof.
  split; unfold has_tick; simpl.
  - intros s tick_data. eexists. split; [done|]. by eexists.
  - intros s Hs. eexists. split; [done|]. done.
  - intros s p e Hs. eexists. split; [done|]. simpl.
    unfold Strategy.base_update_position. by destruct (negb _).
  - intros s [tick Hs]. unfold Strategy.C_check_long_entry. rewrite Hs.
    simpl. destruct (_ =? 0); [destruct (_ =? 0)|];
      eexists _, _; (split; [done|]); simpl; rewrite Hs; by eexists.
  - intros s [tick Hs]. unfold Strategy.C_check_short_entry. rewrite Hs.
    simpl. destruct (_ =? 0); [destruct (_ =? 1)|];
      eexists _, _; (split; [done|]); simpl; rewrite Hs; by eexists.
  - intros s [tick Hs]. unfold Strategy.C_lift, Strategy.A_check_long_exit.
    rewrite Hs.
    destruct (Qeq_bool _ _); simpl;
      [eexists _, _; split; [done|]; simpl; by eexists|].
    destruct (_ || _); eexists _, _; (split; [done|]); simpl;
      rewrite Hs; by eexists.
  - intros s [tick Hs]. unfold Strategy.C_lift, Strategy.B_check_short_exit.
    rewrite Hs.
    destruct (Qeq_bool _ _); simpl;
      [eexists _, _; split; [done|]; simpl; by eexists|].
    destruct (_ || _); eexists _, _; (split; [done|]); simpl;
      rewrite Hs; by eexists.
Qed.

(** ** Claims on admission control *)

Section AdmissionClaims.
Context {S : Type} {ops : Strategy.Ops S}.
Import Orchestrator.

(** C5, backlog release and conservation.  For every tick that
    [process_tick] handles: a release fires exactly when the backlog is
    nonzero and [current tick - last release tick > cooldown_period]
    (the last release tick being the new-day baseline [-cooldown_period]
    on the first tick of a day); the released quantity is
    [min(|backlog|, trade_limit)] with the sign of the backlog, it is
    subtracted from the backlog and the tick becomes the last release
    tick.  Over every run, [backlog_after = backlog_before + (net trade
    deltas and end-of-day pushes) - (quantities released)], the deltas
    and pushes being the changes of the ledger's total position.  A
    well-formed engine whose strategies return processes every run to its
    end. *)
Theorem backlog_conservation :
  (∀ (self : Orchestrator.t S) tick_data day_num self' out,
     process_tick self tick_data day_num = Some (self', out) →
     let last :=
       if decide (self.(current_day) ≠ Some day_num)
       then - self.(cooldown_period) else self.(last_trade_time) in
     ((∃ q, out = Released q) ↔
      self.(trade_backlog) ≠ 0 ∧
      self.(cooldown_period) < time_to_seconds tick_data.(Time) - last) ∧
     (∀ q, out = Released q →
        q = Z.min (Z.abs self.(trade_backlog)) self.(trade_limit)
            * Z.sgn self.(trade_backlog) ∧
        self'.(trade_backlog) = self.(trade_backlog) - q ∧
        self'.(last_trade_time) = time_to_seconds tick_data.(Time))) ∧
  (∀ (self : Orchestrator.t S) ticks self' outs,
     run self ticks = Some (self', outs) →
     self'.(trade_backlog)
     = self.(trade_backlog) + Py.sum (net_delta <$> outs)
       - Py.sum (released <$> outs) ∧
     Py.sum self'.(position).(Position.pos)
     = Py.sum self.(position).(Position.pos) + Py.sum (net_delta <$> outs)) ∧
  (∀ (self : Orchestrator.t S) ticks,
     ops_total ops → well_formed self → is_Some (run self ticks)).
Proof.
  split; [|split].
  - intros self tick_data day_num self' out H.
    apply process_tick_core_step, core_step_release in H. exact H.
  - intros self ticks self' outs H.
    apply run_core_run, core_run_backlog in H. exact H.
  - intros self ticks Hops Hwf.
    destruct (run_total _ (ops_total_ready _ Hops) self ticks Hwf)
      as (self' & outs & -> & _).
    by eexists.
Qed.

End AdmissionClaims.

Lemma backlog_conservation_witness :
  ∃ engine self' outs,
    demo_engine = Some engine ∧
    Orchestrator.run (ops := Strategy.Strategy_A) engine demo_ticks
    = Some (self', outs) ∧
    outs = [ Orchestrator.Netted [1] 10 [0] [0%Q];
             Orchestrator.Released 5; Orchestrator.Released 5 ] ∧
    self'.(Orchestrator.trade_backlog)
    = engine.(Orchestrator.trade_backlog) + Py.sum (net_delta <$> outs)
      - Py.sum (released <$> outs).
Proof.
  destruct demo_engine as [engine|] eqn:Ee; [|by vm_compute in Ee].
  destruct (Orchestrator.run (ops := Strategy.Strategy_A) engine demo_ticks)
    as [[self' outs]|] eqn:Er.
  - exists engine, self', outs. split; [done|]. split; [done|]. split.
    + vm_compute in Ee. injection Ee as <-. vm_compute in Er.
      by injection Er as _ <-.
    + apply (proj1 (proj2 (backlog_conservation
                                (ops := Strategy.Strategy_A)))
               engine demo_ticks self' outs Er).
  - vm_compute in Ee. injection Ee as <-. vm_compute in Er. discriminate Er.
Defined.

(** ** Claims on the cooldown *)

Section CooldownClaims.
Context {S : Type} {ops : Strategy.Ops S}.
Import Orchestrator.

(** C6, amended: within one day, that is over ticks that carry the same
    day number and whose times are nondecreasing, every release appends
    one row to the trade book, and any two of these rows, in order, have
    timestamps at least [cooldown_period + 1] apart.  A well-formed engine
    whose strategies return processes such a run to its end. *)
Theorem cooldown_separation (self : Orchestrator.t S) day_num lo ticks :
  day_ticks day_num lo ticks →
  (∀ self' outs, run self ticks = Some (self', outs) →
     ∃ rows, self'.(trade_book) = self.(trade_book) ++ rows ∧
       length rows = releases outs ∧
       separated self.(cooldown_period) (release_times rows)) ∧
  (ops_total ops → well_formed self → is_Some (run self ticks)).
Proof.
  intros Hday. split.
  - intros self' outs Hrun. apply run_core_run in Hrun.
    destruct (core_run_chain day_num _ _ _ _ lo Hrun Hday)
      as (_ & rows & Hbook & Hlen & Hchain).
    exists rows. split; [done|]. split; [done|].
    by eapply chain_separated.
  - intros Hops Hwf.
    destruct (run_total _ (ops_total_ready _ Hops) self ticks Hwf)
      as (self' & outs & -> & _).
    by eexists.
Qed.

End CooldownClaims.

(** C6 as stated fails across a day boundary: the new-day initialisation
    resets the last release tick to [-cooldown_period], so the second slice
    of the backlog is released at 00:00:01 of day 2 although the first was
    released at 23:59:59 of day 1. *)
Lemma cooldown_counterexample :
  ¬ (∀ (S : Type) (ops : Strategy.Ops S) (self : Orchestrator.t S)
       ticks self' outs rows,
       Orchestrator.run self ticks = Some (self', outs) →
       self'.(Orchestrator.trade_book)
       = self.(Orchestrator.trade_book) ++ rows →
       separated self.(Orchestrator.cooldown_period) (release_times rows)).
Proof.
  intros H.
  destruct demo_engine as [engine|] eqn:Ee; [|by vm_compute in Ee].
  destruct (Orchestrator.run (ops := Strategy.Strategy_A) engine demo_ticks)
    as [[self' outs]|] eqn:Er.
  - specialize (H _ Strategy.Strategy_A engine demo_ticks self' outs
                  self'.(Orchestrator.trade_book) Er).
    vm_compute in Ee. injection Ee as <-. vm_compute in Er.
    injection Er as <- <-.
    specialize (H eq_refl 0%nat 1%nat 86399 1 ltac:(lia) eq_refl eq_refl).
    simpl in H. lia.
  - vm_compute in Ee. injection Ee as <-. vm_compute in Er. discriminate Er.
Qed.

Lemma cooldown_separation_witness :
  ∃ engine self' outs rows,
    demo_engine = Some engine ∧
    Orchestrator.run (ops := Strategy.Strategy_A) engine demo_day_ticks
    = Some (self', outs) ∧
    self'.(Orchestrator.trade_book)
    = engine.(Orchestrator.trade_book) ++ rows ∧
    length rows = 2%nat ∧
    separated engine.(Orchestrator.cooldown_period) (release_times rows).
Proof.
  destruct demo_engine as [engine|] eqn:Ee; [|by vm_compute in Ee].
  destruct (Orchestrator.run (ops := Strategy.Strategy_A) engine
              demo_day_ticks) as [[self' outs]|] eqn:Er.
  - destruct (cooldown_separation (ops := Strategy.Strategy_A)
                engine 1 0 demo_day_ticks) as [Hsep0 _].
    + vm_compute. intuition discriminate.
    + destruct (Hsep0 self' outs Er) as (rows & Hbook & Hlen & Hsep).
      exists engine, self', outs, rows.
      split; [done|]. split; [done|]. split; [done|]. split; [|done].
      rewrite Hlen. vm_compute in Ee. injection Ee as <-. vm_compute in Er.
      by injection Er as _ <-.
  - vm_compute in Ee. injection Ee as <-. vm_compute in Er. discriminate Er.
Defined.

(** ** Claims on the configuration *)

Lemma attr_real_insert (di : gmap string Z) dr key v :
  key ≠ "transaction_cost" →
  Orchestrator.attr_real (<[key:=v]> di) dr "transaction_cost"
  = Orchestrator.attr_real di dr "transaction_cost".
Proof.
  intros Hne. unfold Orchestrator.attr_real.
  by rewrite lookup_insert_ne.
Qed.

Lemma mapM_is_Some_Forall {A B} (f : A → option B) (l : list A) :
  is_Some (mapM f l) ↔ Forall (λ x, is_Some (f x)) l.
Proof. apply mapM_is_Some. Qed.

Lemma init_returns {S} (strategies : list S) config :
  is_Some (Orchestrator.init strategies config) ↔ config_complete config.
Proof.
  split.
  - intros [self H].
    destruct (init_Some _ _ _ H)
      as (engine & aimd & tc & scs & tps & sls & names & E1 & E2 & E3 & E4
          & E5 & E6 & E7 & _).
    exists engine, aimd, scs. split; [done|]. split; [done|].
    split; [by rewrite E3|]. split; [done|].
    assert (H5 : is_Some (mapM Orchestrator.tp scs)) by (by rewrite E5).
    assert (H6 : is_Some (mapM Orchestrator.sl scs)) by (by rewrite E6).
    assert (H7 : is_Some (mapM Orchestrator.name scs)) by (by rewrite E7).
    apply mapM_is_Some_Forall in H5, H6, H7.
    apply Forall_forall. intros c Hc.
    rewrite Forall_forall in H5, H6, H7. auto.
  - intros (engine & aimd & scs & E1 & E2 & [tc E3] & E4 & Hall).
    unfold Orchestrator.init. rewrite E1. simpl. rewrite E2. simpl.
    rewrite E3. simpl. rewrite E4. simpl.
    destruct (proj2 (mapM_is_Some_Forall Orchestrator.tp scs)) as [tps ->].
    { eapply Forall_impl; [exact Hall|]. by intros c (_ & H & _). }
    destruct (proj2 (mapM_is_Some_Forall Orchestrator.sl scs)) as [sls ->].
    { eapply Forall_impl; [exact Hall|]. by intros c (_ & _ & H). }
    destruct (proj2 (mapM_is_Some_Forall Orchestrator.name scs))
      as [names ->].
    { eapply Forall_impl; [exact Hall|]. by intros c (H & _ & _). }
    simpl. by eexists.
Qed.

Lemma with_limits_complete config engine inventory_limit trade_limit
    cooldown_period :
  config.(Orchestrator.config_engine) = Some engine →
  config_complete
    (with_limits config engine inventory_limit trade_limit cooldown_period)
  ↔ config_complete config.
Proof.
  intros E. unfold config_complete, with_limits. simpl. split.
  - intros (engine' & aimd & scs & [= <-] & E2 & E3 & E4 & Hall).
    simpl in E2, E3. rewrite !attr_real_insert in E3 by done.
    by exists engine, aimd, scs.
  - intros (engine' & aimd & scs & E1 & E2 & E3 & E4 & Hall).
    rewrite E in E1. injection E1 as <-.
    eexists _, aimd, scs. split; [done|]. simpl.
    rewrite !attr_real_insert by done. done.
Qed.

Section ConfigurationClaims.
Context {S : Type} {ops : Strategy.Ops S}.
Import Orchestrator.

(** C7, amended: construction does not validate [inventory_limit],
    [trade_limit] or [cooldown_period].  [Position.__init__] stores every
    pair of limits.  [Orchestrator.__init__] returns exactly when the
    configuration has the sections and attributes it reads without a
    default ([engine], [engine.aimd], [engine.transaction_cost],
    [strategies], and [name], [tp] and [sl] of every strategy entry);
    replacing the three values by any others, positive or not, does not
    change whether it returns, and it stores them (or the defaults 100,
    100 and 15) unchanged.  No tick fails because of them either: when
    the snapshot period is not zero and the operations of the strategies
    return once their indicators have been refreshed, the constructed
    engine processes every run to its end. *)
Theorem construction_accepts_limits (strategies : list S) (config : Config) :
  (∀ n inventory_limit trade_limit,
     (Position.init n inventory_limit trade_limit).(Position.inventory_limit)
     = inventory_limit ∧
     (Position.init n inventory_limit trade_limit).(Position.trade_limit)
     = trade_limit) ∧
  (is_Some (init strategies config) ↔ config_complete config) ∧
  (∀ engine (limit trades cooldown : Z),
     config.(config_engine) = Some engine →
     let config' := with_limits config engine limit trades cooldown in
     (is_Some (init strategies config') ↔ is_Some (init strategies config)) ∧
     ∀ self, init strategies config' = Some self →
       self.(position).(Position.inventory_limit) = limit ∧
       self.(trade_limit) = trades ∧
       self.(cooldown_period) = cooldown) ∧
  (∀ engine self, init strategies config = Some self →
     config.(config_engine) = Some engine →
     self.(position).(Position.inventory_limit)
     = get_int engine.(engine_int) "inventory_limit" 100 ∧
     self.(trade_limit) = get_int engine.(engine_int) "trade_limit" 100 ∧
     self.(cooldown_period)
     = get_int engine.(engine_int) "cooldown_period" 15) ∧
  (∀ ready self ticks, init strategies config = Some self →
     ops_ready ops ready →
     self.(snapshot_period) ≠ 0 →
     is_Some (run self ticks)).
Proof.
  split; [done|]. split; [apply init_returns|]. split; [|split].
  - intros engine il tl cp E config'. split.
    + rewrite !init_returns. by apply with_limits_complete.
    + intros self H.
      destruct (init_Some _ _ _ H)
        as (engine' & aimd & tc & scs & tps & sls & names & [= <-] & _ & _
            & _ & _ & _ & _ & -> & -> & -> & _).
      simpl. unfold get_int.
      rewrite lookup_insert_eq.
      rewrite lookup_insert_ne, lookup_insert_eq by done.
      by rewrite !lookup_insert_ne, lookup_insert_eq by done.
  - intros engine self H E.
    destruct (init_Some _ _ _ H)
      as (engine' & aimd & tc & scs & tps & sls & names & E' & _ & _
          & _ & _ & _ & _ & -> & -> & -> & _).
    rewrite E in E'. by injection E' as <-.
  - intros ready self ticks Hinit Hops Hsnap.
    pose proof (init_well_formed strategies config self Hinit Hsnap) as Hwf.
    destruct (run_total ready Hops self ticks Hwf) as (self' & outs & -> & _).
    by eexists.
Qed.


End ConfigurationClaims.

(** C7 as stated fails: with [inventory_limit = -5], [trade_limit = 0] and
    [cooldown_period = -1] the constructor returns an engine. *)
Lemma construction_counterexample :
  ¬ (∀ (S : Type) (strategies : list S) (config : Orchestrator.Config)
       engine,
       config.(Orchestrator.config_engine) = Some engine →
       Orchestrator.get_int engine.(Orchestrator.engine_int)
         "inventory_limit" 100 ≤ 0 ∨
       Orchestrator.get_int engine.(Orchestrator.engine_int)
         "trade_limit" 100 ≤ 0 ∨
       Orchestrator.get_int engine.(Orchestrator.engine_int)
         "cooldown_period" 15 ≤ 0 →
       Orchestrator.init strategies config = None).
Proof.
  intros H.
  specialize (H _ [Strategy.init 1 1] nonpositive_config _ eq_refl).
  assert (Hget : Orchestrator.get_int
            {[ "inventory_limit" := -5; "trade_limit" := 0;
               "cooldown_period" := -1 ]} "inventory_limit" 100
            ≤ 0) by (vm_compute; discriminate).
  specialize (H (or_introl Hget)). vm_compute in H. discriminate H.
Qed.

Lemma construction_accepts_limits_witness :
  ∃ self,
    Orchestrator.init [Strategy.init 1 1] nonpositive_config = Some self ∧
    self.(Orchestrator.position).(Position.inventory_limit) = -5 ∧
    self.(Orchestrator.trade_limit) = 0 ∧
    self.(Orchestrator.cooldown_period) = -1 ∧
    is_Some (Orchestrator.run (ops := Strategy.Strategy_A) self demo_ticks).
Proof.
  destruct (Orchestrator.init [Strategy.init 1 1] nonpositive_config)
    as [self|] eqn:E; [|by vm_compute in E].
  exists self. split; [done|].
  destruct (construction_accepts_limits (ops := Strategy.Strategy_A)
              [Strategy.init 1 1] nonpositive_config)
    as (_ & _ & _ & Hvalues & Hrun).
  destruct (Hvalues _ self E eq_refl) as (H1 & H2 & H3).
  split; [exact H1|]. split; [exact H2|]. split; [exact H3|].
  apply (Hrun has_tick self demo_ticks E Strategy_A_ready).
  vm_compute in E. injection E as <-. vm_compute. discriminate.
Defined.



(** ** Claims on starvation closes *)

Section StarvationClaims.
Context {S : Type} {ops : Strategy.Ops S}.
Import Orchestrator.

(** C10, starvation close: in a tick that [process_tick] handles by a
    netting pass, take a slot whose position was nonzero, which the loop
    of [update_position] left nonzero (neither the square-off rule nor
    the direction lock flattened it), and which [normalize] clamped to
    zero.  Then the closed flag returned for the slot is 0; a PnL is
    computed for the slot (from the entry price already cleared to 0);
    its entry price and entry time are cleared; and [Asks.update] leaves
    its ask unchanged. *)
Theorem starvation_close (self : Orchestrator.t S) tick_data day_num self'
    signals d aimd pnl_list (i : nat) (q m : Z) st :
  process_tick self tick_data day_num
  = Some (self', Netted signals d aimd pnl_list) →
  (i < length self.(strategies))%nat → (i < self.(num_strats))%nat →
  self.(position).(Position.pos) !! i = Some q → q ≠ 0 →
  Position.net self.(position) signals self.(current_asks).(Asks.asks)
  = Some st →
  st.(n_pos) !! i = Some m → m ≠ 0 →
  self'.(position).(Position.pos) !! i = Some 0 →
  aimd !! i = Some 0 ∧
  pnl_list !! i
  = Some (calc_pnl_value self.(tran_cost) 0 tick_data.(Price) q) ∧
  self'.(entry_prices) !! i = Some 0%Q ∧
  self'.(entry_times) !! i = Some None ∧
  self'.(current_asks).(Asks.asks) !! i
  = self.(current_asks).(Asks.asks) !! i.
Proof.
  intros H Hi Hn Hq Hq0 Hnet Hm Hm0 Hfinal.
  apply process_tick_inv in H as (s & Hs & Hcases).
  pose proof (begin_tick_strategies _ _ _ _ Hs) as Hlen.
  apply begin_tick_core in Hs.
  pose proof (f_equal c_position Hs) as Epos.
  pose proof (f_equal c_asks Hs) as Easks.
  pose proof (f_equal c_tran_cost Hs) as Etc.
  pose proof (f_equal c_num_strats Hs) as Ens. simpl in *. clear Hs.
  destruct Hcases as [(_ & [=] & _)|[(_ & _ & [=] & _)|
                      [(_ & _ & _ & Hsq)|(_ & _ & _ & Htr)]]].
  { apply square_off_inv in Hsq as [[=] _]. }
  apply trade_inv in Htr
    as (signals0 & strats & ledger & d0 & aimd0 & s2 & pnl0 & s3 & asks'
        & Hsig & Hup & Hrec & Hpnl & Hask & [= <- <- <- <-] & ->).
  apply get_signals_length in Hsig as [Hsl Hstl].
  rewrite Epos, Easks in Hup. rewrite Epos in Hrec, Hpnl.
  pose proof (update_position_Some _ _ _ _ _ Hup)
    as (st' & Hnet' & _ & _ & _ & [= _ ->]).
  rewrite Hnet in Hnet'. injection Hnet' as <-.
  pose proof (record_loop_core _ _ _ _ _ _ Hrec) as Hc2.
  pose proof (pnl_loop_core _ _ _ _ _ _ Hpnl) as (Hc3 & Hep3 & Het3).
  assert (Eledger : position s3 = ledger).
  { rewrite (f_equal c_position Hc3 : position s3 = position s2).
    by rewrite (f_equal c_position Hc2 : position s2 = _). }
  change (position (set_current_asks asks' s3)) with (position s3) in Hfinal.
  rewrite Eledger in Hfinal.
  assert (Hflag : n_aimd st !! i = Some 0).
  { eapply net_flag; eauto. lia. }
  destruct (record_loop_entries _ _ _ _ _ _ i q Hrec) as [Hep Het];
    [lia|done|done|done|].
  split; [done|]. split; [|split; [|split]].
  - unfold _compute_strategy_pnl in Hpnl.
    rewrite (pnl_loop_list _ _ _ _ _ _ _ _ i q 0 0%Q Hpnl);
      [|rewrite (f_equal c_num_strats Hc2 : num_strats s2 = _); simpl; lia
       |done|done|done|lia|done].
    do 2 f_equal.
    rewrite (f_equal c_tran_cost Hc2 : tran_cost s2 = _). done.
  - change (entry_prices (set_current_asks asks' s3)) with (entry_prices s3).
    by rewrite Hep3.
  - change (entry_times (set_current_asks asks' s3)) with (entry_times s3).
    by rewrite Het3.
  - change (current_asks (set_current_asks asks' s3)) with asks'.
    rewrite (asks_update_keep _ _ _ _ i Hask Hflag).
    rewrite (f_equal c_asks Hc3 : current_asks s3 = current_asks s2).
    rewrite (f_equal c_asks Hc2 : current_asks s2 = _). simpl.
    by rewrite Easks.
Qed.

End StarvationClaims.

Lemma starvation_close_witness :
  ∃ engine self',
    starvation_engine = Some engine ∧
    Orchestrator.process_tick (ops := Strategy.Strategy_A) engine
      (mk_tick (mk_time 2 0 0) 100) 1
    = Some (self', Orchestrator.Netted [1; 0] 0 [0; 0] [0%Q; (999000 # 1000)%Q]) ∧
    self'.(Orchestrator.position).(Position.pos) = [10; 0] ∧
    self'.(Orchestrator.entry_prices) !! 1%nat = Some 0%Q ∧
    self'.(Orchestrator.entry_times) !! 1%nat = Some None ∧
    self'.(Orchestrator.current_asks).(Asks.asks) !! 1%nat = Some 10.
Proof.
  destruct starvation_engine as [engine|] eqn:Ee; [|by vm_compute in Ee].
  destruct (Orchestrator.process_tick (ops := Strategy.Strategy_A) engine
              (mk_tick (mk_time 2 0 0) 100) 1) as [[self' out]|] eqn:Ep.
  - assert (Hout : out = Orchestrator.Netted [1; 0] 0 [0; 0] [0%Q; (999000 # 1000)%Q] ∧
                   self'.(Orchestrator.position).(Position.pos) = [10; 0] ∧
                   engine.(Orchestrator.current_asks).(Asks.asks) = [10; 10] ∧
                   engine.(Orchestrator.position)
                   = Position.mk 2 10 100 [0; 10] ∧
                   length engine.(Orchestrator.strategies) = 2%nat ∧
                   engine.(Orchestrator.num_strats) = 2%nat).
    { vm_compute in Ee. injection Ee as <-. vm_compute in Ep.
      injection Ep as <- <-. repeat split. }
    destruct Hout as (-> & Hpos & Hasks & Hledger & Hlen & Hnum).
    exists engine, self'. split; [done|]. split; [done|]. split; [done|].
    destruct (starvation_close (ops := Strategy.Strategy_A) engine
                (mk_tick (mk_time 2 0 0) 100) 1 self'
                [1; 0] 0 [0; 0] [0%Q; (999000 # 1000)%Q] 1%nat 10 10
                (mk_netting [10; 10] [10; 0] [0; 0] 1) Ep)
      as (_ & _ & Hep & Het & Hask).
    + lia.
    + lia.
    + by rewrite Hledger.
    + lia.
    + by rewrite Hledger, Hasks.
    + done.
    + lia.
    + by rewrite Hpos.
    + split; [done|]. split; [done|]. by rewrite Hask, Hasks.
  - vm_compute in Ee. injection Ee as <-. vm_compute in Ep. discriminate Ep.
Defined.
(** * Further properties of the code *)

(** ** [utils.py]: times of day *)

Lemma datetime_time_Some h m s t :
  datetime_time h m s = Some t ↔
  (0 ≤ h ≤ 23 ∧ 0 ≤ m ≤ 59 ∧ 0 ≤ s ≤ 59) ∧ t = mk_time h m s.
Proof.
  unfold datetime_time.
  destruct (Z.leb_spec 0 h), (Z.leb_spec h 23), (Z.leb_spec 0 m),
    (Z.leb_spec m 59), (Z.leb_spec 0 s), (Z.leb_spec s 59); simpl;
    (split; [intros [= <-] || intros [=] | intros [? ->]]);
    try done; try lia.
Qed.

(** X1: [seconds_to_time] returns exactly on the seconds of one day,
    [0 <= seconds < 86400], and raises on every other integer (the
    constructor [datetime.time] rejects the hour count); the time it
    returns is a time of day that [time_to_seconds] maps back to
    [seconds]. *)
Theorem seconds_to_time_inverse (seconds : Z) :
  (is_Some (seconds_to_time seconds) ↔ 0 ≤ seconds < 86400) ∧
  (∀ t, seconds_to_time seconds = Some t →
     valid_time t ∧ time_to_seconds t = seconds).
Proof.
  unfold seconds_to_time. split.
  - split.
    + intros [t Ht]. apply datetime_time_Some in Ht as [H _].
      revert H. Z.div_mod_to_equations. lia.
    + intros H. eexists. apply datetime_time_Some. split; [|done].
      Z.div_mod_to_equations. lia.
  - intros t Ht. apply datetime_time_Some in Ht as [H ->].
    split; [exact H|]. unfold time_to_seconds. simpl.
    Z.div_mod_to_equations. lia.
Qed.

(** X2: [seconds_to_time] undoes [time_to_seconds] on every time of day, and
    [time_to_seconds] of a time of day lies in [0, 86400). *)
Theorem time_to_seconds_inverse (t : time) :
  valid_time t →
  0 ≤ time_to_seconds t < 86400 ∧
  seconds_to_time (time_to_seconds t) = Some t.
Proof.
  destruct t as [h m s]. unfold valid_time, time_to_seconds. simpl.
  intros H. split; [lia|].
  unfold seconds_to_time. apply datetime_time_Some. split.
  - Z.div_mod_to_equations. lia.
  - f_equal; Z.div_mod_to_equations; lia.
Qed.

Lemma time_to_seconds_inverse_witness :
  valid_time (mk_time 23 59 59) ∧
  seconds_to_time (time_to_seconds (mk_time 23 59 59))
  = Some (mk_time 23 59 59).
Proof.
  assert (H : valid_time (mk_time 23 59 59)) by (unfold valid_time; simpl; lia).
  split; [exact H|]. exact (proj2 (time_to_seconds_inverse _ H)).
Defined.

Lemma seconds_to_time_Some (seconds : Z) :
  0 ≤ seconds < 86400 →
  seconds_to_time seconds
  = Some (mk_time (seconds / 3600) (seconds mod 3600 / 60)
            (seconds mod 3600 mod 60)).
Proof.
  intros H. unfold seconds_to_time. apply datetime_time_Some.
  split; [|done]. Z.div_mod_to_equations. lia.
Qed.

(** X3: [_calc_holding_duration] returns the string ["00:00:00"] when there
    is no entry time.  For two times of day it returns a [datetime.time]
    (not a string) that counts the seconds between them, whichever of the
    two is the later one; it never raises on them. *)
Theorem holding_duration_symmetric {S} (self : Orchestrator.t S)
    (exit_time entry_time : time) :
  valid_time exit_time → valid_time entry_time →
  Orchestrator._calc_holding_duration self exit_time None
  = Some (Orchestrator.Duration_str "00:00:00") ∧
  ∃ t,
    Orchestrator._calc_holding_duration self exit_time (Some entry_time)
    = Some (Orchestrator.Duration_time t) ∧
    Orchestrator._calc_holding_duration self entry_time (Some exit_time)
    = Some (Orchestrator.Duration_time t) ∧
    valid_time t ∧
    time_to_seconds t
    = Z.abs (time_to_seconds exit_time - time_to_seconds entry_time).
Proof.
  intros Hx He. split; [reflexivity|].
  unfold Orchestrator._calc_holding_duration.
  set (d := Z.abs (time_to_seconds exit_time - time_to_seconds entry_time)).
  assert (Hd : 0 ≤ d < 86400).
  { destruct exit_time, entry_time.
    unfold d, valid_time, time_to_seconds in *. simpl in *. lia. }
  assert (Hsym : Z.abs (time_to_seconds entry_time - time_to_seconds exit_time)
                 = d) by (unfold d; lia).
  rewrite Hsym.
  rewrite (seconds_to_time_Some d Hd). eexists. do 2 (split; [reflexivity|]).
  split.
  - unfold valid_time. simpl. Z.div_mod_to_equations. lia.
  - unfold time_to_seconds. simpl. Z.div_mod_to_equations. lia.
Qed.

Lemma holding_duration_symmetric_witness :
  ∃ engine t,
    demo_engine = Some engine ∧
    Orchestrator._calc_holding_duration engine (mk_time 10 0 5)
      (Some (mk_time 9 59 55))
    = Some (Orchestrator.Duration_time t) ∧
    time_to_seconds t = 10.
Proof.
  assert (Hx : valid_time (mk_time 10 0 5)) by (unfold valid_time; simpl; lia).
  assert (He : valid_time (mk_time 9 59 55)) by (unfold valid_time; simpl; lia).
  destruct demo_engine as [engine|] eqn:E; [|vm_compute in E; discriminate E].
  destruct (holding_duration_symmetric engine _ _ Hx He)
    as [_ [t [H1 [_ [_ H2]]]]].
  exists engine, t. split; [reflexivity|]. split; [exact H1|exact H2].
Defined.

(** ** [utils.py]: the configuration cache *)

Section GetCfgFacts.
Context {C : Type}.
Implicit Types (fs : string → Utils.file C) (CACHE : gmap string (option C)).

(** X4: Once [get_cfg] has returned a configuration for a path, every later
    call for that path returns the same configuration and leaves the
    cache as it is, whatever the file holds by then (the file is not read
    again); and the call changed the cache under no other path. *)
Theorem get_cfg_cached fs CACHE file_path CACHE' cfg :
  Utils.get_cfg fs CACHE file_path = (CACHE', Some cfg) →
  (∀ fs', Utils.get_cfg fs' CACHE' file_path = (CACHE', Some cfg)) ∧
  (∀ other, other ≠ file_path → CACHE' !! other = CACHE !! other).
Proof.
  unfold Utils.get_cfg, Utils._load_cfg. intros H.
  assert (CACHE' !! file_path = Some (Some cfg) ∧
          ∀ other, other ≠ file_path → CACHE' !! other = CACHE !! other)
    as [Hhit Hother].
  { destruct (CACHE !! file_path) as [[c|]|] eqn:E; simpl in H.
    - rewrite E in H. by injection H as <- <-.
    - rewrite E in H. discriminate H.
    - destruct (fs file_path) as [| |c]; simpl in H; try discriminate H;
        rewrite lookup_insert_eq in H; try discriminate H.
      injection H as <- <-. split; [apply lookup_insert_eq|].
      intros other Ho. by apply lookup_insert_ne. }
  split; [|exact Hother].
  intros fs'. rewrite Hhit. simpl. by rewrite Hhit.
Qed.

(** X5: A file that is not YAML poisons the cache: the first call for its
    path raises and stores [None] under the path, and from then on every
    call for the path raises, also after the file has been repaired.  A
    missing file does not: [open] raises before anything is stored, the
    cache is unchanged, and a later call loads the file once it
    exists. *)
Theorem get_cfg_failure fs CACHE file_path :
  CACHE !! file_path = None →
  (fs file_path = Utils.Malformed →
   ∃ CACHE', Utils.get_cfg fs CACHE file_path = (CACHE', None) ∧
     CACHE' !! file_path = Some None ∧
     ∀ fs', Utils.get_cfg fs' CACHE' file_path = (CACHE', None)) ∧
  (fs file_path = Utils.Missing →
   Utils.get_cfg fs CACHE file_path = (CACHE, None) ∧
   ∀ fs' cfg, fs' file_path = Utils.Content cfg →
     (Utils.get_cfg fs' CACHE file_path).2 = Some cfg).
Proof.
  intros E. unfold Utils.get_cfg, Utils._load_cfg. rewrite E. split.
  - intros ->. simpl.
    assert (Hl : <[file_path:=None]> CACHE !! file_path = Some (@None C))
      by apply lookup_insert_eq.
    exists (<[file_path:=None]> CACHE). rewrite !Hl. done.
  - intros ->. simpl. split; [reflexivity|].
    intros fs' cfg ->. simpl.
    assert (Hl : <[file_path:=Some cfg]> CACHE !! file_path = Some (Some cfg))
      by apply lookup_insert_eq.
    by rewrite Hl.
Qed.

End GetCfgFacts.

Lemma get_cfg_cached_witness :
  Utils.get_cfg repaired_fs ∅ "config.yaml"
  = ({[ "config.yaml" := Some 7 ]}, Some 7) ∧
  Utils.get_cfg broken_fs {[ "config.yaml" := Some 7 ]} "config.yaml"
  = ({[ "config.yaml" := Some 7 ]}, Some 7).
Proof.
  assert (H : Utils.get_cfg repaired_fs ∅ "config.yaml"
              = ({[ "config.yaml" := Some 7 ]}, Some 7)) by reflexivity.
  split; [exact H|].
  exact (proj1 (get_cfg_cached repaired_fs ∅ "config.yaml" _ 7 H) broken_fs).
Defined.

Lemma get_cfg_failure_witness :
  ∃ CACHE',
    Utils.get_cfg broken_fs ∅ "config.yaml" = (CACHE', None) ∧
    Utils.get_cfg repaired_fs CACHE' "config.yaml" = (CACHE', None).
Proof.
  destruct (proj1 (get_cfg_failure broken_fs ∅ "config.yaml"
                     (lookup_empty _)) eq_refl)
    as [CACHE' [H1 [_ H2]]].
  exists CACHE'. split; [exact H1|apply H2].
Defined.

(** ** [aimd.py]: further properties of the ledger *)

Lemma normalize_from_id L cur l :
  Py.sum (Z.abs <$> l) ≤ L - cur → normalize_from L cur l = l.
Proof.
  revert cur. induction l as [|p l IH]; intros cur H; [done|].
  rewrite fmap_cons in H. cbn [Py.sum foldr] in H.
  assert (0 ≤ Py.sum (Z.abs <$> l)).
  { clear. induction l as [|q l IH]; [done|].
    rewrite fmap_cons. cbn [Py.sum foldr]. unfold Py.sum in IH. lia. }
  unfold Py.sum in *. cbn [normalize_from]. zcase.
  f_equal. apply IH. lia.
Qed.

(** X6: [normalize] with a limit that is not negative leaves a list unchanged
    exactly when its absolute values sum to at most the limit, and it is
    idempotent: on its own result it changes nothing. *)
Theorem normalize_idempotent (self : Position.t) (positions : list Z) :
  0 ≤ self.(inventory_limit) →
  (normalize self positions = Some positions ↔
   Py.sum (Z.abs <$> positions) ≤ self.(inventory_limit)) ∧
  ∃ positions', normalize self positions = Some positions' ∧
    normalize self positions' = Some positions'.
Proof.
  intros HL. rewrite !normalize_eq. split.
  - split.
    + intros [= H]. rewrite <- H.
      pose proof (normalize_from_cap self.(inventory_limit) 0 positions).
      lia.
    + intros H. f_equal. apply normalize_from_id. lia.
  - eexists. split; [reflexivity|]. rewrite normalize_eq. f_equal.
    apply normalize_from_id.
    pose proof (normalize_from_cap self.(inventory_limit) 0 positions).
    lia.
Qed.

Lemma normalize_idempotent_witness :
  normalize (Position.init 3 100 100) [80; -90; 5] = Some [80; -20; 0] ∧
  normalize (Position.init 3 100 100) [80; -20; 0] = Some [80; -20; 0].
Proof.
  assert (HL : 0 ≤ (Position.init 3 100 100).(inventory_limit))
    by (simpl; lia).
  destruct (normalize_idempotent (Position.init 3 100 100) [80; -90; 5] HL)
    as [_ [l [H1 H2]]].
  assert (l = [80; -20; 0]) as -> by (vm_compute in H1; congruence).
  split; [exact H1|exact H2].
Defined.

Lemma store_middle_at {A} (pre : list A) x v l n :
  length pre = n → Py.store n v (pre ++ x :: l) = Some (pre ++ v :: l).
Proof. intros <-. apply store_middle. Qed.

Lemma update_body_middle pre_p pre_a pre_f p a l_p l_a l_f d :
  length pre_a = length pre_p → length pre_f = length pre_p →
  ∃ a',
    update_body (length pre_p)
      (mk_netting (pre_p ++ p :: l_p) (pre_a ++ a :: l_a)
         (pre_f ++ 0 :: l_f) d)
    = Some (mk_netting (pre_p ++ (slot_rule d a p).1.1 :: l_p)
              (pre_a ++ a' :: l_a)
              (pre_f ++ flag_of (slot_rule d a p).1.2 :: l_f)
              (slot_rule d a p).2).
Proof.
  intros Ha Hf. unfold update_body, slot_rule.
  rewrite (list_lookup_middle pre_a l_a a) by done.
  rewrite (list_lookup_middle pre_p l_p p) by done. simpl.
  rewrite !(store_middle_at pre_f) by done.
  rewrite !(store_middle_at pre_p) by done.
  rewrite !(store_middle_at pre_a) by done. simpl.
  destruct (a * p <? 0); simpl; [by eexists|].
  destruct (d =? 0); simpl; [by eexists|].
  destruct ((a * d >? 0) && (p =? 0)); simpl; [by eexists|].
  destruct (p * d <? 0); simpl; by eexists.
Qed.

Lemma net_loop_from pre_p pre_a pre_f l_p l_a d :
  length pre_a = length pre_p → length pre_f = length pre_p →
  length l_a = length l_p →
  ∃ asks' d',
    Py.for_each update_body (seq (length pre_p) (length l_p))
      (mk_netting (pre_p ++ l_p) (pre_a ++ l_a)
         (pre_f ++ replicate (length l_p) 0) d)
    = Some (mk_netting (pre_p ++ (fst <$> net_from d l_a l_p)) asks'
              (pre_f ++ (flag_of ∘ snd <$> net_from d l_a l_p)) d').
Proof.
  revert pre_p pre_a pre_f l_a d.
  induction l_p as [|p l_p IH]; intros pre_p pre_a pre_f l_a d Ha Hf Hl.
  - destruct l_a; [|done]. simpl. by eexists _, _.
  - destruct l_a as [|a l_a]; [done|]. cbn [length seq Py.for_each replicate].
    destruct (update_body_middle pre_p pre_a pre_f p a l_p l_a
                (replicate (length l_p) 0) d Ha Hf) as [a' ->].
    cbn [mbind option_bind].
    destruct (IH (pre_p ++ [(slot_rule d a p).1.1]) (pre_a ++ [a'])
                (pre_f ++ [flag_of (slot_rule d a p).1.2]) l_a
                (slot_rule d a p).2) as (asks' & d' & E).
    { rewrite !length_app. simpl. lia. }
    { rewrite !length_app. simpl. lia. }
    { simpl in Hl. lia. }
    rewrite length_app, Nat.add_1_r, <- !app_assoc in E. simpl in E.
    rewrite E. cbn [net_from fmap list_fmap]. simpl. by eexists _, _.
Qed.

Lemma signed_asks_lookup signals asks_abs asks i a s :
  signed_asks signals asks_abs = Some asks →
  asks_abs !! i = Some a → signals !! i = Some s →
  asks !! i = Some (a * s).
Proof.
  intros H Ha Hs. apply mapM_Some_1 in H.
  assert (Hi : Py.range (length asks_abs) !! i = Some i).
  { unfold Py.range. apply lookup_seq. split; [done|].
    by apply lookup_lt_Some in Ha. }
  destruct (Forall2_lookup_l _ _ _ _ _ H Hi) as (y & Hy & Hf).
  rewrite Ha, Hs in Hf. simpl in Hf. congruence.
Qed.

(** [update_position] as a function of lists, for one signal and one ask
    per slot. *)
Lemma update_position_net_from self signals asks_abs :
  length signals = length self.(pos) →
  length asks_abs = length self.(pos) →
  ∃ asks,
    signed_asks signals asks_abs = Some asks ∧
    length asks = length self.(pos) ∧
    update_position self signals asks_abs
    = Some (let pos' := normalize_from self.(inventory_limit) 0
                          (fst <$> net_from 0 asks self.(pos)) in
            (Position.mk self.(num_strats) self.(inventory_limit)
               self.(trade_limit) pos',
             (Py.sum pos' - Py.sum self.(pos),
              flag_of ∘ snd <$> net_from 0 asks self.(pos)))).
Proof.
  intros Hs Ha.
  destruct (signed_asks_total signals asks_abs) as [asks E]; [lia|].
  pose proof (signed_asks_length _ _ _ E) as Hlen.
  exists asks. split; [done|]. split; [lia|].
  unfold update_position, net. rewrite E. cbn [mbind option_bind].
  destruct (net_loop_from [] [] [] self.(pos) asks 0) as (asks' & d' & El);
    [done|done|lia|].
  simpl in El. unfold Py.range. rewrite Hs, Ha. rewrite El.
  cbn [mbind option_bind n_pos n_aimd]. rewrite normalize_eq. done.
Qed.

Lemma net_from_length d asks pos :
  length asks = length pos → length (net_from d asks pos) = length pos.
Proof.
  revert d pos. induction asks as [|a asks IH]; intros d [|p pos] H;
    try done. simpl. f_equal. apply IH. simpl in H. lia.
Qed.

Lemma net_from_lookup d asks pos i a p :
  -1 ≤ d ≤ 1 → asks !! i = Some a → pos !! i = Some p →
  ∃ d', -1 ≤ d' ≤ 1 ∧
    net_from d asks pos !! i
    = Some ((slot_rule d' a p).1.1, (slot_rule d' a p).1.2).
Proof.
  revert d pos i. induction asks as [|a0 asks IH]; intros d pos i Hd Ha Hp;
    [done|].
  destruct pos as [|p0 pos]; [done|].
  destruct i as [|i]; simpl in *.
  - injection Ha as ->. injection Hp as ->. by exists d.
  - apply IH; [|done|done]. apply (slot_rule_facts d a0 p0 Hd).
Qed.

Lemma net_from_no_signal d pos :
  Forall (λ p, 0 ≤ p * d) pos → one_sided pos →
  net_from d (replicate (length pos) 0) pos = (λ p, (p, false)) <$> pos.
Proof.
  revert d. induction pos as [|p pos IH]; intros d Hd Hs; [done|].
  apply Forall_cons in Hd as [Hp Hd].
  assert (Hs' : one_sided pos).
  { destruct Hs as [Hs|Hs]; apply Forall_cons in Hs as [_ Hs];
      [by left|by right]. }
  cbn [length replicate net_from]. unfold slot_rule.
  replace (0 * p <? 0) with false by (symmetry; zcase).
  destruct (Z.eqb_spec d 0) as [->|Hne]; cbn [negb].
  - cbn [fst snd]. rewrite Z.add_0_r.
    replace (0 >? 0) with false by done. replace (0 <? 0) with false by done.
    rewrite fmap_cons. f_equal. apply IH; [|done].
    destruct Hs as [Hs|Hs]; apply Forall_cons in Hs as [Hp0 Hs];
      eapply Forall_impl; try exact Hs; intros q Hq; simpl in Hq;
      repeat zcase.
  - replace ((0 * d >? 0) && (p =? 0)) with false by done.
    replace (p * d <? 0) with false by (symmetry; zcase).
    cbn [fst snd]. rewrite fmap_cons. f_equal. by apply IH.
Qed.

Lemma signed_asks_no_signal signals asks_abs asks :
  Forall (eq 0) signals → length signals = length asks_abs →
  signed_asks signals asks_abs = Some asks →
  asks = replicate (length asks_abs) 0.
Proof.
  intros Hz Hlen H. symmetry. apply replicate_as_Forall.
  split; [by eapply signed_asks_length|].
  apply Forall_lookup. intros i x Hx.
  pose proof (signed_asks_length _ _ _ H) as Hl.
  destruct (lookup_lt_is_Some_2 asks_abs i) as [a Ha].
  { apply lookup_lt_Some in Hx. lia. }
  destruct (lookup_lt_is_Some_2 signals i) as [s Hs].
  { apply lookup_lt_Some in Ha. lia. }
  rewrite (signed_asks_lookup _ _ _ _ _ _ H Ha Hs) in Hx.
  injection Hx as <-.
  rewrite Forall_lookup in Hz. rewrite <- (Hz i s Hs). lia.
Qed.

(** X7: A call of [update_position] in which no slot signals is a no-op on a
    book that is one-sided and within the inventory limit (as every book
    that [update_position] itself produced is): the positions stay as
    they are, the net trade quantity is 0 and no closed flag is raised,
    whatever the ask sizes. *)
Theorem update_position_no_signal (self : Position.t)
    (signals asks_abs : list Z) :
  Forall (eq 0) signals →
  length signals = length self.(pos) →
  length asks_abs = length self.(pos) →
  one_sided self.(pos) →
  Py.sum (Z.abs <$> self.(pos)) ≤ self.(inventory_limit) →
  update_position self signals asks_abs
  = Some (self, (0, replicate (length self.(pos)) 0)).
Proof.
  intros Hz Hs Ha Hside Hcap.
  destruct (update_position_net_from self signals asks_abs Hs Ha)
    as (asks & E & _ & ->).
  apply signed_asks_no_signal in E; [|done|lia]. subst asks. rewrite Ha.
  rewrite net_from_no_signal; [|by apply Forall_forall; intros; lia|done].
  rewrite <- !list_fmap_compose.
  replace (fst ∘ (λ p : Z, (p, false)) <$> self.(pos)) with self.(pos)
    by (symmetry; apply list_fmap_id).
  rewrite normalize_from_id by lia. cbn zeta.
  rewrite Z.sub_diag. destruct self as [n L T l]. simpl. do 3 f_equal.
  clear. induction l as [|p l IH]; [done|]. simpl. by f_equal.
Qed.

Lemma update_position_no_signal_witness :
  update_position (Position.mk 3 100 100 [5; 0; 20]) [0; 0; 0] [10; 43; 6]
  = Some (Position.mk 3 100 100 [5; 0; 20], (0, [0; 0; 0])).
Proof.
  apply (update_position_no_signal (Position.mk 3 100 100 [5; 0; 20])
           [0; 0; 0] [10; 43; 6]).
  - repeat constructor.
  - reflexivity.
  - reflexivity.
  - left. simpl. repeat constructor; lia.
  - vm_compute. discriminate.
Defined.

Lemma slot_rule_flag d a p :
  let r := slot_rule d a p in
  (r.1.2 = true → p ≠ 0 ∧ r.1.1 = 0) ∧ (a * p < 0 → r.1.2 = true).
Proof.
  unfold slot_rule. repeat zcase; simpl; repeat zcase; simpl;
    split; intros; try done; try lia.
Qed.

Lemma normalize_from_lookup L l i q :
  0 ≤ L → l !! i = Some q →
  ∃ q', normalize_from L 0 l !! i = Some q' ∧ 0 ≤ q' * q ∧
    Z.abs q' ≤ Z.abs q.
Proof.
  intros HL Hq.
  pose proof (normalize_from_sign L 0 l ltac:(lia)) as HF.
  destruct (Forall2_lookup_r _ _ _ _ _ HF Hq) as (q' & Hq' & H).
  by exists q'.
Qed.

Lemma update_position_slot (self self' : Position.t)
    (signals asks_abs aimd : list Z) (d : Z) i p a s :
  0 ≤ self.(inventory_limit) →
  length signals = length self.(pos) →
  length asks_abs = length self.(pos) →
  update_position self signals asks_abs = Some (self', (d, aimd)) →
  self.(pos) !! i = Some p → asks_abs !! i = Some a →
  signals !! i = Some s →
  ∃ d' p',
    let r := slot_rule d' (a * s) p in
    -1 ≤ d' ≤ 1 ∧ self'.(pos) !! i = Some p' ∧
    0 ≤ p' * r.1.1 ∧ Z.abs p' ≤ Z.abs r.1.1 ∧
    aimd !! i = Some (flag_of r.1.2).
Proof.
  intros HL Hs Ha H Hp Hai Hsi.
  destruct (update_position_net_from self signals asks_abs Hs Ha)
    as (asks & E & Hlen & Eu).
  rewrite Eu in H. cbn zeta in H. injection H as <- _ <-.
  pose proof (signed_asks_lookup _ _ _ _ _ _ E Hai Hsi) as Hask.
  destruct (net_from_lookup 0 asks self.(pos) i _ p ltac:(lia) Hask Hp)
    as (d' & Hd' & Hn).
  assert (Hq : (fst <$> net_from 0 asks self.(pos)) !! i
               = Some (slot_rule d' (a * s) p).1.1)
    by (by rewrite list_lookup_fmap, Hn).
  destruct (normalize_from_lookup self.(inventory_limit) _ i _ HL Hq)
    as (p' & Hp' & Hsign & Habs).
  exists d', p'. cbn zeta. split; [done|]. split; [done|].
  split; [done|]. split; [done|]. by rewrite list_lookup_fmap, Hn.
Qed.

(** X8: The closed flags of [update_position], for a limit that is not
    negative and one signal and one ask per slot.  Every flag is 0 or 1.
    A flag is raised only for a slot that held a position and ends the
    call flat.  A slot whose signed ask opposes its position is always
    closed in full, with its flag raised, whatever the direction lock and
    the limit. *)
Theorem closed_flag_rule (self self' : Position.t)
    (signals asks_abs aimd : list Z) (d : Z) :
  0 ≤ self.(inventory_limit) →
  length signals = length self.(pos) →
  length asks_abs = length self.(pos) →
  update_position self signals asks_abs = Some (self', (d, aimd)) →
  ∀ i p a s,
    self.(pos) !! i = Some p → asks_abs !! i = Some a →
    signals !! i = Some s →
    ∃ p' f, self'.(pos) !! i = Some p' ∧ aimd !! i = Some f ∧
      (f = 0 ∨ f = 1) ∧
      (f = 1 → p ≠ 0 ∧ p' = 0) ∧
      (a * s * p < 0 → f = 1).
Proof.
  intros HL Hs Ha H i p a s Hp Hai Hsi.
  destruct (update_position_slot _ _ _ _ _ _ i p a s HL Hs Ha H Hp Hai Hsi)
    as (d' & p' & _ & Hp' & _ & Habs & Hf).
  pose proof (slot_rule_flag d' (a * s) p) as [Hf1 Hf2].
  exists p', (flag_of (slot_rule d' (a * s) p).1.2).
  split; [done|]. split; [done|].
  split; [destruct (slot_rule d' (a * s) p).1.2; auto|].
  split.
  - intros Hflag. destruct (slot_rule d' (a * s) p).1.2 eqn:Er; [|done].
    destruct (Hf1 eq_refl) as [? Hz]. split; [done|]. lia.
  - intros Hopp. by rewrite Hf2.
Qed.

Lemma closed_flag_rule_witness :
  ∃ self' d aimd,
    update_position (Position.mk 2 100 100 [0; 7]) [1; -1] [10; 10]
    = Some (self', (d, aimd)) ∧
    self'.(pos) !! 1%nat = Some 0 ∧ aimd !! 1%nat = Some 1.
Proof.
  assert (E : update_position (Position.mk 2 100 100 [0; 7]) [1; -1] [10; 10]
              = Some (Position.mk 2 100 100 [10; 0], (3, [0; 1])))
    by reflexivity.
  destruct (closed_flag_rule (Position.mk 2 100 100 [0; 7])
              (Position.mk 2 100 100 [10; 0]) [1; -1] [10; 10] [0; 1] 3
              ltac:(simpl; lia) eq_refl eq_refl E 1%nat 7 10 (-1)
              eq_refl eq_refl eq_refl)
    as (p' & f & H1 & H2 & _ & H3 & H4).
  specialize (H4 ltac:(lia)). destruct (H3 H4) as [_ ->]. subst f.
  eexists _, _, _. split; [exact E|]. split; [exact H1|exact H2].
Defined.

(** ** [aimd.py]: rounding to binary64, and bounds on the ask sizes *)

Lemma pow2_pos k : (0 < Py.pow2 k)%Q.
Proof. by apply Qpower_0_lt. Qed.

Lemma floor_bounds (x : Q) :
  (inject_Z (Qfloor x) <= x)%Q ∧ (x < inject_Z (Qfloor x) + 1)%Q.
Proof.
  split; [apply Qfloor_le|].
  pose proof (Qlt_floor x) as H. rewrite inject_Z_plus in H. exact H.
Qed.

Lemma nearest_even_bounds (x : Q) :
  Qfloor x ≤ Py.nearest_even x ≤ Qfloor x + 1 ∧
  (Py.nearest_even x = Qfloor x + 1 → (inject_Z (Qfloor x) < x)%Q).
Proof.
  unfold Py.nearest_even.
  destruct (x - inject_Z (Qfloor x) ?= 1 # 2)%Q eqn:E.
  - apply Qeq_alt in E.
    destruct (Z.even _); (split; [lia|]); intros H; [lia|lra].
  - split; [lia|]. intros H. lia.
  - apply Qgt_alt in E. split; [lia|]. intros _. lra.
Qed.

Lemma nearest_even_le (x : Q) (K : Z) :
  (x <= inject_Z K)%Q → Py.nearest_even x ≤ K.
Proof.
  intros Hx. destruct (nearest_even_bounds x) as [[_ H1] H2].
  assert (Hlo : Qfloor x ≤ K).
  { rewrite <- (Qfloor_Z K). by apply Qfloor_resp_le. }
  destruct (decide (Py.nearest_even x = Qfloor x + 1)) as [E|E]; [|lia].
  specialize (H2 E). assert (Qfloor x < K); [|lia].
  rewrite Zlt_Qlt. lra.
Qed.

Lemma nearest_even_ge (x : Q) (K : Z) :
  (inject_Z K <= x)%Q → K ≤ Py.nearest_even x.
Proof.
  intros Hx. destruct (nearest_even_bounds x) as [[H1 _] _].
  assert (Hlo : K ≤ Qfloor x).
  { rewrite <- (Qfloor_Z K). by apply Qfloor_resp_le. }
  lia.
Qed.

Lemma pow2_Z (k : Z) : 0 ≤ k → (Py.pow2 k == inject_Z (2 ^ k))%Q.
Proof. intros Hk. unfold Py.pow2. by rewrite Zpower_Qpower. Qed.

Lemma pow2_plus (j k : Z) : (Py.pow2 (j + k) == Py.pow2 j * Py.pow2 k)%Q.
Proof. unfold Py.pow2. by apply Qpower_plus. Qed.

Lemma pow2_le_inv (j k : Z) : (Py.pow2 j <= Py.pow2 k)%Q → j ≤ k.
Proof. intros H. by apply (Qpower_le_compat_l_inv 2). Qed.

(** [ilog2] does not overshoot. *)
Lemma ilog2_le (x : Q) : (0 < x)%Q → (Py.pow2 (Py.ilog2 x) <= x)%Q.
Proof.
  intros Hx. unfold Py.ilog2.
  destruct (Qle_bool _ x) eqn:E; [by apply Qle_bool_iff|]. clear E.
  assert (Hn : 0 < Qnum x).
  { unfold Qlt in Hx. simpl in Hx. lia. }
  pose proof (Z.log2_spec (Qnum x) Hn) as [Hn1 _].
  pose proof (Z.log2_spec (Z.pos (Qden x)) ltac:(lia)) as [_ Hd2].
  pose proof (Z.log2_nonneg (Qnum x)).
  pose proof (Z.log2_nonneg (Z.pos (Qden x))).
  set (A := 2 ^ Z.log2 (Qnum x)) in *.
  set (B := 2 ^ Z.succ (Z.log2 (Z.pos (Qden x)))) in *.
  assert (HA : 0 < A) by (subst A; apply Z.pow_pos_nonneg; lia).
  assert (HB : 0 < B) by lia.
  assert (Ek : (Py.pow2 (Z.log2 (Qnum x) - Z.log2 (Z.pos (Qden x)) - 1)
                == inject_Z A / inject_Z B)%Q).
  { replace (Z.log2 (Qnum x) - Z.log2 (Z.pos (Qden x)) - 1)
      with (Z.log2 (Qnum x) + - Z.succ (Z.log2 (Z.pos (Qden x)))) by lia.
    rewrite pow2_plus. unfold Py.pow2 at 2. rewrite Qpower_opp.
    fold (Py.pow2 (Z.succ (Z.log2 (Z.pos (Qden x))))).
    rewrite !pow2_Z by lia. reflexivity. }
  rewrite Ek. apply Qle_shift_div_r; [unfold Qlt; simpl; lia|].
  destruct x as [n d]. unfold Qle, Qmult. simpl in *. nia.
Qed.

(** A float does not round across a small integer: when [0 <= v <= a]
    for an integer [a] of at most 53 bits, the float nearest to [v] is
    between 0 and [a] as well. *)
Lemma b64_le (v : Q) (a : Z) :
  0 ≤ a ≤ 2 ^ 53 → (0 <= v)%Q → (v <= inject_Z a)%Q →
  (0 <= Py.b64 v)%Q ∧ (Py.b64 v <= inject_Z a)%Q.
Proof.
  intros Ha Hv Hva. unfold Py.b64.
  destruct (Qeq_bool v 0) eqn:Ez.
  { split; [apply Qle_refl|]. unfold Qle. simpl. lia. }
  assert (Hpos : (0 < v)%Q).
  { apply Qeq_bool_neq in Ez. lra. }
  assert (Habs : (Qabs v == v)%Q) by (by apply Qabs_pos).
  pose proof (ilog2_le (Qabs v) ltac:(lra)) as Hlog.
  set (il := Py.ilog2 (Qabs v)) in *.
  set (e := Z.max (il - 52) (-1074)).
  pose proof (pow2_pos e) as Hp.
  assert (H53 : (Py.pow2 53 == inject_Z (2 ^ 53))%Q) by (by apply pow2_Z).
  assert (Hil : il ≤ 53).
  { apply pow2_le_inv. rewrite H53.
    assert (inject_Z a <= inject_Z (2 ^ 53))%Q by (rewrite <- Zle_Qle; lia).
    lra. }
  assert (HK : ∃ K, (inject_Z a == inject_Z K * Py.pow2 e)%Q).
  { destruct (decide (e ≤ 0)) as [He|He].
    - exists (a * 2 ^ (- e)). rewrite inject_Z_mult, <- pow2_Z by lia.
      rewrite <- Qmult_assoc, <- pow2_plus.
      replace (- e + e) with 0 by lia. unfold Py.pow2. simpl. lra.
    - assert (il = 53) by lia. assert (e = 1) by lia.
      assert (inject_Z (2 ^ 53) <= inject_Z a)%Q.
      { rewrite <- H53. replace 53 with il by done. lra. }
      rewrite <- Zle_Qle in *. assert (a = 2 ^ 53) by lia. subst a.
      exists (2 ^ 52). replace e with 1 by done. reflexivity. }
  destruct HK as [K HK].
  assert (Hdiv : (v / Py.pow2 e <= inject_Z K)%Q).
  { apply Qle_shift_div_r; [done|]. lra. }
  assert (Hdiv0 : (inject_Z 0 <= v / Py.pow2 e)%Q).
  { apply Qle_shift_div_l; [done|]. change (inject_Z 0) with 0%Q. lra. }
  apply nearest_even_le in Hdiv. apply nearest_even_ge in Hdiv0.
  rewrite Zle_Qle in Hdiv, Hdiv0. change (inject_Z 0) with 0%Q in Hdiv0.
  split.
  - apply Qmult_le_0_compat; lra.
  - rewrite HK. apply Qmult_le_compat_r; lra.
Qed.

Lemma int_le (x : Q) (a : Z) :
  (0 <= x)%Q → (x <= inject_Z a)%Q → 0 ≤ Py.int x ≤ a.
Proof.
  intros H0 Ha. unfold Py.int.
  assert (Hn : 0 ≤ Qnum x).
  { unfold Qle in H0. simpl in H0. lia. }
  rewrite Z.quot_div_nonneg by lia.
  replace (Qnum x `div` Z.pos (Qden x)) with (Qfloor x) by (by destruct x).
  split.
  - rewrite <- (Qfloor_Z 0). by apply Qfloor_resp_le.
  - rewrite <- (Qfloor_Z a). by apply Qfloor_resp_le.
Qed.

(** Below [2^53] the product [int(ask * penalty_mult)] with a
    multiplier between 0 and 1 does not exceed the ask. *)
Lemma int_mul_le (a : Z) (y : Py.number) :
  0 ≤ a ≤ 2 ^ 53 → shrinking y → 0 ≤ Py.int_mul a y ≤ a.
Proof.
  intros Ha Hy. destruct y as [k|y]; simpl in *; [nia|].
  destruct Hy as [Hy0 Hy1].
  destruct (b64_le y 1 ltac:(lia) Hy0 Hy1) as [Y0 Y1].
  destruct (b64_le (inject_Z a) a Ha) as [A0 A1].
  { unfold Qle. simpl. lia. }
  { apply Qle_refl. }
  change (inject_Z 1) with 1%Q in Y1.
  destruct (b64_le (Py.b64 (inject_Z a) * Py.b64 y) a Ha) as [P0 P1].
  { by apply Qmult_le_0_compat. }
  { nra. }
  by apply int_le.
Qed.

Lemma ilog2_lt (x : Q) : (0 < x)%Q → (x < Py.pow2 (Py.ilog2 x + 1))%Q.
Proof.
  intros Hx. unfold Py.ilog2.
  destruct (Qle_bool _ x) eqn:E.
  2:{ replace (Z.log2 (Qnum x) - Z.log2 (Z.pos (Qden x)) - 1 + 1)
        with (Z.log2 (Qnum x) - Z.log2 (Z.pos (Qden x))) by lia.
      apply Qnot_le_lt. intros H. apply Qle_bool_iff in H. congruence. }
  clear E.
  assert (Hn : 0 < Qnum x).
  { unfold Qlt in Hx. simpl in Hx. lia. }
  pose proof (Z.log2_spec (Qnum x) Hn) as [_ Hn2].
  pose proof (Z.log2_spec (Z.pos (Qden x)) ltac:(lia)) as [Hd1 _].
  pose proof (Z.log2_nonneg (Qnum x)).
  pose proof (Z.log2_nonneg (Z.pos (Qden x))).
  set (A := 2 ^ Z.succ (Z.log2 (Qnum x))) in *.
  set (B := 2 ^ Z.log2 (Z.pos (Qden x))) in *.
  assert (HB : 0 < B) by (subst B; apply Z.pow_pos_nonneg; lia).
  assert (Ek : (Py.pow2 (Z.log2 (Qnum x) - Z.log2 (Z.pos (Qden x)) + 1)
                == inject_Z A / inject_Z B)%Q).
  { replace (Z.log2 (Qnum x) - Z.log2 (Z.pos (Qden x)) + 1)
      with (Z.succ (Z.log2 (Qnum x)) + - Z.log2 (Z.pos (Qden x))) by lia.
    rewrite pow2_plus. unfold Py.pow2 at 2. rewrite Qpower_opp.
    fold (Py.pow2 (Z.log2 (Z.pos (Qden x)))).
    rewrite !pow2_Z by lia. reflexivity. }
  rewrite Ek. apply Qlt_shift_div_l; [unfold Qlt; simpl; lia|].
  destruct x as [n d]. unfold Qlt, Qmult. simpl in *. nia.
Qed.

Lemma nearest_even_half (x : Q) :
  (Qabs (inject_Z (Py.nearest_even x) - x) <= 1 # 2)%Q.
Proof.
  destruct (floor_bounds x) as [H1 H2]. unfold Py.nearest_even.
  apply Qabs_Qle_condition.
  destruct (x - inject_Z (Qfloor x) ?= 1 # 2)%Q eqn:E.
  - apply Qeq_alt in E.
    destruct (Z.even _); rewrite ?inject_Z_plus;
      change (inject_Z 1) with 1%Q; split; lra.
  - apply Qlt_alt in E. split; lra.
  - apply Qgt_alt in E. rewrite inject_Z_plus.
    change (inject_Z 1) with 1%Q. split; lra.
Qed.

(** [b64 x] is a multiple of [2^e] at a distance of at most half of
    [2^e] from [x], where [2^(e+52) <= |x| < 2^(e+53)] unless [e] is the
    least exponent [-1074]: [x] is rounded to 53 significant bits, or to
    a subnormal number. *)
Lemma b64_nearest (x : Q) :
  ¬ (x == 0)%Q →
  ∃ (e m : Z),
    (Py.b64 x == inject_Z m * Py.pow2 e)%Q ∧
    (Qabs (Py.b64 x - x) <= Py.pow2 e / 2)%Q ∧
    -1074 ≤ e ∧
    (Qabs x < Py.pow2 (e + 53))%Q ∧
    (e ≠ -1074 → (Py.pow2 (e + 52) <= Qabs x)%Q).
Proof.
  intros Hx. unfold Py.b64.
  destruct (Qeq_bool x 0) eqn:Ez; [by apply Qeq_bool_iff in Ez|].
  assert (Hpos : (0 < Qabs x)%Q).
  { destruct (Q_dec x 0) as [[H|H]|H]; [| |done].
    - rewrite Qabs_neg by lra. lra.
    - rewrite Qabs_pos by lra. done. }
  pose proof (ilog2_le _ Hpos) as Hlo. pose proof (ilog2_lt _ Hpos) as Hhi.
  set (il := Py.ilog2 (Qabs x)) in *.
  set (e := Z.max (il - 52) (-1074)).
  pose proof (pow2_pos e) as Hp.
  exists e, (Py.nearest_even (x / Py.pow2 e)).
  split; [reflexivity|]. split; [|split; [lia|split]].
  - pose proof (nearest_even_half (x / Py.pow2 e)) as Hh.
    assert (E : (inject_Z (Py.nearest_even (x / Py.pow2 e)) * Py.pow2 e - x
                 == (inject_Z (Py.nearest_even (x / Py.pow2 e))
                     - x / Py.pow2 e) * Py.pow2 e)%Q).
    { field. lra. }
    rewrite E, Qabs_Qmult, (Qabs_pos (Py.pow2 e)) by lra.
    apply Qle_shift_div_l; [lra|].
    assert (G : (Qabs (inject_Z (Py.nearest_even (x / Py.pow2 e))
                       - x / Py.pow2 e) * Py.pow2 e * 2
                 <= (1 # 2) * Py.pow2 e * 2)%Q).
    { apply Qmult_le_compat_r; [|lra]. apply Qmult_le_compat_r; lra. }
    lra.
  - eapply Qlt_le_trans; [exact Hhi|].
    apply (Qpower_le_compat_l 2); [lia|lra].
  - intros He. replace (e + 52) with il by lia. done.
Qed.

Example round_float :
  (Py.round (2675 # 1000) 2 == Py.b64 (267 # 100))%Q ∧
  (Py.round (125 # 1000) 2 == Py.b64 (12 # 100))%Q ∧
  (Py.b64 (666 # 1000) == 5998794703657501 # 9007199254740992)%Q.
Proof. repeat split; by apply Qeq_bool_iff; vm_compute. Qed.

Lemma aimd_rule_bounds self a p f :
  0 ≤ self.(Asks.reward_add) → shrinking self.(Asks.penalty_mult) →
  1 ≤ a ≤ 2 ^ 53 →
  1 ≤ aimd_rule self a p f ≤ a + self.(Asks.reward_add) ∧
  ((p < 0)%Q → aimd_rule self a p f ≤ a) ∧
  ((0 < p)%Q → a ≤ aimd_rule self a p f).
Proof.
  intros Hr Hs Ha. unfold aimd_rule.
  pose proof (int_mul_le a _ ltac:(lia) Hs).
  destruct (Py.nonzero p && (f =? 1)); [|lia].
  destruct (Py.positive p) eqn:E.
  - split; [lia|]. split; [|lia].
    intros Hp. apply positive_spec in E.
    destruct (Qlt_irrefl 0 (Qlt_trans _ _ _ E Hp)).
  - split; [lia|]. split; [lia|].
    intros Hp. apply positive_spec in Hp. congruence.
Qed.

(** X9: The ask sizes of [Asks.update], when [reward_add] is not negative,
    [penalty_mult] is the integer 0 or 1 or a float between 0 and 1, and
    the asks lie between 1 and [2^53] (so that [float(ask)] is exact): the
    asks stay at least 1, no ask grows by more than [reward_add] in one
    call, a slot with a negative PnL never grows and a slot with a
    positive PnL never shrinks.  The call returns for one PnL and one flag
    per slot. *)
Theorem asks_bounds (self : Asks.t) (pnl : list Q) (aimd : list Z) :
  length pnl = length self.(Asks.asks) →
  length aimd = length self.(Asks.asks) →
  0 ≤ self.(Asks.reward_add) →
  shrinking self.(Asks.penalty_mult) →
  Forall (λ a, 1 ≤ a ≤ 2 ^ 53) self.(Asks.asks) →
  ∃ self', Asks.update self pnl aimd = Some self' ∧
    Forall (λ a, 1 ≤ a) self'.(Asks.asks) ∧
    ∀ i a a' p,
      self.(Asks.asks) !! i = Some a → self'.(Asks.asks) !! i = Some a' →
      pnl !! i = Some p →
      a' ≤ a + self.(Asks.reward_add) ∧
      ((p < 0)%Q → a' ≤ a) ∧ ((0 < p)%Q → a ≤ a').
Proof.
  intros Hp Hf Hr Hs Hall.
  destruct (asks_update_loop self pnl aimd self.(Asks.asks)
              (length self.(Asks.asks)) Hp Hf ltac:(lia))
    as (asks' & E & Hlen & Hslots).
  unfold Asks.update. rewrite E. simpl. eexists. split; [reflexivity|].
  simpl.
  assert (Hslot : ∀ i a a' p,
    self.(Asks.asks) !! i = Some a → asks' !! i = Some a' →
    pnl !! i = Some p → ∃ f, a' = aimd_rule self a p f ∧ 1 ≤ a ≤ 2 ^ 53).
  { intros i a a' p Hi Hi' Hpi.
    destruct (lookup_lt_is_Some_2 aimd i) as [f Hfi].
    { apply lookup_lt_Some in Hi. lia. }
    exists f. rewrite (Hslots i a p f Hi Hpi Hfi) in Hi'.
    pose proof (lookup_lt_Some _ _ _ Hi). case_decide; [|lia].
    split; [congruence|]. rewrite Forall_lookup in Hall. by eapply Hall. }
  split.
  - apply Forall_lookup. intros i a' Hi'.
    destruct (lookup_lt_is_Some_2 self.(Asks.asks) i) as [a Hi].
    { apply lookup_lt_Some in Hi'. lia. }
    destruct (lookup_lt_is_Some_2 pnl i) as [p Hpi].
    { apply lookup_lt_Some in Hi. lia. }
    destruct (Hslot i a a' p Hi Hi' Hpi) as (f & -> & Ha).
    apply (aimd_rule_bounds self a p f Hr Hs Ha).
  - intros i a a' p Hi Hi' Hpi.
    destruct (Hslot i a a' p Hi Hi' Hpi) as (f & -> & Ha).
    pose proof (aimd_rule_bounds self a p f Hr Hs Ha). tauto.
Qed.

Lemma asks_bounds_witness :
  ∃ self', Asks.update (Asks.mk 3 [10; 1; 30] 33 (Py.Float (1 # 3)))
             [1%Q; (-1)%Q; (-1)%Q] [1; 1; 1] = Some self' ∧
    Forall (λ a, 1 ≤ a) self'.(Asks.asks).
Proof.
  destruct (asks_bounds (Asks.mk 3 [10; 1; 30] 33 (Py.Float (1 # 3)))
              [1%Q; (-1)%Q; (-1)%Q] [1; 1; 1] eq_refl eq_refl
              ltac:(simpl; lia)
              ltac:(simpl; split; vm_compute; discriminate)
              ltac:(simpl; repeat constructor; lia))
    as (self' & E & H & _).
  exists self'. split; [exact E|exact H].
Defined.

(** ** [engine.py]: further properties of [process_tick] *)

Section EngineFacts.
Context {S : Type} {ops : Strategy.Ops S}.
Import Orchestrator.

Implicit Types (self : Orchestrator.t S) (tick_data : Tick).

Lemma rollover_view self tick_data day_num :
  let s0 := set_current_pointer (time_to_seconds tick_data.(Time))
              (if decide (self.(current_day) ≠ Some day_num)
               then new_day self tick_data day_num else self) in
  s0.(entry_prices) = self.(entry_prices) ∧
  s0.(entry_times) = self.(entry_times) ∧
  s0.(strategies) = self.(strategies) ∧
  s0.(day_start_trade_idx)
  = (if decide (self.(current_day) ≠ Some day_num)
     then length self.(trade_book) else self.(day_start_trade_idx)) ∧
  s0.(snap_book) = self.(snap_book) ∧
  s0.(cash) = self.(cash) ∧ s0.(total_fee) = self.(total_fee) ∧
  s0.(current_inventory) = self.(current_inventory) ∧
  s0.(position) = self.(position) ∧
  s0.(current_day) = Some day_num ∧
  s0.(current_pointer) = time_to_seconds tick_data.(Time) ∧
  s0.(snapshot_period) = self.(snapshot_period) ∧
  s0.(eod_squared_off)
  = (if decide (self.(current_day) ≠ Some day_num)
     then false else self.(eod_squared_off)).
Proof.
  case_decide as Hday; [by repeat split|].
  by repeat split.
Qed.

Lemma begin_tick_view self tick_data day_num s :
  begin_tick self tick_data day_num = Some s →
  s.(entry_prices) = self.(entry_prices) ∧
  s.(entry_times) = self.(entry_times) ∧
  s.(day_start_trade_idx)
  = (if decide (self.(current_day) ≠ Some day_num)
     then length self.(trade_book) else self.(day_start_trade_idx)) ∧
  s.(snap_book)
  = self.(snap_book)
    ++ (if time_to_seconds tick_data.(Time) mod self.(snapshot_period) =? 0
        then [snapshot_row self tick_data day_num] else []) ∧
  s.(cash) = self.(cash) ∧ s.(total_fee) = self.(total_fee) ∧
  self.(snapshot_period) ≠ 0 ∧
  (self.(current_day) = Some day_num → self.(eod_squared_off) = true →
   s.(strategies) = self.(strategies)).
Proof.
  unfold begin_tick. intros H.
  destruct (rollover_view self tick_data day_num)
    as (E1 & E2 & E3 & E4 & E5 & E6 & E7 & E8 & E9 & E10 & E11 & E12 & E13).
  assert (Erow : ∀ v,
    _portfolio_snapshot
      (set_strategies v
         (set_current_pointer (time_to_seconds tick_data.(Time))
            (if decide (self.(current_day) ≠ Some day_num)
             then new_day self tick_data day_num else self))) tick_data
    = set_snap_book
        (self.(snap_book) ++ [snapshot_row self tick_data day_num])
        (set_equity
           (self.(cash) + inject_Z self.(current_inventory)
                          * tick_data.(Price))%Q
           (set_strategies v
              (set_current_pointer (time_to_seconds tick_data.(Time))
                 (if decide (self.(current_day) ≠ Some day_num)
                  then new_day self tick_data day_num else self))))).
  { intros v. unfold _portfolio_snapshot, snapshot_row.
    case_decide as Hday; [reflexivity|].
    cbn. by rewrite Hday. }
  assert (Erow' :
    _portfolio_snapshot
      (set_current_pointer (time_to_seconds tick_data.(Time))
         (if decide (self.(current_day) ≠ Some day_num)
          then new_day self tick_data day_num else self)) tick_data
    = set_snap_book
        (self.(snap_book) ++ [snapshot_row self tick_data day_num])
        (set_equity
           (self.(cash) + inject_Z self.(current_inventory)
                          * tick_data.(Price))%Q
           (set_current_pointer (time_to_seconds tick_data.(Time))
              (if decide (self.(current_day) ≠ Some day_num)
               then new_day self tick_data day_num else self)))).
  { unfold _portfolio_snapshot, snapshot_row.
    case_decide as Hday; [reflexivity|].
    cbn. by rewrite Hday. }
  rewrite <- E1, <- E2, <- E4, <- E6, <- E7, <- E12.
  assert (Eeod : self.(current_day) = Some day_num →
                 self.(eod_squared_off) = true →
                 eod_squared_off
                   (set_current_pointer (time_to_seconds tick_data.(Time))
                      (if decide (self.(current_day) ≠ Some day_num)
                       then new_day self tick_data day_num else self))
                 = true).
  { intros Hd He. rewrite E13. by case_decide. }
  rewrite <- E3.
  remember (set_current_pointer _ _) as s0 eqn:Es0.
  clear Es0 E1 E2 E3 E4 E6 E7 E8 E9 E10 E12 E13.
  destruct (eod_squared_off s0) eqn:Ee; cbn [negb] in H.
  - simpl in H. rewrite E11 in H.
    destruct (Z.eqb_spec (snapshot_period s0) 0); [discriminate H|].
    destruct (_ =? 0).
    + injection H as <-. rewrite Erow'. by rewrite <- E5.
    + injection H as <-. rewrite app_nil_r. done.
  - destruct (mapM _ _) as [strats|] eqn:Em; simpl in H; [|discriminate H].
    rewrite E11 in H.
    destruct (Z.eqb_spec (snapshot_period s0) 0); [discriminate H|].
    destruct (_ =? 0).
    + injection H as <-. rewrite Erow.
      repeat split; try done; try (by rewrite <- E5).
      intros Hd He. by specialize (Eeod Hd He).
    + injection H as <-. rewrite app_nil_r.
      repeat split; try done.
      intros Hd He. by specialize (Eeod Hd He).
Qed.

Lemma record_body_books tick_data prev_pos curr_pos i (s s' : Orchestrator.t S) :
  record_body tick_data prev_pos curr_pos i s = Some s' →
  books_of s' = books_of s.
Proof.
  unfold record_body. intros H.
  destruct (strategies s !! i) as [strategy|]; simpl in H; [|discriminate H].
  destruct (prev_pos !! i) as [pp|]; simpl in H; [|discriminate H].
  destruct (curr_pos !! i) as [cp|]; simpl in H; [|discriminate H].
  destruct ((pp =? 0) && negb (cp =? 0)).
  - destruct (Strategy.update_position _ _ _) as [st|]; simpl in H;
      [|discriminate H].
    destruct (Py.store i _ (entry_prices s)); simpl in H; [|discriminate H].
    destruct (Py.store i _ (entry_times s)); simpl in H; [|discriminate H].
    by injection H as <-.
  - destruct ((cp =? 0) && negb (pp =? 0)); [|by injection H as <-].
    destruct (Strategy.update_position _ _ _) as [st|]; simpl in H;
      [|discriminate H].
    destruct (Py.store i _ (entry_prices s)); simpl in H; [|discriminate H].
    destruct (Py.store i _ (entry_times s)); simpl in H; [|discriminate H].
    by injection H as <-.
Qed.

Lemma pnl_body_books current_price prev_pos final_pos i l
    (s : Orchestrator.t S) l' s' :
  _compute_strategy_pnl_body current_price prev_pos final_pos i (l, s)
  = Some (l', s') →
  books_of s' = books_of s.
Proof.
  unfold _compute_strategy_pnl_body. intros H.
  destruct (prev_pos !! i) as [pp|]; simpl in H; [|discriminate H].
  destruct (negb (pp =? 0)); [|by injection H as <- <-].
  destruct (final_pos !! i) as [fp|]; simpl in H; [|discriminate H].
  destruct (fp * pp <=? 0); [|by injection H as <- <-].
  destruct (entry_prices s !! i) as [ep|]; simpl in H; [|discriminate H].
  destruct (Py.store i _ l); simpl in H; [|discriminate H].
  by injection H as <- <-.
Qed.

Lemma trade_books (s : Orchestrator.t S) tick_data s' out :
  trade s tick_data = Some (s', out) → books_of s' = books_of s.
Proof.
  intros H. apply trade_inv in H
    as (signals & strats & ledger & d & aimd & s2 & pnl_list & s3 & asks'
        & _ & _ & Hrec & Hpnl & _ & _ & ->).
  apply (for_each_inv (λ x, books_of x = books_of s)) in Hrec;
    [| |done].
  - unfold _compute_strategy_pnl in Hpnl.
    apply (for_each_inv (λ x, books_of x.2 = books_of s)) in Hpnl;
      [done| |done].
    intros i [l1 s1] [l2 s4] E Hb. simpl in *.
    apply pnl_body_books in Hb. congruence.
  - intros i s1 s4 E Hb. apply record_body_books in Hb. congruence.
Qed.

Lemma square_off_view (s : Orchestrator.t S) s' out :
  square_off s = Some (s', out) →
  books_of s' = books_of s ∧
  s'.(entry_prices) = s.(entry_prices) ∧
  s'.(entry_times) = s.(entry_times) ∧
  s'.(total_fee) = s.(total_fee) ∧
  mapM Strategy.reset s.(strategies) = Some s'.(strategies).
Proof.
  unfold square_off. intros H.
  destruct (mapM _ _) as [strats|]; simpl in H; [|discriminate H].
  by injection H as <- <-.
Qed.

Lemma process_tick_books self tick_data day_num self' out :
  process_tick self tick_data day_num = Some (self', out) →
  self.(snapshot_period) ≠ 0 ∧
  self'.(day_start_trade_idx)
  = (if decide (self.(current_day) ≠ Some day_num)
     then length self.(trade_book) else self.(day_start_trade_idx)).
Proof.
  intros H. apply process_tick_inv in H as (s & Hs & Hcases).
  apply begin_tick_view in Hs as (_ & _ & Hidx & _ & _ & _ & Hp & _).
  split; [done|]. rewrite <- Hidx.
  destruct Hcases as [(Hd & -> & ->)|[(Hd & He & -> & ->)|
                      [(Hd & He & Hlen & Hsq)|(Hd & He & Hlen & Htr)]]].
  - done.
  - done.
  - apply square_off_view in Hsq as (Hb & _). by injection Hb.
  - apply trade_books in Htr. by injection Htr.
Qed.

Lemma process_tick_log self tick_data day_num self' out :
  process_tick self tick_data day_num = Some (self', out) →
  self'.(trade_limit) = self.(trade_limit) ∧
  self'.(current_day) = Some day_num ∧
  match out with
  | Released q =>
    q = Z.min (Z.abs self.(trade_backlog)) self.(trade_limit)
        * Z.sgn self.(trade_backlog) ∧
    self'.(trade_book)
    = self.(trade_book) ++ [fill_row self tick_data day_num q] ∧
    self'.(current_inventory) = self.(current_inventory) + q ∧
    self'.(trade_backlog) = self.(trade_backlog) - q ∧
    self'.(position) = self.(position)
  | _ =>
    self'.(trade_book) = self.(trade_book) ∧
    self'.(current_inventory) = self.(current_inventory)
  end.
Proof.
  intros H. apply process_tick_inv in H as (s & Hs & Hcases).
  apply begin_tick_core in Hs.
  pose proof (f_equal c_backlog Hs) as Eb.
  pose proof (f_equal c_position Hs) as Ep.
  pose proof (f_equal c_book Hs) as Ek.
  pose proof (f_equal c_trade_limit Hs) as El.
  pose proof (f_equal c_tran_cost Hs) as Ec.
  pose proof (f_equal c_inventory Hs) as Ei.
  pose proof (f_equal c_day Hs) as Ed.
  clear Hs. cbn in Eb, Ep, Ek, El, Ec, Ei, Ed.
  destruct Hcases as [(Hd & -> & ->)|[(Hd & He & -> & ->)|
                      [(Hd & He & Hlen & Hsq)|(Hd & He & Hlen & Htr)]]].
  - change (trade_limit (execute_trade s tick_data)) with (trade_limit s).
    change (current_day (execute_trade s tick_data)) with (current_day s).
    change (trade_book (execute_trade s tick_data))
      with (trade_book s ++ [release_row s tick_data]).
    change (current_inventory (execute_trade s tick_data))
      with (current_inventory s + execute_qty s).
    change (trade_backlog (execute_trade s tick_data))
      with (trade_backlog s - execute_qty s).
    change (position (execute_trade s tick_data)) with (position s).
    unfold release_row, fill_row, execute_qty.
    rewrite Eb, Ep, Ek, El, Ec, Ei, Ed. done.
  - by rewrite <- El, <- Ek, <- Ei.
  - apply square_off_inv in Hsq as [-> Hc].
    pose proof (f_equal c_trade_limit Hc) as El'.
    pose proof (f_equal c_day Hc) as Ed'.
    pose proof (f_equal c_book Hc) as Ek'.
    pose proof (f_equal c_inventory Hc) as Ei'.
    clear Hc. cbn in El', Ed', Ek', Ei'.
    rewrite El', Ed', Ek', Ei'. done.
  - apply trade_core in Htr
      as (signals & ledger & d & aimd & pnl_list & asks' & -> & _ & _ & Hc).
    pose proof (f_equal c_trade_limit Hc) as El'.
    pose proof (f_equal c_day Hc) as Ed'.
    pose proof (f_equal c_book Hc) as Ek'.
    pose proof (f_equal c_inventory Hc) as Ei'.
    clear Hc. cbn in El', Ed', Ek', Ei'.
    rewrite El', Ed', Ek', Ei'. done.
Qed.

End EngineFacts.

Section EngineProperties.
Context {S : Type} {ops : Strategy.Ops S}.
Import Orchestrator.

Implicit Types (self : Orchestrator.t S) (tick_data : Tick).

Lemma run_inventory self ticks self' outs :
  run self ticks = Some (self', outs) →
  self'.(current_inventory)
  = self.(current_inventory) + Py.sum (released <$> outs).
Proof.
  revert self outs. induction ticks as [|[day_num tick_data] ticks IH];
    intros self outs H; simpl in H.
  - injection H as <- <-. simpl. lia.
  - destruct (process_tick self tick_data day_num) as [[s1 o]|] eqn:E1;
      simpl in H; [|discriminate H].
    destruct (run s1 ticks) as [[s2 os]|] eqn:E2; simpl in H;
      [|discriminate H].
    injection H as <- <-. rewrite (IH _ _ E2).
    apply process_tick_log in E1 as (_ & _ & E1).
    rewrite fmap_cons. cbn [Py.sum foldr]. unfold Py.sum.
    destruct o; simpl; try (destruct E1 as [_ ->]; lia).
    destruct E1 as (_ & _ & -> & _). lia.
Qed.

(** X10: Inventory accounting.  Over every run the difference between the
    ledger's total position and the executed inventory plus the backlog
    stays the same; from the constructor on, the total position of the
    ledger therefore always equals the executed inventory plus the
    backlog still to be released.  The [Inventory] column of a trade-book
    row is the ledger's total at the release, that is the inventory after
    the release plus the backlog that remains. *)
Theorem inventory_accounting :
  (∀ self ticks self' outs,
     run self ticks = Some (self', outs) →
     Py.sum self'.(position).(Position.pos)
     - (self'.(current_inventory) + self'.(trade_backlog))
     = Py.sum self.(position).(Position.pos)
       - (self.(current_inventory) + self.(trade_backlog))) ∧
  (∀ (strategies : list S) config self ticks self' outs,
     init strategies config = Some self →
     run self ticks = Some (self', outs) →
     Py.sum self'.(position).(Position.pos)
     = self'.(current_inventory) + self'.(trade_backlog)) ∧
  (∀ self tick_data day_num self' q,
     process_tick self tick_data day_num = Some (self', Released q) →
     Py.sum self.(position).(Position.pos)
     = self.(current_inventory) + self.(trade_backlog) →
     ∃ row, self'.(trade_book) = self.(trade_book) ++ [row] ∧
       row.(tr_Inventory)
       = self'.(current_inventory) + self'.(trade_backlog)).
Proof.
  assert (Hrun : ∀ self ticks self' outs,
     run self ticks = Some (self', outs) →
     Py.sum self'.(position).(Position.pos)
     - (self'.(current_inventory) + self'.(trade_backlog))
     = Py.sum self.(position).(Position.pos)
       - (self.(current_inventory) + self.(trade_backlog))).
  { intros self ticks self' outs H.
    pose proof (run_inventory _ _ _ _ H) as Hi.
    apply run_core_run, core_run_backlog in H as [Hb Hp].
    cbn in Hb, Hp. lia. }
  split; [exact Hrun|]. split.
  - intros strategies config self ticks self' outs Hinit H.
    apply Hrun in H.
    assert (Py.sum self.(position).(Position.pos) = 0 ∧
            self.(current_inventory) = 0 ∧ self.(trade_backlog) = 0)
      as (E1 & E2 & E3).
    { init_inv Hinit. simpl. by rewrite sum_replicate_0. }
    lia.
  - intros self tick_data day_num self' q H Hinv.
    apply process_tick_log in H as (_ & _ & _ & Hk & Hi & Hb & Hp).
    eexists. split; [exact Hk|]. simpl. lia.
Qed.

End EngineProperties.

Lemma inventory_accounting_witness :
  ∃ engine self' outs,
    demo_engine = Some engine ∧
    Orchestrator.run (ops := Strategy.Strategy_A) engine demo_ticks
    = Some (self', outs) ∧
    Py.sum self'.(Orchestrator.position).(Position.pos)
    = self'.(Orchestrator.current_inventory)
      + self'.(Orchestrator.trade_backlog).
Proof.
  destruct demo_engine as [engine|] eqn:E; [|vm_compute in E; discriminate E].
  destruct (Orchestrator.run (ops := Strategy.Strategy_A) engine demo_ticks)
    as [[self' outs]|] eqn:Er.
  - exists engine, self', outs. split; [reflexivity|]. split; [exact Er|].
    exact (proj1 (proj2 (inventory_accounting (ops := Strategy.Strategy_A)))
             _ _ _ _ _ _ E Er).
  - exfalso. unfold demo_engine in E. vm_compute in E.
    injection E as <-. vm_compute in Er. discriminate Er.
Defined.

Section ReleaseProperties.
Context {S : Type} {ops : Strategy.Ops S}.
Import Orchestrator.

Implicit Types (self : Orchestrator.t S) (tick_data : Tick).

(** X11: The size of a backlog release.  With a trade limit that is not
    negative the release has the sign of the backlog, its size is
    [min(|backlog|, trade_limit)], the backlog shrinks by that size
    without changing sign, and a backlog within the limit is cleared in
    one release.  With a trade limit that is not positive the backlog
    never shrinks: a limit of 0 releases the quantity 0 (the tick is still
    consumed and the cooldown restarts), and a negative limit trades
    against the backlog, which grows by the limit's absolute value. *)
Theorem release_size self tick_data day_num self' q :
  process_tick self tick_data day_num = Some (self', Released q) →
  self.(trade_backlog) ≠ 0 ∧
  self'.(last_trade_time) = time_to_seconds tick_data.(Time) ∧
  (0 ≤ self.(trade_limit) →
   0 ≤ q * self.(trade_backlog) ∧
   Z.abs q = Z.min (Z.abs self.(trade_backlog)) self.(trade_limit) ∧
   Z.abs self'.(trade_backlog) = Z.abs self.(trade_backlog) - Z.abs q ∧
   0 ≤ self'.(trade_backlog) * self.(trade_backlog) ∧
   (Z.abs self.(trade_backlog) ≤ self.(trade_limit) →
    self'.(trade_backlog) = 0)) ∧
  (self.(trade_limit) ≤ 0 →
   Z.abs self'.(trade_backlog)
   = Z.abs self.(trade_backlog) + Z.abs self.(trade_limit)).
Proof.
  intros H.
  pose proof (process_tick_core_step _ _ _ _ _ H) as Hstep.
  apply core_step_release in Hstep as [Hiff Hq].
  destruct (proj1 Hiff (ex_intro _ q eq_refl)) as [Hb _].
  destruct (Hq q eq_refl) as (_ & _ & Hlast).
  apply process_tick_log in H as (_ & _ & Eq & _ & _ & Eb & _).
  cbn in Hb, Hlast.
  split; [done|]. split; [done|]. rewrite Eb.
  set (b := trade_backlog self) in *. set (tl := trade_limit self) in *.
  clearbody b tl. clear -Eq Hb. subst q.
  split; intros Htl.
  - destruct (Z.min_spec (Z.abs b) tl) as [[? ->]|[? ->]];
      destruct (Z.sgn_spec b) as [[? ->]|[[? ->]|[? ->]]];
      repeat split; intros; try nia.
  - rewrite Z.min_r by lia.
    destruct (Z.sgn_spec b) as [[? ->]|[[? ->]|[? ->]]]; lia.
Qed.

End ReleaseProperties.

Lemma release_size_witness :
  ∃ engine self',
    Orchestrator.init [Strategy.init 1 1] zero_limit_config = Some engine ∧
    Orchestrator.process_tick (ops := Strategy.Strategy_A)
      (Orchestrator.set_trade_backlog 7 engine)
      (mk_tick (mk_time 2 0 0) 100) 1
    = Some (self', Orchestrator.Released 0) ∧
    Z.abs self'.(Orchestrator.trade_backlog) = 7 + 0.
Proof.
  destruct (Orchestrator.init [Strategy.init 1 1] zero_limit_config)
    as [engine|] eqn:E; [|vm_compute in E; discriminate E].
  destruct (Orchestrator.process_tick (ops := Strategy.Strategy_A)
              (Orchestrator.set_trade_backlog 7 engine)
              (mk_tick (mk_time 2 0 0) 100) 1) as [[self' o]|] eqn:E1.
  - assert (Ho : o = Orchestrator.Released 0).
    { vm_compute in E. injection E as <-. vm_compute in E1.
      by injection E1 as _ <-. }
    subst o. exists engine, self'. split; [reflexivity|]. split; [exact E1|].
    destruct (release_size _ _ _ _ _ E1) as (_ & _ & _ & H).
    rewrite H.
    + vm_compute in E. by injection E as <-.
    + vm_compute in E. by injection E as <-.
  - exfalso. vm_compute in E. injection E as <-. vm_compute in E1.
    discriminate E1.
Defined.

Section BookProperties.
Context {S : Type} {ops : Strategy.Ops S}.
Import Orchestrator.

Implicit Types (self : Orchestrator.t S) (tick_data : Tick).

Lemma run_rows self ticks self' outs :
  run self ticks = Some (self', outs) →
  ∃ rows, self'.(trade_book) = self.(trade_book) ++ rows ∧
    Forall2 row_of_fill rows (fills ticks outs) ∧
    length rows = releases outs.
Proof.
  revert self outs. induction ticks as [|[day_num tick_data] ticks IH];
    intros self outs H; simpl in H.
  - injection H as <- <-. exists []. rewrite app_nil_r. by repeat split.
  - destruct (process_tick self tick_data day_num) as [[s1 o]|] eqn:E1;
      simpl in H; [|discriminate H].
    destruct (run s1 ticks) as [[s2 os]|] eqn:E2; simpl in H;
      [|discriminate H].
    injection H as <- <-. destruct (IH _ _ E2) as (rows & Hk & Hf & Hl).
    apply process_tick_log in E1 as (_ & _ & E1).
    destruct o; cbn [fills]; unfold releases; cbn [filter List.filter is_release];
      fold (releases os);
      try (destruct E1 as [E1 _]; exists rows; by rewrite Hk, E1).
    destruct E1 as (_ & E1 & _).
    exists (fill_row self tick_data day_num execute_qty0 :: rows).
    rewrite Hk, E1, <- app_assoc. split; [done|]. split.
    + constructor; [|done]. by repeat split.
    + simpl. unfold releases in Hl. by rewrite Hl.
Qed.

(** X12: The trade book is append-only and holds one row per release: a run
    appends, in order, exactly one row for every backlog release and
    nothing else; the row carries the day number and the time of its
    tick, the absolute value of the released quantity, and the side
    ["Buy"] exactly when the quantity is positive (so a release of the
    quantity 0 is logged as ["Sell"]).  [trade_count] of [get_results]
    is the length of the book before the run plus the number of
    releases. *)
Theorem trade_book_rows self ticks self' outs :
  run self ticks = Some (self', outs) →
  ∃ rows,
    (get_results self').(res_trade_book) = self.(trade_book) ++ rows ∧
    Forall2 row_of_fill rows (fills ticks outs) ∧
    (get_results self').(trade_count)
    = (length self.(trade_book) + releases outs)%nat.
Proof.
  intros H. destruct (run_rows _ _ _ _ H) as (rows & Hk & Hf & Hl).
  exists rows. simpl. rewrite Hk, length_app, Hl. done.
Qed.

Lemma run_day self day_num ticks self' outs :
  Forall (λ x, x.1 = day_num) ticks →
  self.(current_day) = Some day_num →
  run self ticks = Some (self', outs) →
  self'.(current_day) = Some day_num ∧
  self'.(day_start_trade_idx) = self.(day_start_trade_idx).
Proof.
  revert self outs. induction ticks as [|[d tick_data] ticks IH];
    intros self outs Hall Hday H; simpl in H.
  - by injection H as <- <-.
  - apply Forall_cons in Hall as [Hd Hall]. simpl in Hd. subst d.
    destruct (process_tick self tick_data day_num) as [[s1 o]|] eqn:E1;
      simpl in H; [|discriminate H].
    destruct (run s1 ticks) as [[s2 os]|] eqn:E2; simpl in H;
      [|discriminate H].
    injection H as <- <-.
    pose proof (process_tick_books _ _ _ _ _ E1) as (_ & Hidx).
    apply process_tick_log in E1 as (_ & Hd1 & _).
    destruct (IH _ _ Hall Hd1 E2) as [-> ->].
    split; [done|]. rewrite Hidx. by case_decide.
Qed.

(** X13: The day report.  After the ticks of a day whose number differs from
    the engine's current day, [get_day_results] returns exactly the rows
    that these ticks appended to the trade book, all of them marked with
    the day number, and [day_trade_count] is the number of releases of
    the day.  When the day number equals the engine's current day (the
    same number processed again) the start index is not moved, and the
    report still begins at the earlier start of that day. *)
Theorem day_results_rows self day_num tick ticks self' outs :
  Forall (λ x, x.1 = day_num) (tick :: ticks) →
  run self (tick :: ticks) = Some (self', outs) →
  (self.(current_day) ≠ Some day_num →
   self'.(trade_book)
   = self.(trade_book) ++ (get_day_results self').(day_trade_book) ∧
   Forall (λ row, row.(tr_Day) = Some day_num)
     (get_day_results self').(day_trade_book) ∧
   (get_day_results self').(day_trade_count) = releases outs) ∧
  (self.(current_day) = Some day_num →
   (get_day_results self').(day_trade_book)
   = drop self.(day_start_trade_idx) self'.(trade_book)).
Proof.
  intros Hall H.
  destruct (run_rows _ _ _ _ H) as (rows & Hk & Hf & Hl).
  assert (Hrows : Forall (λ row, row.(tr_Day) = Some day_num) rows).
  { clear -Hf Hall. revert Hf Hall.
    generalize (tick :: ticks) as l. intros l. revert rows outs.
    induction l as [|[d t] l IH]; intros rows outs Hf Hall.
    - simpl in Hf. by inversion Hf.
    - apply Forall_cons in Hall as [Hd Hall]. simpl in Hd. subst d.
      destruct outs as [|o outs]; [simpl in Hf; by inversion Hf|].
      destruct o; cbn [fills] in Hf; try by eapply IH.
      inversion Hf as [|row f rows' fs Hrow Hrest]; subst.
      constructor; [apply Hrow|by eapply IH]. }
  destruct tick as [d tick_data]. pose proof Hall as Hall'.
  apply Forall_cons in Hall' as [Hd Hall']. simpl in Hd. subst d.
  simpl in H.
  destruct (process_tick self tick_data day_num) as [[s1 o]|] eqn:E1;
    simpl in H; [|discriminate H].
  destruct (run s1 ticks) as [[s2 os]|] eqn:E2; simpl in H;
    [|discriminate H].
  injection H as <- <-.
  pose proof (process_tick_books _ _ _ _ _ E1) as (_ & Hidx).
  apply process_tick_log in E1 as (_ & Hd1 & _).
  destruct (run_day _ _ _ _ _ Hall' Hd1 E2) as [_ Hidx2].
  unfold get_day_results. simpl. rewrite Hidx2, Hidx. split.
  - intros Hne. case_decide; [|done].
    rewrite Hk, drop_app_length. by rewrite Hl.
  - intros Heq. by case_decide.
Qed.

End BookProperties.

Lemma trade_book_rows_witness :
  ∃ engine self' outs,
    demo_engine = Some engine ∧
    Orchestrator.run (ops := Strategy.Strategy_A) engine demo_ticks
    = Some (self', outs) ∧
    (Orchestrator.get_results self').(Orchestrator.trade_count)
    = (length engine.(Orchestrator.trade_book) + releases outs)%nat ∧
    releases outs = 2%nat.
Proof.
  destruct demo_engine as [engine|] eqn:E; [|vm_compute in E; discriminate E].
  destruct (Orchestrator.run (ops := Strategy.Strategy_A) engine demo_ticks)
    as [[self' outs]|] eqn:Er.
  - exists engine, self', outs. split; [reflexivity|]. split; [exact Er|].
    destruct (trade_book_rows _ _ _ _ Er) as (rows & _ & _ & H).
    split; [exact H|].
    unfold demo_engine in E. vm_compute in E. injection E as <-.
    vm_compute in Er. by injection Er as _ <-.
  - exfalso. unfold demo_engine in E. vm_compute in E.
    injection E as <-. vm_compute in Er. discriminate Er.
Defined.

Lemma day_results_rows_witness :
  ∃ engine self' outs,
    demo_engine = Some engine ∧
    Orchestrator.run (ops := Strategy.Strategy_A) engine demo_day_ticks
    = Some (self', outs) ∧
    (Orchestrator.get_day_results self').(Orchestrator.day_trade_count)
    = releases outs ∧
    releases outs = 2%nat.
Proof.
  destruct demo_engine as [engine|] eqn:E; [|vm_compute in E; discriminate E].
  destruct (Orchestrator.run (ops := Strategy.Strategy_A) engine
              demo_day_ticks) as [[self' outs]|] eqn:Er.
  - exists engine, self', outs. split; [reflexivity|]. split; [exact Er|].
    assert (Hall : Forall (λ x : Z * Tick, x.1 = 1) demo_day_ticks)
      by (repeat constructor).
    assert (Hday : engine.(Orchestrator.current_day) ≠ Some 1).
    { unfold demo_engine in E. vm_compute in E. by injection E as <-. }
    destruct (proj1 (day_results_rows engine 1 _ _ _ _ Hall Er) Hday)
      as (_ & _ & H).
    split; [exact H|].
    unfold demo_engine in E. vm_compute in E. injection E as <-.
    vm_compute in Er. by injection Er as _ <-.
  - exfalso. unfold demo_engine in E. vm_compute in E.
    injection E as <-. vm_compute in Er. discriminate Er.
Defined.

(** ** Netting ticks: PnL and AIMD feedback *)

Lemma calc_pnl_value_sign (tran_cost price : Q) (q : Z) :
  (0 < price)%Q → (0 <= tran_cost)%Q → (tran_cost < 1)%Q →
  (0 < q → (0 < calc_pnl_value tran_cost 0 price q)%Q) ∧
  (q < 0 → (calc_pnl_value tran_cost 0 price q < 0)%Q).
Proof.
  intros Hp H0 H1. unfold calc_pnl_value. split; intros Hq.
  - rewrite Z.sgn_pos, Z.abs_eq by lia.
    assert (E : ((price - 0) * inject_Z 1 - tran_cost * (0 + price)
                 == price * (1 - tran_cost))%Q) by ring.
    rewrite E.
    apply Qmult_lt_0_compat.
    + apply Qmult_lt_0_compat; [done|].
      unfold Qminus. by rewrite <- Qlt_minus_iff.
    + unfold Qlt. simpl. lia.
  - rewrite Z.sgn_neg, Z.abs_neq by lia.
    assert (E : (((price - 0) * inject_Z (-1)
                  - tran_cost * (0 + price)) * inject_Z (- q)
                 == - (price * (1 + tran_cost) * inject_Z (- q)))%Q) by ring.
    rewrite E.
    assert (0 < price * (1 + tran_cost) * inject_Z (- q))%Q.
    { apply Qmult_lt_0_compat.
      - apply Qmult_lt_0_compat; [done|].
        apply Qlt_le_trans with 1%Q; [done|].
        rewrite <- (Qplus_0_r 1) at 1. by apply Qplus_le_r.
      - unfold Qlt. simpl. lia. }
    by apply Qopp_lt_compat in H.
Qed.

Section NettingFacts.
Context {S : Type} {ops : Strategy.Ops S}.
Import Orchestrator.

Implicit Types (self : Orchestrator.t S) (tick_data : Tick).

Lemma netted_tick self tick_data day_num self' signals d aimd pnl_list :
  process_tick self tick_data day_num
  = Some (self', Netted signals d aimd pnl_list) →
  ∃ s strats ledger s2 s3 asks',
    begin_tick self tick_data day_num = Some s ∧
    s.(position) = self.(position) ∧
    s.(current_asks) = self.(current_asks) ∧
    s.(num_strats) = self.(num_strats) ∧
    length s.(strategies) = length self.(strategies) ∧
    get_signals s tick_data = Some (signals, strats) ∧
    length signals = self.(num_strats) ∧
    length strats = length self.(strategies) ∧
    Position.update_position self.(position) signals
      self.(current_asks).(Asks.asks) = Some (ledger, (d, aimd)) ∧
    Py.for_each
      (record_body tick_data self.(position).(Position.pos)
         ledger.(Position.pos))
      (Py.range (length strats))
      (set_trade_backlog (s.(trade_backlog) + d)
         (set_position ledger (set_strategies strats s))) = Some s2 ∧
    s2.(tran_cost) = self.(tran_cost) ∧
    s2.(num_strats) = self.(num_strats) ∧
    _compute_strategy_pnl s2 tick_data.(Price)
      self.(position).(Position.pos) ledger.(Position.pos)
    = Some (pnl_list, s3) ∧
    Asks.update self.(current_asks) pnl_list aimd = Some asks' ∧
    self'.(position) = ledger ∧
    self'.(current_asks) = asks' ∧
    self'.(entry_prices) = s2.(entry_prices) ∧
    self'.(entry_times) = s2.(entry_times).
Proof.
  intros H. apply process_tick_inv in H as (s & Hs & Hcases).
  pose proof (begin_tick_strategies _ _ _ _ Hs) as Hlen.
  pose proof (begin_tick_core _ _ _ _ Hs) as Hc.
  pose proof (f_equal c_position Hc) as Epos.
  pose proof (f_equal c_asks Hc) as Easks.
  pose proof (f_equal c_tran_cost Hc) as Etc.
  pose proof (f_equal c_num_strats Hc) as Ens. cbn in Epos, Easks, Etc, Ens.
  clear Hc.
  destruct Hcases as [(_ & [=] & _)|[(_ & _ & [=] & _)|
                      [(_ & _ & _ & Hsq)|(_ & _ & _ & Htr)]]].
  { apply square_off_inv in Hsq as [[=] _]. }
  apply trade_inv in Htr
    as (signals0 & strats & ledger & d0 & aimd0 & s2 & pnl0 & s3 & asks'
        & Hsig & Hup & Hrec & Hpnl & Hask & [= <- <- <- <-] & ->).
  pose proof (get_signals_length _ _ _ _ Hsig) as [Hsl Hstl].
  rewrite Epos, Easks in Hup. rewrite Epos in Hrec, Hpnl.
  pose proof (record_loop_core _ _ _ _ _ _ Hrec) as Hc2.
  pose proof (pnl_loop_core _ _ _ _ _ _ Hpnl) as (Hc3 & Hep3 & Het3).
  exists s, strats, ledger, s2, s3, asks'.
  split; [done|]. split; [done|]. split; [done|]. split; [done|].
  split; [done|]. split; [done|]. split; [lia|]. split; [lia|].
  split; [done|]. split; [done|].
  split; [by rewrite (f_equal c_tran_cost Hc2 : tran_cost s2 = _)|].
  split; [by rewrite (f_equal c_num_strats Hc2 : num_strats s2 = _)|].
  split; [done|].
  split.
  { rewrite (f_equal c_asks Hc3 : current_asks s3 = current_asks s2) in Hask.
    rewrite (f_equal c_asks Hc2 : current_asks s2 = _) in Hask.
    simpl in Hask. by rewrite Easks in Hask. }
  split.
  { change (position (set_current_asks asks' s3)) with (position s3).
    rewrite (f_equal c_position Hc3 : position s3 = position s2).
    by rewrite (f_equal c_position Hc2 : position s2 = _). }
  split; [done|]. split; [exact Hep3|exact Het3].
Qed.

Lemma pnl_body_length current_price prev_pos final_pos j l
    (s : Orchestrator.t S) l' s' :
  _compute_strategy_pnl_body current_price prev_pos final_pos j (l, s)
  = Some (l', s') →
  length l' = length l.
Proof.
  unfold _compute_strategy_pnl_body. intros H.
  destruct (prev_pos !! j) as [pp|]; simpl in H; [|discriminate H].
  destruct (negb (pp =? 0)); [|by injection H as <- <-].
  destruct (final_pos !! j) as [fp|]; simpl in H; [|discriminate H].
  destruct (fp * pp <=? 0); [|by injection H as <- <-].
  destruct (entry_prices s !! j) as [ep|]; simpl in H; [|discriminate H].
  destruct (Py.store j _ l) as [l1|] eqn:E; simpl in H; [|discriminate H].
  apply store_Some in E as [_ ->]. injection H as <- <-.
  by rewrite length_insert.
Qed.

Lemma pnl_list_length (s : Orchestrator.t S) current_price prev_pos final_pos
    pnl_list s' :
  _compute_strategy_pnl s current_price prev_pos final_pos
  = Some (pnl_list, s') →
  length pnl_list = s.(num_strats).
Proof.
  unfold _compute_strategy_pnl. intros H.
  apply (for_each_inv (λ x, length x.1 = s.(num_strats))) in H; [done| |].
  - intros i [l1 s1] [l2 s2] E Hb. simpl in *.
    apply pnl_body_length in Hb. congruence.
  - simpl. by rewrite length_replicate.
Qed.

Lemma close_pnl self tick_data day_num self' signals d aimd pnl_list
    (i : nat) (q : Z) :
  process_tick self tick_data day_num
  = Some (self', Netted signals d aimd pnl_list) →
  (i < length self.(strategies))%nat → (i < self.(num_strats))%nat →
  self.(position).(Position.pos) !! i = Some q → q ≠ 0 →
  self'.(position).(Position.pos) !! i = Some 0 →
  pnl_list !! i
  = Some (calc_pnl_value self.(tran_cost) 0 tick_data.(Price) q) ∧
  self'.(entry_prices) !! i = Some 0%Q ∧
  self'.(entry_times) !! i = Some None.
Proof.
  intros H Hi Hn Hq Hq0 Hfinal.
  apply netted_tick in H
    as (s & strats & ledger & s2 & s3 & asks' & _ & _ & _ & _ & _ & _ & _
        & Hstl & _ & Hrec & Etc & Ens & Hpnl & _ & Epos & _ & Hep & Het).
  rewrite Epos in Hfinal.
  destruct (record_loop_entries _ _ _ _ _ _ i q Hrec) as [Hep2 Het2];
    [lia|done|done|done|].
  rewrite Hep, Het. split; [|done].
  unfold _compute_strategy_pnl in Hpnl.
  rewrite (pnl_loop_list _ _ _ _ _ _ _ _ i q 0 0%Q Hpnl);
    [|lia|done|done|done|lia|done].
  by rewrite Etc.
Qed.

(** X14: The realised PnL of a close.  In a netting tick, for every slot that
    held a position and ends the tick flat, the PnL handed to
    [Asks.update] is the value of [_calc_pnl] for the entry price 0: the
    entry price recorded for the slot is cleared before the PnL is
    computed, so the PnL does not depend on it.  The slot's entry price
    and entry time are cleared.  Hence, for a positive price and a cost
    rate in [0, 1), the PnL of a closed long position is positive and the
    PnL of a closed short position is negative, whatever the price at
    which the position was entered. *)
Theorem close_pnl_entry_price self tick_data day_num self' signals d aimd
    pnl_list (i : nat) (q : Z) :
  process_tick self tick_data day_num
  = Some (self', Netted signals d aimd pnl_list) →
  (i < length self.(strategies))%nat → (i < self.(num_strats))%nat →
  self.(position).(Position.pos) !! i = Some q → q ≠ 0 →
  self'.(position).(Position.pos) !! i = Some 0 →
  ∃ pnl,
    pnl_list !! i = Some pnl ∧
    pnl = calc_pnl_value self.(tran_cost) 0 tick_data.(Price) q ∧
    self'.(entry_prices) !! i = Some 0%Q ∧
    self'.(entry_times) !! i = Some None ∧
    ((0 < tick_data.(Price))%Q → (0 <= self.(tran_cost))%Q →
     (self.(tran_cost) < 1)%Q →
     (0 < q → (0 < pnl)%Q) ∧ (q < 0 → (pnl < 0)%Q)).
Proof.
  intros H Hi Hn Hq Hq0 Hfinal.
  destruct (close_pnl _ _ _ _ _ _ _ _ i q H Hi Hn Hq Hq0 Hfinal)
    as (Hpnl & Hep & Het).
  eexists. split; [exact Hpnl|]. split; [done|]. split; [done|].
  split; [done|]. apply calc_pnl_value_sign.
Qed.

End NettingFacts.

Lemma close_pnl_entry_price_witness :
  ∃ engine self' pnl,
    starvation_engine = Some engine ∧
    Orchestrator.process_tick (ops := Strategy.Strategy_A) engine
      (mk_tick (mk_time 2 0 0) 100) 1
    = Some (self',
            Orchestrator.Netted [1; 0] 0 [0; 0] [0%Q; (999000 # 1000)%Q]) ∧
    [0%Q; (999000 # 1000)%Q] !! 1%nat = Some pnl ∧ (0 < pnl)%Q.
Proof.
  destruct starvation_engine as [engine|] eqn:E;
    [|vm_compute in E; discriminate E].
  destruct (Orchestrator.process_tick (ops := Strategy.Strategy_A) engine
              (mk_tick (mk_time 2 0 0) 100) 1) as [[self' o]|] eqn:E1.
  - assert (Ho : o = Orchestrator.Netted [1; 0] 0 [0; 0]
                       [0%Q; (999000 # 1000)%Q]).
    { vm_compute in E. injection E as <-. vm_compute in E1.
      by injection E1 as _ <-. }
    subst o.
    destruct (close_pnl_entry_price engine _ _ _ _ _ _ _ 1%nat 10 E1)
      as (pnl & H1 & _ & _ & _ & H2).
    + vm_compute in E. injection E as <-. simpl. lia.
    + vm_compute in E. injection E as <-. simpl. lia.
    + vm_compute in E. by injection E as <-.
    + lia.
    + vm_compute in E. injection E as <-. vm_compute in E1.
      by injection E1 as <-.
    + exists engine, self', pnl. split; [reflexivity|]. split; [exact E1|].
      split; [exact H1|]. apply H2; [done| | |lia].
      * vm_compute in E. injection E as <-. simpl. discriminate.
      * vm_compute in E. by injection E as <-.
  - exfalso. vm_compute in E. injection E as <-. vm_compute in E1.
    discriminate E1.
Defined.

Section FeedbackProperties.
Context {S : Type} {ops : Strategy.Ops S}.
Import Orchestrator.

Implicit Types (self : Orchestrator.t S) (tick_data : Tick).

(** X15: The AIMD feedback of a close.  In a netting tick of a well-formed
    engine with a limit that is not negative, a positive price and a cost
    rate in [0, 1), take a slot that held a position and whose closed flag
    is raised.  If the position was long its ask grows by [reward_add]; if
    it was short its ask becomes [max(1, int(ask * penalty_mult))], the
    product being Python's ([Py.int_mul]): the feedback follows the side
    of the closed position, not the prices at which it was entered and
    closed. *)
Theorem close_feedback self tick_data day_num self' signals d aimd pnl_list
    (i : nat) (q a : Z) :
  process_tick self tick_data day_num
  = Some (self', Netted signals d aimd pnl_list) →
  well_formed self →
  0 ≤ self.(position).(Position.inventory_limit) →
  (0 < tick_data.(Price))%Q →
  (0 <= self.(tran_cost))%Q → (self.(tran_cost) < 1)%Q →
  self.(position).(Position.pos) !! i = Some q → q ≠ 0 →
  self.(current_asks).(Asks.asks) !! i = Some a →
  aimd !! i = Some 1 →
  self'.(position).(Position.pos) !! i = Some 0 ∧
  self'.(current_asks).(Asks.asks) !! i
  = Some (if q >? 0 then a + self.(current_asks).(Asks.reward_add)
          else Z.max 1 (Py.int_mul a
                          self.(current_asks).(Asks.penalty_mult))).
Proof.
  intros H [Hw1 Hw2 Hw3 Hw4 Hw5 Hw6 Hw7] HL Hprice Htc0 Htc1 Hq Hq0 Ha Hf.
  pose proof (lookup_lt_Some _ _ _ Hq) as Hi.
  pose proof (netted_tick _ _ _ _ _ _ _ _ H)
    as (s & strats & ledger & s2 & s3 & asks' & _ & _ & _ & _ & _ & _ & Hsl
        & _ & Hup & _ & _ & Ens & Hpnl & Hask & Epos & Easks & _ & _).
  destruct (lookup_lt_is_Some_2 signals i) as [sg Hsg]; [lia|].
  assert (Hl1 : length signals = length self.(position).(Position.pos))
    by lia.
  assert (Hl2 : length self.(current_asks).(Asks.asks)
                = length self.(position).(Position.pos)) by lia.
  destruct (update_position_slot _ _ _ _ _ _ i q a sg HL Hl1 Hl2 Hup
              Hq Ha Hsg) as (d' & p' & _ & Hp' & _ & Habs & Hf').
  rewrite Hf in Hf'.
  destruct (slot_rule d' (a * sg) q).1.2 eqn:Er; [|discriminate Hf'].
  destruct (proj1 (slot_rule_flag d' (a * sg) q) Er) as [_ Hz].
  rewrite Hz in Habs. assert (p' = 0) as -> by lia.
  assert (Hfinal : self'.(position).(Position.pos) !! i = Some 0)
    by (by rewrite Epos).
  split; [done|].
  assert (Hi1 : (i < length self.(strategies))%nat) by lia.
  assert (Hi2 : (i < self.(num_strats))%nat) by lia.
  destruct (close_pnl _ _ _ _ _ _ _ _ i q H Hi1 Hi2 Hq Hq0 Hfinal)
    as (Hpi & _ & _).
  pose proof (pnl_list_length _ _ _ _ _ _ Hpnl) as Hpl.
  pose proof (update_position_length _ _ _ _ _ Hup) as (_ & _ & Hal).
  simpl in Hal.
  destruct (asks_update_loop self.(current_asks) pnl_list aimd
              self.(current_asks).(Asks.asks)
              (length self.(current_asks).(Asks.asks)))
    as (l & El & _ & Hslots); [lia|lia|lia|].
  unfold Asks.update in Hask. rewrite El in Hask. simpl in Hask.
  injection Hask as <-. rewrite Easks. simpl.
  rewrite (Hslots i a _ 1 Ha Hpi Hf).
  case_decide; [|lia]. f_equal.
  destruct (calc_pnl_value_sign self.(tran_cost) tick_data.(Price) q
              Hprice Htc0 Htc1) as [Hpos Hneg].
  destruct (aimd_rule_cases self.(current_asks) a
              (calc_pnl_value self.(tran_cost) 0 tick_data.(Price) q) 1)
    as (Hr1 & Hr2 & _).
  destruct (Z.ltb_spec 0 q) as [Hq1|Hq1]; rewrite Z.gtb_ltb.
  - replace (0 <? q) with true by (symmetry; by apply Z.ltb_lt).
    apply Hr1; [done|]. by apply Hpos.
  - replace (0 <? q) with false by (symmetry; apply Z.ltb_ge; lia).
    apply Hr2; [done|]. apply Hneg. lia.
Qed.

End FeedbackProperties.

Lemma close_feedback_witness :
  ∃ engine self' pnl,
    short_engine = Some engine ∧
    Orchestrator.process_tick (ops := Strategy.Strategy_B) engine
      (mk_tick (mk_time 2 0 1) 60) 1
    = Some (self', Orchestrator.Netted [1] 10 [1] [pnl]) ∧
    engine.(Orchestrator.current_asks).(Asks.asks) !! 0%nat = Some 10 ∧
    self'.(Orchestrator.current_asks).(Asks.asks) !! 0%nat = Some 6.
Proof.
  destruct short_engine as [engine|] eqn:E;
    [|vm_compute in E; discriminate E].
  destruct (Orchestrator.process_tick (ops := Strategy.Strategy_B) engine
              (mk_tick (mk_time 2 0 1) 60) 1) as [[self' o]|] eqn:E1.
  - assert (Ho : ∃ pnl, o = Orchestrator.Netted [1] 10 [1] [pnl]).
    { vm_compute in E. injection E as <-. vm_compute in E1.
      injection E1 as _ <-. by eexists. }
    destruct Ho as [pnl ->].
    assert (Ha : engine.(Orchestrator.current_asks).(Asks.asks) !! 0%nat
                 = Some 10).
    { vm_compute in E. by injection E as <-. }
    destruct (close_feedback engine _ _ _ _ _ _ _ 0%nat (-10) 10 E1)
      as [_ H]; try exact Ha.
    + vm_compute in E. injection E as <-. by split.
    + vm_compute in E. injection E as <-. simpl. lia.
    + done.
    + vm_compute in E. injection E as <-. simpl. discriminate.
    + vm_compute in E. by injection E as <-.
    + vm_compute in E. by injection E as <-.
    + lia.
    + reflexivity.
    + exists engine, self', pnl. split; [reflexivity|]. split; [exact E1|].
      split; [exact Ha|]. rewrite H. f_equal.
      vm_compute in E. by injection E as <-.
  - exfalso. vm_compute in E. injection E as <-. vm_compute in E1.
    discriminate E1.
Defined.

(** ** [get_signals] *)

Section SignalFacts.
Context {S : Type} {ops : Strategy.Ops S}.
Import Orchestrator.

Implicit Types (self : Orchestrator.t S) (tick_data : Tick).

Lemma slot_signal_range (p : Z) (strategy : S) v strategy' :
  slot_signal p strategy = Some (v, strategy') →
  -1 ≤ v ≤ 1 ∧ v * p ≤ 0.
Proof.
  unfold slot_signal. intros H.
  destruct (Z.eqb_spec p 0) as [->|Hp].
  - destruct (Strategy.check_long_entry strategy) as [[[] ?]|];
      simpl in H; try discriminate H.
    + injection H as <- <-. lia.
    + destruct (Strategy.check_short_entry _) as [[[] ?]|];
        simpl in H; try discriminate H; injection H as <- <-; lia.
  - rewrite Z.gtb_ltb in H.
    destruct (Z.ltb_spec 0 p), (Z.ltb_spec p 0); try lia.
    + destruct (Strategy.check_long_exit strategy) as [[[] ?]|];
        simpl in H; try discriminate H; injection H as <- <-; lia.
    + simpl in H.
      destruct (Strategy.check_short_exit strategy) as [[[] ?]|];
        simpl in H; try discriminate H; injection H as <- <-; lia.
Qed.

Lemma get_signals_body_slot posn i signals strats signals' strats' :
  get_signals_body posn i (signals, strats) = Some (signals', strats') →
  signals !! i = Some 0 →
  ∃ strategy p v strategy',
    strats !! i = Some strategy ∧ posn !! i = Some p ∧
    slot_signal p strategy = Some (v, strategy') ∧
    signals' = <[i:=v]> signals ∧ strats' = <[i:=strategy']> strats.
Proof.
  unfold get_signals_body, slot_signal. intros H Hz.
  destruct (strats !! i) as [strategy|]; simpl in H; [|done].
  destruct (posn !! i) as [p|]; simpl in H; [|done].
  exists strategy, p.
  destruct (p =? 0).
  - destruct (Strategy.check_long_entry strategy) as [[[] st1]|];
      simpl in H |- *; try discriminate H.
    + destruct (Py.store i 1 signals) as [l|] eqn:E; simpl in H;
        [|discriminate H].
      apply store_Some in E as [_ ->]. injection H as <- <-.
      by eexists _, _.
    + destruct (Strategy.check_short_entry st1) as [[[] st2]|];
        simpl in H |- *; try discriminate H.
      * destruct (Py.store i (-1) signals) as [l|] eqn:E; simpl in H;
          [|discriminate H].
        apply store_Some in E as [_ ->]. injection H as <- <-.
        by eexists _, _.
      * injection H as <- <-. eexists _, _.
        repeat split; try done. by rewrite list_insert_id.
  - destruct (if p >? 0 then Strategy.check_long_exit strategy
              else Some (false, strategy)) as [[[] st1]|];
      simpl in H |- *; try discriminate H.
    + destruct (Py.store i (-1) signals) as [l|] eqn:E; simpl in H;
        [|discriminate H].
      apply store_Some in E as [_ ->]. injection H as <- <-.
      by eexists _, _.
    + destruct (if p <? 0 then Strategy.check_short_exit st1
                else Some (false, st1)) as [[[] st2]|];
        simpl in H |- *; try discriminate H.
      * destruct (Py.store i 1 signals) as [l|] eqn:E; simpl in H;
          [|discriminate H].
        apply store_Some in E as [_ ->]. injection H as <- <-.
        by eexists _, _.
      * destruct (Py.store i 0 signals) as [l|] eqn:E; simpl in H;
          [|discriminate H].
        apply store_Some in E as [_ ->]. injection H as <- <-.
        by eexists _, _.
Qed.

Lemma get_signals_loop posn n strats0 k signals strats :
  Py.for_each (get_signals_body posn) (Py.range k) (replicate n 0, strats0)
  = Some (signals, strats) →
  length signals = n ∧ length strats = length strats0 ∧
  (∀ i, (k ≤ i)%nat →
     signals !! i = replicate n 0 !! i ∧ strats !! i = strats0 !! i) ∧
  (∀ i strategy p, (i < k)%nat → (i < n)%nat →
     strats0 !! i = Some strategy → posn !! i = Some p →
     ∃ v strategy', slot_signal p strategy = Some (v, strategy') ∧
       signals !! i = Some v ∧ strats !! i = Some strategy').
Proof.
  revert signals strats. induction k as [|k IH]; intros signals strats H.
  - injection H as <- <-. rewrite length_replicate.
    repeat split; try done. intros; lia.
  - rewrite range_S, for_each_app in H.
    apply bind_Some in H as ([sig1 str1] & E1 & H).
    cbn [Py.for_each] in H. apply bind_Some in H as ([sig2 str2] & Eb & H).
    injection H as <- <-.
    destruct (IH _ _ E1) as (Hl1 & Hl2 & Hrest & Hdone).
    pose proof (get_signals_body_length _ _ _ _ _ _ Eb) as [Hl3 Hl4].
    split; [lia|]. split; [lia|].
    destruct (decide (k < n)%nat) as [Hkn|Hkn].
    + assert (Hz : sig1 !! k = Some 0).
      { rewrite (proj1 (Hrest k ltac:(lia))).
        by apply lookup_replicate_2. }
      apply get_signals_body_slot in Eb
        as (st & p & v & st' & Hst & Hp & Hv & -> & ->); [|done].
      split.
      * intros i Hi. destruct (Hrest i ltac:(lia)) as [<- <-].
        split; by rewrite list_lookup_insert_ne by lia.
      * intros i strategy p0 Hi Hin Hs0 Hp0.
        destruct (decide (i = k)) as [->|Hne].
        -- rewrite (proj2 (Hrest k ltac:(lia))) in Hst.
           assert (strategy = st) as -> by congruence.
           assert (p0 = p) as -> by congruence.
           pose proof (lookup_lt_Some _ _ _ Hs0).
           exists v, st'. split; [done|].
           split; apply list_lookup_insert_eq; lia.
        -- destruct (Hdone i strategy p0 ltac:(lia) Hin Hs0 Hp0)
             as (v0 & st0 & ? & ? & ?).
           exists v0, st0. split; [done|].
           split; by rewrite list_lookup_insert_ne by lia.
    + assert (Hother : ∀ i, i ≠ k →
                sig2 !! i = sig1 !! i ∧ str2 !! i = str1 !! i).
      { intros i Hi. clear -Eb Hi Hl1 Hkn.
        unfold get_signals_body in Eb.
        destruct (str1 !! k) as [strategy|]; simpl in Eb; [|done].
        destruct (posn !! k) as [p|]; simpl in Eb; [|done].
        repeat match type of Eb with
        | context [Py.store ?j ?v ?l] =>
          let E := fresh "E" in
          destruct (Py.store j v l) eqn:E; simpl in Eb;
            [apply store_Some in E as [? ->]|try discriminate Eb]
        | context [if ?b then _ else _] => destruct b; simpl in Eb
        | context [Strategy.check_long_entry ?x] =>
          destruct (Strategy.check_long_entry x) as [[? ?]|]; simpl in Eb
        | context [Strategy.check_short_entry ?x] =>
          destruct (Strategy.check_short_entry x) as [[? ?]|]; simpl in Eb
        | context [Strategy.check_long_exit ?x] =>
          destruct (Strategy.check_long_exit x) as [[? ?]|]; simpl in Eb
        | context [Strategy.check_short_exit ?x] =>
          destruct (Strategy.check_short_exit x) as [[? ?]|]; simpl in Eb
        end; try discriminate Eb; injection Eb as <- <-;
          by rewrite ?list_lookup_insert_ne by done. }
      split.
      * intros i Hi. destruct (Hother i ltac:(lia)) as [-> ->].
        apply Hrest. lia.
      * intros i strategy p0 Hi Hin Hs0 Hp0.
        destruct (Hother i ltac:(lia)) as [-> ->].
        apply Hdone; try done. lia.
Qed.

Lemma get_signals_slot self tick_data signals strats i strategy p :
  get_signals self tick_data = Some (signals, strats) →
  (i < self.(num_strats))%nat →
  self.(strategies) !! i = Some strategy →
  self.(position).(Position.pos) !! i = Some p →
  ∃ v strategy', slot_signal p strategy = Some (v, strategy') ∧
    signals !! i = Some v ∧ strats !! i = Some strategy'.
Proof.
  unfold get_signals. intros H Hi Hs Hp.
  apply get_signals_loop in H as (_ & _ & _ & H).
  apply (H i strategy p); try done. by apply lookup_lt_Some in Hs.
Qed.

(** X16: [get_signals] decides every slot on its own, from the slot's position
    and its strategy object as they were before the call: a flat slot
    asks [check_long_entry] and, only when that is false,
    [check_short_entry]; a long slot asks only [check_long_exit] and a
    short slot only [check_short_exit].  There is one signal per slot,
    every signal is -1, 0 or 1, and a signal never has the sign of the
    position that the slot holds. *)
Theorem get_signals_per_slot self tick_data signals strats :
  get_signals self tick_data = Some (signals, strats) →
  length signals = self.(num_strats) ∧
  length strats = length self.(strategies) ∧
  ∀ i strategy p,
    (i < self.(num_strats))%nat →
    self.(strategies) !! i = Some strategy →
    self.(position).(Position.pos) !! i = Some p →
    ∃ v strategy', slot_signal p strategy = Some (v, strategy') ∧
      signals !! i = Some v ∧ strats !! i = Some strategy' ∧
      -1 ≤ v ≤ 1 ∧ v * p ≤ 0.
Proof.
  intros H. pose proof (get_signals_length _ _ _ _ H) as [Hl1 Hl2].
  split; [done|]. split; [done|].
  intros i strategy p Hi Hs Hp.
  destruct (get_signals_slot _ _ _ _ _ _ _ H Hi Hs Hp)
    as (v & st' & Hv & Hsig & Hst).
  exists v, st'. repeat split; try done;
    apply (slot_signal_range _ _ _ _ Hv).
Qed.

End SignalFacts.

Lemma get_signals_per_slot_witness :
  ∃ engine signals strats v,
    starvation_engine = Some engine ∧
    Orchestrator.get_signals (ops := Strategy.base) engine
      (mk_tick (mk_time 2 0 0) 100) = Some (signals, strats) ∧
    signals !! 1%nat = Some v ∧ v * 10 ≤ 0.
Proof.
  destruct starvation_engine as [engine|] eqn:E;
    [|vm_compute in E; discriminate E].
  destruct (Orchestrator.get_signals (ops := Strategy.base) engine
              (mk_tick (mk_time 2 0 0) 100)) as [[signals strats]|] eqn:E1.
  - destruct (get_signals_per_slot (ops := Strategy.base) _ _ _ _ E1)
      as (_ & _ & H).
    destruct (H 1%nat (Strategy.init 1 1) 10) as (v & st' & _ & Hv & _ & _ & Hs).
    + vm_compute in E. injection E as <-. simpl. lia.
    + vm_compute in E. by injection E as <-.
    + vm_compute in E. by injection E as <-.
    + exists engine, signals, strats, v. by repeat split.
  - exfalso. vm_compute in E. injection E as <-. vm_compute in E1.
    discriminate E1.
Defined.

Lemma slot_rule_moves d a p :
  let r := slot_rule d a p in
  (p ≠ 0 → a * p ≤ 0 → r.1.1 = 0 ∨ r.1.1 = p) ∧
  (p = 0 → r.1.1 = 0 ∨ r.1.1 = a).
Proof.
  unfold slot_rule. repeat zcase; simpl; repeat zcase; simpl;
    split; intros; try lia; try nia.
Qed.

Section SlotMoves.
Context {S : Type} {ops : Strategy.Ops S}.
Import Orchestrator.

Implicit Types (self : Orchestrator.t S) (tick_data : Tick).

(** X17: How a netting tick moves a slot, for a well-formed engine with a
    limit and ask sizes that are not negative.  A slot that holds a
    position never grows and never changes side: it keeps its position,
    is reduced or is closed.  A flat slot opens only on the side of its
    own signal and by at most its ask size.  New exposure therefore
    enters the book through flat slots only. *)
Theorem netting_slot_moves self tick_data day_num self' signals d aimd
    pnl_list :
  process_tick self tick_data day_num
  = Some (self', Netted signals d aimd pnl_list) →
  well_formed self →
  0 ≤ self.(position).(Position.inventory_limit) →
  Forall (λ a, 0 ≤ a) self.(current_asks).(Asks.asks) →
  ∀ i p a,
    self.(position).(Position.pos) !! i = Some p →
    self.(current_asks).(Asks.asks) !! i = Some a →
    ∃ v p', signals !! i = Some v ∧
      self'.(position).(Position.pos) !! i = Some p' ∧
      (p ≠ 0 → 0 ≤ p' * p ∧ Z.abs p' ≤ Z.abs p) ∧
      (p = 0 → 0 ≤ p' * v ∧ Z.abs p' ≤ a * Z.abs v ∧ Z.abs p' ≤ a).
Proof.
  intros H [Hw1 Hw2 Hw3 Hw4 Hw5 Hw6 Hw7] HL Hasks i p a Hp Ha.
  pose proof (lookup_lt_Some _ _ _ Hp) as Hi.
  pose proof (netted_tick _ _ _ _ _ _ _ _ H)
    as (s & strats & ledger & s2 & s3 & asks' & _ & Eps & _ & Ens & Els
        & Hsig & Hsl & _ & Hup & _ & _ & _ & _ & _ & Epos & _ & _ & _).
  destruct (lookup_lt_is_Some_2 s.(strategies) i) as [st Hst]; [lia|].
  destruct (get_signals_slot _ _ _ _ i st p Hsig) as (v & st' & Hv & Hsg & _);
    [lia|done|by rewrite Eps|].
  apply slot_signal_range in Hv as [Hv1 Hv2].
  assert (Hl1 : length signals = length self.(position).(Position.pos))
    by lia.
  assert (Hl2 : length self.(current_asks).(Asks.asks)
                = length self.(position).(Position.pos)) by lia.
  destruct (update_position_net_from _ _ _ Hl1 Hl2)
    as (asks & Es & _ & Eu).
  rewrite Eu in Hup. cbn zeta in Hup. injection Hup as <- _ _.
  pose proof (signed_asks_lookup _ _ _ _ _ _ Es Ha Hsg) as Hask.
  destruct (net_from_lookup 0 asks self.(position).(Position.pos) i _ p
              ltac:(lia) Hask Hp) as (d' & _ & Hn).
  pose proof (slot_rule_moves d' (a * v) p) as [Hheld Hflat].
  set (r := slot_rule d' (a * v) p) in *.
  assert (Hq : (fst <$> net_from 0 asks self.(position).(Position.pos)) !! i
               = Some r.1.1) by (by rewrite list_lookup_fmap, Hn).
  destruct (normalize_from_lookup
              self.(position).(Position.inventory_limit) _ i _ HL Hq)
    as (p' & Hp' & Hsign & Habs).
  exists v, p'. split; [done|]. split; [by rewrite Epos|].
  assert (Ha0 : 0 ≤ a) by (rewrite Forall_lookup in Hasks; by eapply Hasks).
  split.
  - intros Hp0. destruct Hheld as [E|E]; [done|nia|rewrite E in *..]; lia.
  - intros Hp0. destruct (Hflat Hp0) as [E|E]; rewrite E in *; nia.
Qed.

End SlotMoves.

Lemma netting_slot_moves_witness :
  ∃ engine self' pnl p',
    stop_loss_engine = Some engine ∧
    Orchestrator.process_tick (ops := Strategy.Strategy_A) engine
      (mk_tick (mk_time 2 0 1) 40) 1
    = Some (self', Orchestrator.Netted [-1] (-10) [1] [pnl]) ∧
    self'.(Orchestrator.position).(Position.pos) !! 0%nat = Some p' ∧
    Z.abs p' ≤ Z.abs 10.
Proof.
  destruct stop_loss_engine as [engine|] eqn:E;
    [|vm_compute in E; discriminate E].
  destruct (Orchestrator.process_tick (ops := Strategy.Strategy_A) engine
              (mk_tick (mk_time 2 0 1) 40) 1) as [[self' o]|] eqn:E1.
  - assert (Ho : ∃ pnl, o = Orchestrator.Netted [-1] (-10) [1] [pnl]).
    { vm_compute in E. injection E as <-. vm_compute in E1.
      injection E1 as _ <-. by eexists. }
    destruct Ho as [pnl ->].
    destruct (netting_slot_moves engine _ _ _ _ _ _ _ E1) with (i := 0%nat)
      (p := 10) (a := 10) as (v & p' & _ & Hp' & Hheld & _).
    + vm_compute in E. injection E as <-. by split.
    + vm_compute in E. injection E as <-. simpl. lia.
    + vm_compute in E. injection E as <-. simpl. repeat constructor. lia.
    + vm_compute in E. by injection E as <-.
    + vm_compute in E. by injection E as <-.
    + exists engine, self', pnl, p'. split; [reflexivity|].
      split; [exact E1|]. split; [exact Hp'|]. apply Hheld. lia.
  - exfalso. vm_compute in E. injection E as <-. vm_compute in E1.
    discriminate E1.
Defined.

(** ** The end of the day *)

Section EodProperties.
Context {S : Type} {ops : Strategy.Ops S}.
Import Orchestrator.

Implicit Types (self : Orchestrator.t S) (tick_data : Tick).

Lemma begin_tick_indicators self tick_data day_num s :
  begin_tick self tick_data day_num = Some s →
  s.(eod_squared_off) = false →
  mapM (λ strategy, Strategy.update_indicators strategy tick_data)
    self.(strategies) = Some s.(strategies).
Proof.
  unfold begin_tick. intros H.
  destruct (rollover_view self tick_data day_num)
    as (_ & _ & E3 & _).
  rewrite <- E3.
  remember (set_current_pointer _ _) as s0 eqn:Es0. clear Es0 E3.
  destruct (eod_squared_off s0) eqn:Ee; cbn [negb] in H.
  - simpl in H.
    destruct (snapshot_period s0 =? 0); [discriminate H|].
    destruct (_ =? 0); injection H as <-; simpl; congruence.
  - destruct (mapM _ _) as [strats|] eqn:Em; simpl in H; [|discriminate H].
    destruct (snapshot_period s0 =? 0); [discriminate H|].
    destruct (_ =? 0); by injection H as <-.
Qed.

Lemma blocked_tick self tick_data day_num self' out :
  self.(current_day) = Some day_num → self.(eod_squared_off) = true →
  process_tick self tick_data day_num = Some (self', out) →
  (out = Blocked ∨ is_release out = true) ∧
  self'.(current_day) = Some day_num ∧
  self'.(eod_squared_off) = true ∧
  self'.(position) = self.(position) ∧
  self'.(current_asks) = self.(current_asks) ∧
  self'.(strategies) = self.(strategies) ∧
  self'.(entry_prices) = self.(entry_prices) ∧
  self'.(entry_times) = self.(entry_times).
Proof.
  intros Hday Heod H. apply process_tick_inv in H as (s & Hs & Hcases).
  pose proof (begin_tick_view _ _ _ _ Hs)
    as (Hep & Het & _ & _ & _ & _ & _ & Hst).
  specialize (Hst Hday Heod).
  pose proof (begin_tick_core _ _ _ _ Hs) as Hc.
  pose proof (f_equal c_position Hc) as Epos.
  pose proof (f_equal c_asks Hc) as Easks.
  pose proof (f_equal c_eod Hc) as Eeod.
  pose proof (f_equal c_day Hc) as Ed.
  cbn in Epos, Easks, Eeod, Ed. clear Hc.
  rewrite decide_False in Eeod by (intros Hne; by apply Hne).
  rewrite Heod in Eeod.
  rewrite <- Epos, <- Easks, <- Hst, <- Hep, <- Het, <- Ed, <- Eeod.
  destruct Hcases as [(Hd & -> & ->)|[(Hd & He & -> & ->)|
                      [(Hd & He & Hlen & Hsq)|(Hd & He & Hlen & Htr)]]].
  - split; [by right|]. by repeat split.
  - split; [by left|]. by repeat split.
  - congruence.
  - congruence.
Qed.

(** X18: After the end-of-day square-off the day is closed.  Over all further
    ticks that carry the same day number the engine only releases
    backlog: every tick is either a release or is blocked (no netting
    pass and no second square-off), and the positions, the ask sizes,
    the strategy objects (which are not even shown the ticks) and the
    recorded entry prices and times stay exactly as they were; the flag
    stays set. *)
Theorem eod_blocks_the_day self day_num ticks self' outs :
  Forall (λ x, x.1 = day_num) ticks →
  self.(current_day) = Some day_num → self.(eod_squared_off) = true →
  run self ticks = Some (self', outs) →
  Forall (λ out, out = Blocked ∨ is_release out = true) outs ∧
  self'.(eod_squared_off) = true ∧
  self'.(position) = self.(position) ∧
  self'.(current_asks) = self.(current_asks) ∧
  self'.(strategies) = self.(strategies) ∧
  self'.(entry_prices) = self.(entry_prices) ∧
  self'.(entry_times) = self.(entry_times).
Proof.
  revert self outs. induction ticks as [|[d tick_data] ticks IH];
    intros self outs Hall Hday Heod H; simpl in H.
  - injection H as <- <-. by repeat split.
  - apply Forall_cons in Hall as [Hd Hall]. simpl in Hd. subst d.
    destruct (process_tick self tick_data day_num) as [[s1 o]|] eqn:E1;
      simpl in H; [|discriminate H].
    destruct (run s1 ticks) as [[s2 os]|] eqn:E2; simpl in H;
      [|discriminate H].
    injection H as <- <-.
    apply (blocked_tick _ _ _ _ _ Hday Heod) in E1
      as (Ho & Hd1 & He1 & <- & <- & <- & <- & <-).
    destruct (IH _ _ Hall Hd1 He1 E2) as (Hos & ? & ? & ? & ? & ? & ?).
    split; [by constructor|]. by repeat split.
Qed.

(** X19: The end-of-day square-off gives no feedback.  The tick that squares
    the book off leaves the ask sizes, the fee total and the engine's
    recorded entry prices and entry times untouched (no PnL is computed
    for the positions it closes), while every strategy object is shown
    the tick and then reset. *)
Theorem square_off_frame self tick_data day_num self' push :
  process_tick self tick_data day_num = Some (self', SquaredOff push) →
  self'.(current_asks) = self.(current_asks) ∧
  self'.(total_fee) = self.(total_fee) ∧
  self'.(entry_prices) = self.(entry_prices) ∧
  self'.(entry_times) = self.(entry_times) ∧
  ∃ strats,
    mapM (λ strategy, Strategy.update_indicators strategy tick_data)
      self.(strategies) = Some strats ∧
    mapM Strategy.reset strats = Some self'.(strategies).
Proof.
  intros H. apply process_tick_inv in H as (s & Hs & Hcases).
  pose proof (begin_tick_view _ _ _ _ Hs)
    as (Hep & Het & _ & _ & _ & Hfee & _ & _).
  pose proof (begin_tick_core _ _ _ _ Hs) as Hc.
  pose proof (f_equal c_asks Hc) as Easks. cbn in Easks. clear Hc.
  destruct Hcases as [(_ & [=] & _)|[(_ & _ & [=] & _)|
                      [(_ & He & _ & Hsq)|(_ & _ & _ & Htr)]]].
  - pose proof (begin_tick_indicators _ _ _ _ Hs He) as Hind.
    pose proof (square_off_inv _ _ _ Hsq) as [_ Hc].
    pose proof (f_equal c_asks Hc) as Easks'. cbn in Easks'.
    apply square_off_view in Hsq as (_ & Hep' & Het' & Hfee' & Hreset).
    rewrite Easks', Hep', Het', Hfee'. repeat split; try done.
    by exists s.(strategies).
  - apply trade_core in Htr as (? & ? & ? & ? & ? & ? & [=] & _).
Qed.

(** X20: A snapshot period of 0 stops the engine: every call of
    [process_tick] raises (the remainder by zero), on every tick and
    whatever the strategies are, so no run of one tick or more comes to
    its end. *)
Theorem zero_snapshot_period self tick_data day_num :
  self.(snapshot_period) = 0 →
  process_tick self tick_data day_num = None ∧
  ∀ ticks, run self ((day_num, tick_data) :: ticks) = None.
Proof.
  intros Hz.
  assert (H : process_tick self tick_data day_num = None).
  { destruct (process_tick self tick_data day_num) as [[s o]|] eqn:E;
      [|done].
    by apply process_tick_books in E as [Hne _]. }
  split; [done|]. intros ticks. simpl. by rewrite H.
Qed.

(** X21: Snapshots.  Every tick that [process_tick] handles appends exactly
    one row to [snap_book] when its time of day is a multiple of
    [snapshot_period] and none otherwise, on every path (release,
    blocked, square-off or netting); no row is ever removed.  The row
    carries the time of the tick, the day number of the tick and the
    total of the ledger as it was when the tick arrived, before the
    tick's own square-off or netting. *)
Theorem snapshot_rule self tick_data day_num self' out :
  process_tick self tick_data day_num = Some (self', out) →
  ∃ rows, self'.(snap_book) = self.(snap_book) ++ rows ∧
    if time_to_seconds tick_data.(Time) mod self.(snapshot_period) =? 0
    then ∃ row, rows = [row] ∧ row_of_snapshot row self tick_data day_num
    else rows = [].
Proof.
  intros H. apply process_tick_inv in H as (s & Hs & Hcases).
  apply begin_tick_view in Hs as (_ & _ & _ & Hsnap & _).
  assert (Hbook : self'.(snap_book) = s.(snap_book)).
  { destruct Hcases as [(_ & _ & ->)|[(_ & _ & _ & ->)|
                        [(_ & _ & _ & Hsq)|(_ & _ & _ & Htr)]]].
    - reflexivity.
    - reflexivity.
    - apply square_off_view in Hsq as (Hb & _). by injection Hb.
    - apply trade_books in Htr. by injection Htr. }
  rewrite Hbook, Hsnap. eexists. split; [reflexivity|].
  destruct (_ =? 0); [|reflexivity].
  eexists. split; [reflexivity|]. by repeat split.
Qed.

End EodProperties.

Lemma eod_blocks_the_day_witness :
  ∃ engine s1 self' outs,
    demo_engine = Some engine ∧
    Orchestrator.process_tick (ops := Strategy.Strategy_A) engine
      (mk_tick (mk_time 6 0 0) 100) 1
    = Some (s1, Orchestrator.SquaredOff 0) ∧
    Orchestrator.run (ops := Strategy.Strategy_A) s1
      [ (1, mk_tick (mk_time 6 0 1) 101); (1, mk_tick (mk_time 7 0 0) 102) ]
    = Some (self', outs) ∧
    self'.(Orchestrator.strategies) = s1.(Orchestrator.strategies) ∧
    self'.(Orchestrator.position) = s1.(Orchestrator.position).
Proof.
  destruct demo_engine as [engine|] eqn:E; [|vm_compute in E; discriminate E].
  destruct (Orchestrator.process_tick (ops := Strategy.Strategy_A) engine
              (mk_tick (mk_time 6 0 0) 100) 1) as [[s1 o]|] eqn:E1.
  - assert (Ho : o = Orchestrator.SquaredOff 0).
    { vm_compute in E. injection E as <-. vm_compute in E1.
      by injection E1 as _ <-. }
    subst o.
    destruct (Orchestrator.run (ops := Strategy.Strategy_A) s1
                [ (1, mk_tick (mk_time 6 0 1) 101);
                  (1, mk_tick (mk_time 7 0 0) 102) ])
      as [[self' outs]|] eqn:E2.
    + exists engine, s1, self', outs. split; [reflexivity|].
      split; [exact E1|]. split; [exact E2|].
      assert (Hall : Forall (λ x : Z * Tick, x.1 = 1)
                [ (1, mk_tick (mk_time 6 0 1) 101);
                  (1, mk_tick (mk_time 7 0 0) 102) ])
        by (repeat constructor).
      destruct (λ H1 H2, eod_blocks_the_day (ops := Strategy.Strategy_A)
                           s1 1 _ _ _ Hall H1 H2 E2)
        as (_ & _ & Hp & _ & Hs & _).
      * vm_compute in E. injection E as <-. vm_compute in E1.
        by injection E1 as <-.
      * vm_compute in E. injection E as <-. vm_compute in E1.
        by injection E1 as <-.
      * by split.
    + exfalso. vm_compute in E. injection E as <-. vm_compute in E1.
      injection E1 as <-. vm_compute in E2. discriminate E2.
  - exfalso. vm_compute in E. injection E as <-. vm_compute in E1.
    discriminate E1.
Defined.

Lemma square_off_frame_witness :
  ∃ engine self',
    stop_loss_engine = Some engine ∧
    Orchestrator.process_tick (ops := Strategy.Strategy_A) engine
      (mk_tick (mk_time 6 0 0) 40) 1
    = Some (self', Orchestrator.SquaredOff (-10)) ∧
    self'.(Orchestrator.entry_prices) = [50%Q] ∧
    self'.(Orchestrator.position).(Position.pos) = [0].
Proof.
  destruct stop_loss_engine as [engine|] eqn:E;
    [|vm_compute in E; discriminate E].
  destruct (Orchestrator.process_tick (ops := Strategy.Strategy_A) engine
              (mk_tick (mk_time 6 0 0) 40) 1) as [[self' o]|] eqn:E1.
  - assert (Ho : o = Orchestrator.SquaredOff (-10)).
    { vm_compute in E. injection E as <-. vm_compute in E1.
      by injection E1 as _ <-. }
    subst o. exists engine, self'. split; [reflexivity|].
    split; [exact E1|].
    destruct (square_off_frame _ _ _ _ _ E1) as (_ & _ & -> & _).
    split.
    + vm_compute in E. by injection E as <-.
    + vm_compute in E. injection E as <-. vm_compute in E1.
      by injection E1 as <-.
  - exfalso. vm_compute in E. injection E as <-. vm_compute in E1.
    discriminate E1.
Defined.

Lemma zero_snapshot_period_witness :
  ∃ engine,
    Orchestrator.init [Strategy.init 1 1] zero_period_config = Some engine ∧
    Orchestrator.process_tick (ops := Strategy.Strategy_A) engine
      (mk_tick (mk_time 2 0 0) 100) 1 = None.
Proof.
  destruct (Orchestrator.init [Strategy.init 1 1] zero_period_config)
    as [engine|] eqn:E; [|vm_compute in E; discriminate E].
  exists engine. split; [reflexivity|].
  apply (zero_snapshot_period (ops := Strategy.Strategy_A)).
  vm_compute in E. by injection E as <-.
Defined.

Lemma snapshot_rule_witness :
  ∃ engine self' out row,
    demo_engine = Some engine ∧
    Orchestrator.process_tick (ops := Strategy.Strategy_A) engine
      (mk_tick (mk_time 2 0 0) 100) 1 = Some (self', out) ∧
    self'.(Orchestrator.snap_book) = [row] ∧
    row.(Orchestrator.sn_Time) = mk_time 2 0 0 ∧
    row.(Orchestrator.sn_Day) = Some 1 ∧
    row.(Orchestrator.sn_Inventory) = 0.
Proof.
  destruct demo_engine as [engine|] eqn:E; [|vm_compute in E; discriminate E].
  destruct (Orchestrator.process_tick (ops := Strategy.Strategy_A) engine
              (mk_tick (mk_time 2 0 0) 100) 1) as [[self' o]|] eqn:E1.
  - destruct (snapshot_rule _ _ _ _ _ E1) as (rows & Hbook & Hrows).
    assert (Hs : engine.(Orchestrator.snap_book) = []
                 ∧ engine.(Orchestrator.snapshot_period) = 300
                 ∧ Py.sum engine.(Orchestrator.position).(Position.pos) = 0).
    { clear E1 Hbook Hrows. vm_compute in E. injection E as <-.
      repeat split. }
    destruct Hs as (Hs1 & Hs2 & Hs3). rewrite Hs1 in Hbook.
    rewrite Hs2 in Hrows. simpl in Hrows.
    destruct Hrows as (row & -> & Ht & Hd & Hi).
    exists engine, self', o, row. split; [reflexivity|]. split; [exact E1|].
    split; [exact Hbook|]. split; [exact Ht|]. split; [exact Hd|].
    by rewrite Hi.
  - exfalso. vm_compute in E. injection E as <-. vm_compute in E1.
    discriminate E1.
Defined.

(** ** [strategy.py]: the example strategies *)

Lemma tp_sl_always (tp sl pnl : Q) :
  (tp <= - sl)%Q → Qle_bool tp pnl || Qle_bool pnl (- sl) = true.
Proof.
  intros H. destruct (Qlt_le_dec pnl tp) as [Hlt|Hle].
  - apply orb_true_iff. right. apply Qle_bool_iff.
    apply Qle_trans with tp; [by apply Qlt_le_weak|done].
  - apply orb_true_iff. left. by apply Qle_bool_iff.
Qed.

(** X22: Take-profit and stop-loss that do not leave a gap, [tp <= -sl] (the
    defaults 0.0 and 0.0 in particular), make the exit check true at every
    price: once a [Strategy_A] (or [Strategy_B]) object has an entry price
    other than 0, [get_signals] answers a long (short) slot of it with
    the exit signal -1 (+1) on every tick.  An entry price of exactly 0
    switches the exit off: the check is false at every price. *)
Theorem exit_without_gap (self : Strategy.t) (tick : Tick) (p : Z) :
  self.(Strategy.current_tick) = Some tick →
  (¬ (self.(Strategy.entry_price) == 0)%Q →
   (self.(Strategy.tp) <= - self.(Strategy.sl))%Q →
   (0 < p → slot_signal (ops := Strategy.Strategy_A) p self
            = Some (-1, self)) ∧
   (p < 0 → slot_signal (ops := Strategy.Strategy_B) p self
            = Some (1, self))) ∧
  ((self.(Strategy.entry_price) == 0)%Q →
   (0 < p → slot_signal (ops := Strategy.Strategy_A) p self
            = Some (0, self)) ∧
   (p < 0 → slot_signal (ops := Strategy.Strategy_B) p self
            = Some (0, self))).
Proof.
  intros Htick. split.
  - intros Hep Hgap.
    assert (Eep : Qeq_bool self.(Strategy.entry_price) 0 = false).
    { apply not_true_iff_false. by rewrite Qeq_bool_iff. }
    split; intros Hp; unfold slot_signal.
    + replace (p =? 0) with false by (symmetry; apply Z.eqb_neq; lia).
      replace (p >? 0) with true by (symmetry; apply Z.gtb_lt; lia).
      simpl. unfold Strategy.A_check_long_exit.
      rewrite Eep, Htick. simpl. by rewrite tp_sl_always.
    + replace (p =? 0) with false by (symmetry; apply Z.eqb_neq; lia).
      replace (p >? 0) with false by (symmetry; rewrite Z.gtb_ltb; apply Z.ltb_ge; lia).
      replace (p <? 0) with true by (symmetry; apply Z.ltb_lt; lia).
      simpl. unfold Strategy.B_check_short_exit.
      rewrite Eep, Htick. simpl. by rewrite tp_sl_always.
  - intros Hep. apply Qeq_bool_iff in Hep.
    split; intros Hp; unfold slot_signal.
    + replace (p =? 0) with false by (symmetry; apply Z.eqb_neq; lia).
      replace (p >? 0) with true by (symmetry; apply Z.gtb_lt; lia).
      replace (p <? 0) with false by (symmetry; apply Z.ltb_ge; lia).
      simpl. unfold Strategy.A_check_long_exit. by rewrite Hep.
    + replace (p =? 0) with false by (symmetry; apply Z.eqb_neq; lia).
      replace (p >? 0) with false by (symmetry; rewrite Z.gtb_ltb; apply Z.ltb_ge; lia).
      replace (p <? 0) with true by (symmetry; apply Z.ltb_lt; lia).
      simpl. unfold Strategy.B_check_short_exit. by rewrite Hep.
Qed.

Lemma exit_without_gap_witness :
  slot_signal (ops := Strategy.Strategy_A) 10
    (Strategy.mk 0 0 50 (Some (mk_tick (mk_time 2 0 1) 50)))
  = Some (-1, Strategy.mk 0 0 50 (Some (mk_tick (mk_time 2 0 1) 50))).
Proof.
  apply (exit_without_gap
           (Strategy.mk 0 0 50 (Some (mk_tick (mk_time 2 0 1) 50)))
           (mk_tick (mk_time 2 0 1) 50) 10 eq_refl).
  - simpl. intros H. discriminate H.
  - simpl. discriminate.
  - lia.
Defined.

(** X23: [Strategy_C] alternates.  For a flat slot of a [Strategy_C] object
    that has seen a tick, [get_signals] gives a signal exactly at the
    quarter-hour marks: +1 when [trade_count] is even and -1 when it is
    odd, and [trade_count] grows by one with every signal, so successive
    entries alternate between long and short; off the marks the signal
    is 0 and the object is unchanged.  [reset] sets [trade_count] to 0,
    so the first entry after a reset is long. *)
Theorem strategy_C_alternates (self : Strategy.C_t) (tick : Tick) :
  self.(Strategy.C_base).(Strategy.current_tick) = Some tick →
  (time_to_seconds tick.(Time) mod 900 = 0 →
   slot_signal (ops := Strategy.Strategy_C) 0 self
   = Some (if self.(Strategy.trade_count) mod 2 =? 0 then 1 else -1,
           Strategy.mk_C self.(Strategy.C_base)
             (self.(Strategy.trade_count) + 1))) ∧
  (time_to_seconds tick.(Time) mod 900 ≠ 0 →
   slot_signal (ops := Strategy.Strategy_C) 0 self = Some (0, self)) ∧
  (∃ self', Strategy.reset (Ops := Strategy.Strategy_C) self = Some self' ∧
     self'.(Strategy.trade_count) = 0).
Proof.
  intros Htick. split; [|split].
  - intros Hmark. unfold slot_signal. simpl.
    unfold Strategy.C_check_long_entry. rewrite Htick. simpl.
    rewrite Hmark. simpl.
    destruct (Z.eqb_spec (self.(Strategy.trade_count) mod 2) 0) as [E|E];
      simpl; [done|].
    unfold Strategy.C_check_short_entry. rewrite Htick. simpl.
    rewrite Hmark. simpl.
    replace (self.(Strategy.trade_count) mod 2 =? 1) with true; [done|].
    symmetry. apply Z.eqb_eq.
    pose proof (Z.mod_pos_bound self.(Strategy.trade_count) 2). lia.
  - intros Hoff. unfold slot_signal. simpl.
    unfold Strategy.C_check_long_entry. rewrite Htick. simpl.
    replace (time_to_seconds tick.(Time) mod 900 =? 0) with false
      by (symmetry; by apply Z.eqb_neq).
    simpl. unfold Strategy.C_check_short_entry. rewrite Htick. simpl.
    replace (time_to_seconds tick.(Time) mod 900 =? 0) with false
      by (symmetry; by apply Z.eqb_neq).
    done.
  - by eexists.
Qed.

Lemma strategy_C_alternates_witness :
  slot_signal (ops := Strategy.Strategy_C) 0
    (Strategy.mk_C (Strategy.mk 1 1 0 (Some (mk_tick (mk_time 0 15 0) 50))) 1)
  = Some (-1,
          Strategy.mk_C
            (Strategy.mk 1 1 0 (Some (mk_tick (mk_time 0 15 0) 50))) 2).
Proof.
  apply (proj1 (strategy_C_alternates
                  (Strategy.mk_C
                     (Strategy.mk 1 1 0 (Some (mk_tick (mk_time 0 15 0) 50)))
                     1)
                  (mk_tick (mk_time 0 15 0) 50) eq_refl)).
  reflexivity.
Defined.

(** ** Equity marking *)

Lemma core_step_period c day_num tick_data o c' :
  core_step c day_num tick_data o c' →
  c'.(c_snapshot_period) = c.(c_snapshot_period).
Proof. intros H. by inversion H; subst. Qed.

Section EquityProperties.
Context {S : Type} {ops : Strategy.Ops S}.
Import Orchestrator.

Implicit Types (self : Orchestrator.t S) (tick_data : Tick).

Lemma begin_tick_equity self tick_data day_num s :
  begin_tick self tick_data day_num = Some s →
  s.(equity)
  = (if decide (self.(current_day) ≠ Some day_num)
     then (self.(cash) + inject_Z self.(current_inventory)
                         * tick_data.(Price))%Q
     else if time_to_seconds tick_data.(Time) mod self.(snapshot_period) =? 0
     then (self.(cash) + inject_Z self.(current_inventory)
                         * tick_data.(Price))%Q
     else self.(equity)) ∧
  s.(day_start_equity)
  = (if decide (self.(current_day) ≠ Some day_num)
     then (self.(cash) + inject_Z self.(current_inventory)
                         * tick_data.(Price))%Q
     else self.(day_start_equity)).
Proof.
  unfold begin_tick. intros H.
  destruct (rollover_view self tick_data day_num)
    as (_ & _ & _ & _ & _ & E6 & _ & E8 & _ & _ & E11 & E12 & _).
  assert (Ee :
    equity (set_current_pointer (time_to_seconds tick_data.(Time))
              (if decide (self.(current_day) ≠ Some day_num)
               then new_day self tick_data day_num else self))
    = (if decide (self.(current_day) ≠ Some day_num)
       then (self.(cash) + inject_Z self.(current_inventory)
                           * tick_data.(Price))%Q
       else self.(equity))) by (by case_decide).
  assert (Ed :
    day_start_equity
      (set_current_pointer (time_to_seconds tick_data.(Time))
         (if decide (self.(current_day) ≠ Some day_num)
          then new_day self tick_data day_num else self))
    = (if decide (self.(current_day) ≠ Some day_num)
       then (self.(cash) + inject_Z self.(current_inventory)
                           * tick_data.(Price))%Q
       else self.(day_start_equity))) by (by case_decide).
  rewrite <- Ed, <- E6, <- E8, <- E12.
  remember (set_current_pointer _ _) as s0 eqn:Es0.
  assert (Ee' : equity s0
    = (if decide (self.(current_day) ≠ Some day_num)
       then (cash s0 + inject_Z (current_inventory s0) * tick_data.(Price))%Q
       else self.(equity))) by (by rewrite Ee, E6, E8).
  clear Es0 Ee Ed E6 E8 E12.
  assert (Hsnap : ∀ s1 : Orchestrator.t S,
    equity (_portfolio_snapshot s1 tick_data)
    = (cash s1 + inject_Z (current_inventory s1) * tick_data.(Price))%Q ∧
    day_start_equity (_portfolio_snapshot s1 tick_data)
    = day_start_equity s1) by done.
  destruct (eod_squared_off s0) eqn:Eeod; cbn [negb] in H.
  - simpl in H. rewrite E11 in H.
    destruct (snapshot_period s0 =? 0); [discriminate H|].
    destruct (_ =? 0); injection H as <-.
    + destruct (Hsnap s0) as [-> ->]. split; [|done]. by case_decide.
    + split; [|done]. rewrite Ee'. by case_decide.
  - destruct (mapM _ _) as [strats|] eqn:Em; simpl in H; [|discriminate H].
    rewrite E11 in H.
    destruct (snapshot_period s0 =? 0); [discriminate H|].
    destruct (_ =? 0); injection H as <-.
    + destruct (Hsnap (set_strategies strats s0)) as [-> ->].
      split; [|done]. by case_decide.
    + split; [|done].
      change (equity (set_strategies strats s0)) with (equity s0).
      rewrite Ee'. by case_decide.
Qed.

Lemma process_tick_equity self tick_data day_num self' out :
  process_tick self tick_data day_num = Some (self', out) →
  self'.(snapshot_period) = self.(snapshot_period) ∧
  self'.(equity)
  = (if decide (self.(current_day) ≠ Some day_num)
     then (self.(cash) + inject_Z self.(current_inventory)
                         * tick_data.(Price))%Q
     else if time_to_seconds tick_data.(Time) mod self.(snapshot_period) =? 0
     then (self.(cash) + inject_Z self.(current_inventory)
                         * tick_data.(Price))%Q
     else self.(equity)) ∧
  self'.(day_start_equity)
  = (if decide (self.(current_day) ≠ Some day_num)
     then (self.(cash) + inject_Z self.(current_inventory)
                         * tick_data.(Price))%Q
     else self.(day_start_equity)).
Proof.
  intros H. split.
  { apply process_tick_core_step in H.
    by apply core_step_period in H. }
  apply process_tick_inv in H as (s & Hs & Hcases).
  apply begin_tick_equity in Hs as [He Hd]. rewrite <- He, <- Hd.
  destruct Hcases as [(_ & -> & ->)|[(_ & _ & -> & ->)|
                      [(_ & _ & _ & Hsq)|(_ & _ & _ & Htr)]]].
  - done.
  - done.
  - apply square_off_view in Hsq as (Hb & _). by injection Hb.
  - apply trade_books in Htr. by injection Htr.
Qed.

Lemma run_equity self day_num ticks self' outs :
  Forall (λ x, x.1 = day_num ∧
               time_to_seconds x.2.(Time) mod self.(snapshot_period) ≠ 0)
    ticks →
  self.(current_day) = Some day_num →
  run self ticks = Some (self', outs) →
  self'.(equity) = self.(equity) ∧
  self'.(day_start_equity) = self.(day_start_equity).
Proof.
  revert self outs. induction ticks as [|[d tick_data] ticks IH];
    intros self outs Hall Hday H; simpl in H.
  - by injection H as <- <-.
  - apply Forall_cons in Hall as [[Hd Hns] Hall]. simpl in Hd, Hns. subst d.
    destruct (process_tick self tick_data day_num) as [[s1 o]|] eqn:E1;
      simpl in H; [|discriminate H].
    destruct (run s1 ticks) as [[s2 os]|] eqn:E2; simpl in H;
      [|discriminate H].
    injection H as <- <-.
    pose proof (process_tick_equity _ _ _ _ _ E1) as (Hp & He & Hds).
    apply process_tick_log in E1 as (_ & Hd1 & _).
    rewrite <- Hp in Hall.
    destruct (IH _ _ Hall Hd1 E2) as [-> ->].
    rewrite He, Hds. clear He Hds.
    destruct (decide (self.(current_day) ≠ Some day_num)) as [Hne|_];
      [done|].
    apply Z.eqb_neq in Hns. by rewrite Hns.
Qed.

(** X24: Equity is marked to market only on the first tick of a day and at
    snapshots; a release or a netting pass does not touch it.  So when,
    after the first tick of a new day, no tick of the day falls on a
    multiple of [snapshot_period], the equity at the end of the day is
    still the cash plus the marked inventory of the day's first tick, and
    [day_pnl] of [get_day_results] is zero whatever was traded during the
    day. *)
Theorem day_pnl_needs_snapshot self day_num tick_data ticks self' outs :
  self.(current_day) ≠ Some day_num →
  Forall (λ x, x.1 = day_num ∧
               time_to_seconds x.2.(Time) mod self.(snapshot_period) ≠ 0)
    ticks →
  run self ((day_num, tick_data) :: ticks) = Some (self', outs) →
  self'.(equity)
  = (self.(cash) + inject_Z self.(current_inventory)
                   * tick_data.(Price))%Q ∧
  self'.(day_start_equity) = self'.(equity) ∧
  ((get_day_results self').(day_pnl) == 0)%Q.
Proof.
  intros Hnew Hall H. simpl in H.
  destruct (process_tick self tick_data day_num) as [[s1 o]|] eqn:E1;
    simpl in H; [|discriminate H].
  destruct (run s1 ticks) as [[s2 os]|] eqn:E2; simpl in H;
    [|discriminate H].
  injection H as <- <-.
  pose proof (process_tick_equity _ _ _ _ _ E1) as (Hp & He & Hds).
  apply process_tick_log in E1 as (_ & Hd1 & _).
  rewrite <- Hp in Hall.
  destruct (run_equity _ _ _ _ _ Hall Hd1 E2) as [He2 Hds2].
  destruct (decide (self.(current_day) ≠ Some day_num)) as [_|Hne];
    [|done].
  assert (E : s2.(day_start_equity) = s2.(equity)) by congruence.
  split; [congruence|]. split; [done|].
  unfold get_day_results. simpl. rewrite E. ring.
Qed.

End EquityProperties.

Lemma day_pnl_needs_snapshot_witness :
  ∃ engine self' outs,
    demo_engine = Some engine ∧
    Orchestrator.run (ops := Strategy.Strategy_A) engine demo_day_ticks
    = Some (self', outs) ∧
    releases outs = 2%nat ∧
    ((Orchestrator.get_day_results self').(Orchestrator.day_pnl) == 0)%Q.
Proof.
  destruct demo_engine as [engine|] eqn:E; [|vm_compute in E; discriminate E].
  destruct (Orchestrator.run (ops := Strategy.Strategy_A) engine
              demo_day_ticks) as [[self' outs]|] eqn:Er.
  - exists engine, self', outs. split; [reflexivity|]. split; [exact Er|].
    assert (Hp : engine.(Orchestrator.snapshot_period) = 300 ∧
                 engine.(Orchestrator.current_day) = None).
    { clear Er. vm_compute in E. injection E as <-. split; reflexivity. }
    destruct Hp as [Hp Hd]. split.
    + vm_compute in E. injection E as <-. vm_compute in Er.
      injection Er as _ <-. reflexivity.
    + eapply (day_pnl_needs_snapshot (ops := Strategy.Strategy_A) engine 1);
        [| |exact Er].
      * rewrite Hd. discriminate.
      * rewrite Hp. repeat constructor; simpl; discriminate.
  - exfalso. vm_compute in E. injection E as <-. vm_compute in Er.
    discriminate Er.
Defined.

(** ** When [update_position] raises *)

(** X25: [update_position] returns exactly when there are as many signals as
    asks and at most as many as the ledger has slots; on every other
    input an index is out of range and the call raises.  (Slots beyond
    the signals are passed to [normalize] as they are.) *)
Theorem update_position_returns (self : Position.t)
    (signals asks_abs : list Z) :
  is_Some (update_position self signals asks_abs) ↔
  length signals = length asks_abs ∧
  (length signals ≤ length self.(pos))%nat.
Proof.
  split.
  - intros [[self' r] H].
    apply update_position_Some in H as (st & Hnet & _).
    unfold net in Hnet.
    destruct (signed_asks signals asks_abs) as [asks|] eqn:Ea;
      simpl in Hnet; [|discriminate Hnet].
    pose proof (signed_asks_length _ _ _ Ea) as Hlen.
    apply net_loop_inv in Hnet; [|done|apply Forall_replicate_eq].
    destruct Hnet as [_ _ _ [Hb1 Hb2] _ _ _ _ _ _]. simpl in Hb1, Hb2.
    assert (length asks_abs ≤ length signals)%nat; [|lia].
    destruct (decide (length asks_abs ≤ length signals)%nat) as [|Hgt];
      [done|exfalso].
    apply mapM_Some_1 in Ea.
    assert (Hi : Py.range (length asks_abs) !! length signals
                 = Some (length signals)).
    { unfold Py.range. apply lookup_seq. lia. }
    destruct (Forall2_lookup_l _ _ _ _ _ Ea Hi) as (y & _ & Hy).
    destruct (asks_abs !! length signals); simpl in Hy; [|done].
    by rewrite (lookup_ge_None_2 signals (length signals)) in Hy by lia.
  - intros [Hl1 Hl2]. unfold update_position, net.
    destruct (signed_asks_total signals asks_abs) as [asks E]; [lia|].
    rewrite E. simpl. apply signed_asks_length in E.
    destruct (net_loop_total
                (mk_netting self.(pos) asks
                   (replicate (length asks_abs) 0) 0) (length signals))
      as [st ->]; simpl; rewrite ?length_replicate; try lia; try done.
    { apply Forall_replicate_eq. }
    simpl. rewrite normalize_eq. simpl. by eexists.
Qed.

Lemma update_position_returns_witness :
  update_position (Position.mk 2 100 100 [0; 0]) [1; 1; 1] [10; 10] = None ∧
  is_Some (update_position (Position.mk 2 100 100 [0; 0]) [1] [10]).
Proof.
  split; [reflexivity|].
  apply (proj2 (update_position_returns (Position.mk 2 100 100 [0; 0])
                  [1] [10])).
  simpl. split; [reflexivity|lia].
Defined.

(** ** Entry records *)

Section EntryProperties.
Context {S : Type} {ops : Strategy.Ops S}.
Import Orchestrator.

Implicit Types (self : Orchestrator.t S) (tick_data : Tick).

Lemma record_body_move tick_data prev_pos curr_pos j (s s' : Orchestrator.t S)
    pp cp :
  record_body tick_data prev_pos curr_pos j s = Some s' →
  prev_pos !! j = Some pp → curr_pos !! j = Some cp →
  s'.(entry_prices) !! j
  = entry_move pp cp tick_data.(Price) 0%Q (s.(entry_prices) !! j) ∧
  s'.(entry_times) !! j
  = entry_move pp cp (Some tick_data.(Time)) None (s.(entry_times) !! j).
Proof.
  unfold record_body, entry_move. intros H Hpp Hcp.
  destruct (strategies s !! j) as [strategy|]; simpl in H; [|discriminate H].
  rewrite Hpp, Hcp in H. simpl in H.
  destruct ((pp =? 0) && negb (cp =? 0)).
  - destruct (Strategy.update_position _ _ _) as [st|]; simpl in H;
      [|discriminate H].
    destruct (Py.store j _ (entry_prices s)) as [ep|] eqn:E1; simpl in H;
      [|discriminate H].
    destruct (Py.store j _ (entry_times s)) as [et|] eqn:E2; simpl in H;
      [|discriminate H].
    apply store_Some in E1 as [L1 ->]. apply store_Some in E2 as [L2 ->].
    injection H as <-. simpl. by rewrite !list_lookup_insert_eq.
  - destruct ((cp =? 0) && negb (pp =? 0)); [|by injection H as <-].
    destruct (Strategy.update_position _ _ _) as [st|]; simpl in H;
      [|discriminate H].
    destruct (Py.store j _ (entry_prices s)) as [ep|] eqn:E1; simpl in H;
      [|discriminate H].
    destruct (Py.store j _ (entry_times s)) as [et|] eqn:E2; simpl in H;
      [|discriminate H].
    apply store_Some in E1 as [L1 ->]. apply store_Some in E2 as [L2 ->].
    injection H as <-. simpl. by rewrite !list_lookup_insert_eq.
Qed.

Lemma record_loop_move tick_data prev_pos curr_pos n (s s' : Orchestrator.t S)
    i pp cp :
  Py.for_each (record_body tick_data prev_pos curr_pos) (Py.range n) s
  = Some s' →
  prev_pos !! i = Some pp → curr_pos !! i = Some cp →
  (s'.(entry_prices) !! i
   = if decide (i < n)%nat
     then entry_move pp cp tick_data.(Price) 0%Q (s.(entry_prices) !! i)
     else s.(entry_prices) !! i) ∧
  (s'.(entry_times) !! i
   = if decide (i < n)%nat
     then entry_move pp cp (Some tick_data.(Time)) None
            (s.(entry_times) !! i)
     else s.(entry_times) !! i).
Proof.
  intros H Hpp Hcp. revert s' H.
  induction n as [|n IH]; intros s' H.
  - injection H as <-. split; case_decide; (done || lia).
  - rewrite range_S, for_each_app in H.
    destruct (Py.for_each _ (Py.range n) s) as [s1|]; simpl in H; [|done].
    destruct (record_body _ _ _ n s1) as [s2|] eqn:Eb; simpl in H; [|done].
    injection H as <-. destruct (IH s1 eq_refl) as [IH1 IH2].
    destruct (decide (i = n)) as [->|Hne].
    + destruct (record_body_move _ _ _ _ _ _ _ _ Eb Hpp Hcp) as [-> ->].
      rewrite IH1, IH2. split; repeat case_decide; (done || lia).
    + apply record_body_entries in Eb as [Hother _].
      destruct (Hother i Hne) as [-> ->]. rewrite IH1, IH2.
      split; repeat case_decide; (done || lia).
Qed.

(** X26: Entry records.  A netting tick leaves, for every slot with a
    strategy, the tick's price and time as the slot's entry price and
    entry time when the slot went from flat to a position, the cleared
    values 0.0 and [None] when it went from a position to flat, and the
    earlier record in every other case: a slot that keeps or only reduces
    its position keeps the price and time of its entry. *)
Theorem entry_records self tick_data day_num self' signals d aimd pnl_list
    (i : nat) (p p' : Z) :
  process_tick self tick_data day_num
  = Some (self', Netted signals d aimd pnl_list) →
  (i < length self.(strategies))%nat →
  self.(position).(Position.pos) !! i = Some p →
  self'.(position).(Position.pos) !! i = Some p' →
  self'.(entry_prices) !! i
  = entry_move p p' tick_data.(Price) 0%Q (self.(entry_prices) !! i) ∧
  self'.(entry_times) !! i
  = entry_move p p' (Some tick_data.(Time)) None
      (self.(entry_times) !! i).
Proof.
  intros H Hi Hp Hp'.
  apply netted_tick in H
    as (s & strats & ledger & s2 & s3 & asks' & Hs & _ & _ & _ & _ & _ & _
        & Hstl & _ & Hrec & _ & _ & _ & _ & Epos & _ & -> & ->).
  apply begin_tick_view in Hs as (Hep & Het & _).
  rewrite Epos in Hp'.
  destruct (record_loop_move _ _ _ _ _ _ i p p' Hrec Hp Hp') as [-> ->].
  rewrite <- Hep, <- Het. split; case_decide; (done || lia).
Qed.

End EntryProperties.

Lemma entry_records_witness :
  ∃ engine self' out,
    demo_engine = Some engine ∧
    Orchestrator.process_tick (ops := Strategy.Strategy_A) engine
      (mk_tick (mk_time 2 0 0) 100) 1 = Some (self', out) ∧
    self'.(Orchestrator.position).(Position.pos) = [10] ∧
    self'.(Orchestrator.entry_prices) !! 0%nat = Some 100%Q ∧
    self'.(Orchestrator.entry_times) !! 0%nat = Some (Some (mk_time 2 0 0)).
Proof.
  destruct demo_engine as [engine|] eqn:E; [|vm_compute in E; discriminate E].
  destruct (Orchestrator.process_tick (ops := Strategy.Strategy_A) engine
              (mk_tick (mk_time 2 0 0) 100) 1) as [[self' o]|] eqn:E1.
  - assert (Ho : o = Orchestrator.Netted [1] 10 [0] [0%Q] ∧
                 self'.(Orchestrator.position).(Position.pos) = [10]).
    { vm_compute in E. injection E as <-. vm_compute in E1.
      injection E1 as <- <-. split; reflexivity. }
    destruct Ho as [-> Hpos].
    exists engine, self', (Orchestrator.Netted [1] 10 [0] [0%Q]).
    split; [reflexivity|]. split; [exact E1|]. split; [exact Hpos|].
    apply (entry_records engine _ _ _ _ _ _ _ 0%nat 0 10 E1).
    + clear E1. vm_compute in E. injection E as <-. simpl. lia.
    + clear E1. vm_compute in E. injection E as <-. reflexivity.
    + by rewrite Hpos.
  - exfalso. vm_compute in E. injection E as <-. vm_compute in E1.
    discriminate E1.
Defined.

Section NewDayProperties.
Context {S : Type} {ops : Strategy.Ops S}.
Import Orchestrator.

Implicit Types (self : Orchestrator.t S) (tick_data : Tick).

Lemma new_day_release self tick_data day_num self' out :
  self.(current_day) ≠ Some day_num →
  process_tick self tick_data day_num = Some (self', out) →
  ((∃ q, out = Released q) ↔
   self.(trade_backlog) ≠ 0 ∧ 0 < time_to_seconds tick_data.(Time)).
Proof.
  intros Hnew H.
  apply process_tick_inv in H as (s & Hs & Hcases).
  apply begin_tick_core in Hs.
  pose proof (f_equal c_pointer Hs) as Ep.
  pose proof (f_equal c_backlog Hs) as Eb.
  pose proof (f_equal c_last Hs) as Et.
  pose proof (f_equal c_cooldown Hs) as Ec.
  cbn in Ep, Eb, Et, Ec. clear Hs.
  destruct (decide (self.(current_day) ≠ Some day_num)) as [_|Hne];
    [|done].
  assert (Hdue : release_due s = true ↔
                 self.(trade_backlog) ≠ 0
                 ∧ 0 < time_to_seconds tick_data.(Time)).
  { unfold release_due. rewrite Eb, Ep, Et, Ec.
    rewrite andb_true_iff, negb_true_iff, Z.eqb_neq, Z.gtb_lt. lia. }
  rewrite <- Hdue.
  destruct Hcases as [(Hd & -> & _)|[(Hd & _ & -> & _)|
                      [(Hd & _ & _ & Hsq)|(Hd & _ & _ & Htr)]]].
  - split; eauto.
  - split; [by intros [? ?]|intros Hx; rewrite Hx in Hd; discriminate Hd].
  - apply square_off_inv in Hsq as [-> _].
    split; [by intros [? ?]|intros Hx; rewrite Hx in Hd; discriminate Hd].
  - apply trade_core in Htr as (? & ? & ? & ? & ? & ? & -> & _).
    split; [by intros [? ?]|intros Hx; rewrite Hx in Hd; discriminate Hd].
Qed.

Lemma new_day_paths self tick_data day_num self' out :
  self.(current_day) ≠ Some day_num →
  process_tick self tick_data day_num = Some (self', out) →
  out ≠ Blocked ∧
  (self'.(eod_squared_off) = true ↔ (∃ push, out = SquaredOff push)) ∧
  ((∃ push, out = SquaredOff push) ↔
   is_release out = false ∧
   self.(day_length) ≤ time_to_seconds tick_data.(Time)).
Proof.
  intros Hnew H.
  apply process_tick_inv in H as (s & Hs & Hcases).
  apply begin_tick_core in Hs.
  pose proof (f_equal c_day_length Hs) as El.
  pose proof (f_equal c_pointer Hs) as Ep.
  pose proof (f_equal c_eod Hs) as Ee.
  cbn in El, Ep, Ee. clear Hs.
  destruct (decide (self.(current_day) ≠ Some day_num)) as [_|Hne];
    [|done].
  destruct Hcases as [(_ & -> & ->)|[(_ & He & _)|
                      [(_ & _ & Hlen & Hsq)|(_ & _ & Hlen & Htr)]]].
  - change (eod_squared_off (execute_trade s tick_data))
      with (eod_squared_off s).
    rewrite Ee. split; [done|]. split.
    + split; [done|by intros [? ?]].
    + split; [by intros [? ?]|by intros [? _]].
  - rewrite Ee in He. discriminate He.
  - apply square_off_inv in Hsq as [-> Hc].
    pose proof (f_equal c_eod Hc) as Ee'. cbn in Ee'.
    rewrite Ee'. split; [done|]. split.
    + split; eauto.
    + split; [intros _; split; [done|lia]|eauto].
  - apply trade_core in Htr
      as (sg & ledger & d0 & aimd0 & pnl0 & asks' & -> & _ & _ & Hc).
    pose proof (f_equal c_eod Hc) as Ee'. cbn in Ee'.
    rewrite Ee', Ee. split; [done|]. split.
    + split; [done|by intros [? ?]].
    + split; [by intros [? ?]|intros [_ ?]; lia].
Qed.

(** X27: The first tick of a day, that is a tick whose day number differs
    from the engine's current day (smaller numbers included: the numbers
    are only compared for equality).  It is never blocked, also when the flag
    of the previous day is still set.  It releases backlog exactly when
    the backlog is not zero and the tick is later than 00:00:00, however
    recent the last release was.  Afterwards the flag is set exactly when
    the tick squared the book off, which it does when it released nothing
    and its time has reached [day_length]. *)
Theorem new_day_first_tick self tick_data day_num self' out :
  self.(current_day) ≠ Some day_num →
  process_tick self tick_data day_num = Some (self', out) →
  out ≠ Blocked ∧
  self'.(current_day) = Some day_num ∧
  ((∃ q, out = Released q) ↔
   self.(trade_backlog) ≠ 0 ∧ 0 < time_to_seconds tick_data.(Time)) ∧
  (self'.(eod_squared_off) = true ↔
   (∃ push, out = SquaredOff push)) ∧
  ((∃ push, out = SquaredOff push) ↔
   is_release out = false ∧
   self.(day_length) ≤ time_to_seconds tick_data.(Time)).
Proof.
  intros Hnew H.
  destruct (new_day_paths _ _ _ _ _ Hnew H) as (H1 & H2 & H3).
  split; [exact H1|]. split.
  { by apply process_tick_log in H as (_ & Hday & _). }
  split; [exact (new_day_release _ _ _ _ _ Hnew H)|].
  split; [exact H2|exact H3].
Qed.

End NewDayProperties.

Lemma new_day_first_tick_witness :
  ∃ engine self' out,
    demo_engine = Some engine ∧
    Orchestrator.process_tick (ops := Strategy.Strategy_A)
      (Orchestrator.set_eod_squared_off true
         (Orchestrator.set_trade_backlog 7 engine))
      (mk_tick (mk_time 0 0 1) 100) 1 = Some (self', out) ∧
    out ≠ Orchestrator.Blocked ∧ ∃ q, out = Orchestrator.Released q.
Proof.
  destruct demo_engine as [engine|] eqn:E; [|vm_compute in E; discriminate E].
  destruct (Orchestrator.process_tick (ops := Strategy.Strategy_A)
              (Orchestrator.set_eod_squared_off true
                 (Orchestrator.set_trade_backlog 7 engine))
              (mk_tick (mk_time 0 0 1) 100) 1) as [[self' o]|] eqn:E1.
  - exists engine, self', o. split; [reflexivity|]. split; [exact E1|].
    assert (Hd : (Orchestrator.set_eod_squared_off true
                    (Orchestrator.set_trade_backlog 7 engine)).(
                  Orchestrator.current_day) ≠ Some 1).
    { clear E1. vm_compute in E. injection E as <-. discriminate. }
    destruct (new_day_first_tick _ _ _ _ _ Hd E1) as (H1 & _ & H2 & _).
    split; [exact H1|]. apply H2. split; [simpl; lia|reflexivity].
  - exfalso. vm_compute in E. injection E as <-. vm_compute in E1.
    discriminate E1.
Defined.
